(** * Elemental toolkit: specs of the deployment engine, checked on the code

    A shallow embedding of the configuration types of package [types]
    (partitions, action specs, install state) and of the btrfs snapshotter
    of package [snapshotter], followed by the properties the specification
    states about them.

    Conventions of the embedding.
    - Go [string] is [string]; Go [uint] is [N] with 64-bit wrap-around
      written out ([uint_add]); Go [int] is [Z]; Go [error] is
      [option string], [None] being [nil].
    - A [*Partition] is an address into a heap of partitions, or nil:
      [option ptr].  Two pointers are equal when their addresses are, so
      aliasing and the pointer comparison of [inExcludes] are kept.
    - A nil dereference is the outcome [Panic].  Go has no dangling
      pointers; an address outside the heap is given the same outcome, so
      every function is total on every heap.
    - A method with a pointer receiver takes the receiver and returns the
      updated receiver next to its Go result. *)

From Stdlib Require Import ZArith NArith Lia List String Ascii.
From Stdlib Require Import DecimalString Permutation Sorted.
From stdpp Require Import base option list gmap strings.

Import ListNotations.
Local Open Scope string_scope.
Local Open Scope list_scope.

(** ** Go basics *)

Abbreviation error := (option string).

(** Outcome of running a Go function: it returns, or the runtime panics. *)
Inductive outcome (A : Type) : Type :=
| Ok (a : A)
| Panic.
Arguments Ok {A} a.
Arguments Panic {A}.

Definition obind {A B : Type} (m : outcome A) (k : A -> outcome B) : outcome B :=
  match m with
  | Ok a => k a
  | Panic => Panic
  end.

#[global] Instance outcome_ret : MRet outcome := @Ok.
#[global] Instance outcome_bind : MBind outcome := fun A B k m => obind m k.

(** Go [uint] on the 64-bit platforms the toolkit supports. *)
Definition uint_modulus : N := 2 ^ 64.
Definition uint_add (a b : N) : N := ((a + b) mod uint_modulus)%N.

(** [strconv.Itoa]. *)
Definition Itoa (z : Z) : string := NilZero.string_of_int (Z.to_int z).

(** [strings.Join]. *)
Fixpoint Join (elems : list string) (sep : string) : string :=
  match elems with
  | [] => ""
  | [e] => e
  | e :: rest => (e ++ sep ++ Join rest sep)%string
  end.

(** [strings.Count s sep] for the one-byte separator [sep]. *)
Fixpoint Count (s : string) (sep : ascii) : nat :=
  match s with
  | EmptyString => 0
  | String c rest => (if Ascii.eqb c sep then 1 else 0) + Count rest sep
  end.

(** ** Package constants *)

Module constants.
Definition GrubOEMEnv := "grub_oem_env".
Definition BiosPartName := "p.bios".
Definition SystemLabel := "COS_SYSTEM".
Definition RecoveryLabel := "COS_RECOVERY".
Definition RecoveryPartName := "p.recovery".
Definition StateLabel := "COS_STATE".
Definition StatePartName := "p.state".
Definition PersistentLabel := "COS_PERSISTENT".
Definition PersistentPartName := "p.persistent".
Definition OEMLabel := "COS_OEM".
Definition OEMPartName := "p.oem".
Definition SquashFs := "squashfs".
Definition BiosSize : N := 1.
Definition RunningStateDir := "/run/initramfs/cos-state".
Definition RecoveryImgName := "recovery".

Definition GetCloudInitPaths : list string :=
  ["/system/oem"; "/oem/"; "/usr/local/cloud-config/"].

(** Modelled from the spec: the constants below are used by the sources
    but declared in a part of package constants that is not among them.
    Section 4.6 and the data model name the persistent modes [bind] and
    [overlay] and the ephemeral types [tmpfs] and [block]; section 4.4
    names the keys of the GRUB environment file and the two snapshotter
    types; section 6 names the state file; the ESP is the partition
    [p.grub] labelled [COS_GRUB]. *)
Definition BindMode := "bind".
Definition OverlayMode := "overlay".
Definition Tmpfs := "tmpfs".
Definition Block := "block".
Definition GrubFallback := "fallback".
Definition GrubPassiveSnapshots := "passive_snapshots".
Definition BtrfsSnapshotterType := "btrfs".
Definition LoopDeviceSnapshotterType := "loop-device".
Definition InstallStateFile := "state.yaml".
Definition BootPartName := "p.grub".
Definition BootLabel := "COS_GRUB".
End constants.

(** [strings.Split s sep] for the one-byte separator [sep]. *)
Fixpoint Split (s : string) (sep : ascii) : list string :=
  match s with
  | EmptyString => [""]
  | String c rest =>
      if Ascii.eqb c sep then "" :: Split rest sep
      else match Split rest sep with
           | e :: es => String c e :: es
           | [] => [String c ""]
           end
  end.

(** One element of the path read by [filepath.Clean]; [out] holds the
    elements kept so far, the last one first.  An empty element and [.]
    are dropped; [..] removes the element before it, is kept at the
    start of a path that is not rooted, and is dropped at the root. *)
Definition cleanElement (rooted : bool) (out : list string) (e : string)
  : list string :=
  if (e =? "") || (e =? ".") then out
  else if e =? ".." then
    match out with
    | last :: before => if last =? ".." then e :: out else before
    | [] => if rooted then out else [e]
    end
  else e :: out.

(** [filepath.Clean] on Linux: the shortest path that names the same
    file by the rules of the Go library; the empty path becomes [.]. *)
Definition filepath_Clean (path : string) : string :=
  let rooted := match path with
                | String c _ => Ascii.eqb c "/"
                | EmptyString => false
                end in
  let out := fold_left (cleanElement rooted) (Split path "/") [] in
  let cleaned := ((if rooted then "/" else "") ++ Join (rev out) "/")%string in
  if cleaned =? "" then "." else cleaned.

(** [filepath.Join] of two elements: the elements from the first one
    that is not empty on, joined by separators, and cleaned; the empty
    string when both are empty. *)
Definition filepath_Join (a b : string) : string :=
  if negb (a =? "") then filepath_Clean (a ++ "/" ++ b)
  else if negb (b =? "") then filepath_Clean b
  else "".

(** [slices.DeleteFunc]: the elements for which [del] is false, in order. *)
Definition DeleteFunc {A : Type} (l : list A) (del : A -> bool) : list A :=
  List.filter (fun x => negb (del x)) l.

(** ** Package types: partitions *)

Module Partition.
(** Partition struct: a partition with its configurable values, size in MiB. *)
Record t : Type := mk {
  Name : string;
  FilesystemLabel : string;
  Size : N;
  FS : string;
  Flags : list string;
  MountPoint : string;
  Path : string;
  Disk : string
}.

Definition setFlags (fl : list string) (p : t) : t :=
  mk (Name p) (FilesystemLabel p) (Size p) (FS p) fl (MountPoint p) (Path p) (Disk p).
End Partition.

(** Addresses of partitions; the heap holds every allocated [Partition]. *)
Abbreviation ptr := nat.
Abbreviation heap := (list Partition.t).

(** [&Partition{...}]: allocation of a fresh partition. *)
Definition alloc (h : heap) (p : Partition.t) : ptr * heap := (length h, h ++ [p]).

(** [*p]: nil and unallocated addresses panic. *)
Definition load (h : heap) (p : option ptr) : outcome Partition.t :=
  match p with
  | None => Panic
  | Some a => match h !! a with
              | Some v => Ok v
              | None => Panic
              end
  end.

(** [*p = v] for a non-nil [p]. *)
Definition store (h : heap) (a : ptr) (v : Partition.t) : outcome heap :=
  match h !! a with
  | Some _ => Ok (<[a := v]> h)
  | None => Panic
  end.

(** Every stored pointer is nil or allocated: what Go guarantees. *)
Definition valid (h : heap) (p : option ptr) : Prop :=
  match p with
  | None => True
  | Some a => a < length h
  end.

(** [type PartitionList []*Partition]. *)
Abbreviation PartitionList := (list (option ptr)).

Module ElementalPartitions.
Record t : Type := mk {
  BIOS : option ptr;
  Boot : option ptr;
  OEM : option ptr;
  Recovery : option ptr;
  State : option ptr;
  Persistent : option ptr
}.

Definition setBIOS (v : option ptr) (ep : t) : t :=
  mk v (Boot ep) (OEM ep) (Recovery ep) (State ep) (Persistent ep).
Definition setBoot (v : option ptr) (ep : t) : t :=
  mk (BIOS ep) v (OEM ep) (Recovery ep) (State ep) (Persistent ep).
End ElementalPartitions.

Module types.
Import ElementalPartitions.

Definition GPT := "gpt".
Definition BIOS := "bios".
Definition MSDOS := "msdos".
Definition EFI := "efi".
Definition ESP := "esp".
Definition bios := "bios_grub".
Definition boot := "boot".

(** SetFirmwarePartitions sets firmware partitions for a given firmware
    and partition table type. *)
Definition SetFirmwarePartitions (firmware partTable : string)
    (ep : ElementalPartitions.t) (h : heap)
  : outcome (ElementalPartitions.t * heap * error) :=
  if (firmware =? EFI) && (partTable =? GPT) then
    match Boot ep with
    | None => Ok (ep, h, Some "nil efi partition")
    | Some _ => Ok (setBIOS None ep, h, None)
    end
  else if (firmware =? BIOS) && (partTable =? GPT) then
    let '(a, h1) := alloc h (Partition.mk constants.BiosPartName ""
                               constants.BiosSize "" [bios] "" "" "") in
    Ok (setBoot None (setBIOS (Some a) ep), h1, None)
  else
    match State ep with
    | None => Ok (ep, h, Some "nil state partition")
    | Some a =>
        st ← load h (Some a);
        h1 ← store h a (Partition.setFlags [boot] st);
        Ok (setBIOS None (setBoot None ep), h1, None)
    end.

(** The closure [inExcludes] of PartitionsByInstallOrder: pointer equality. *)
Definition inExcludes (part : ptr) (l : PartitionList) : bool :=
  existsb (fun p => match p with
                    | Some a => Nat.eqb part a
                    | None => false
                    end) l.

(** One of the six guarded appends of the fixed slots. *)
Definition appendSlot (slot : option ptr) (excludes : PartitionList)
    (partitions : list ptr) : list ptr :=
  match slot with
  | Some a => if negb (inExcludes a excludes) then partitions ++ [a] else partitions
  | None => partitions
  end.

(** The loop over the extra partitions, threading [partitions] and
    [lastPartition]. *)
Fixpoint extrasLoop (h : heap) (extraPartitions : PartitionList)
    (partitions : list ptr) (lastPartition : option ptr)
  : outcome (list ptr * option ptr) :=
  match extraPartitions with
  | [] => Ok (partitions, lastPartition)
  | p :: rest =>
      v ← load h p;
      match p with
      | None => Panic
      | Some a =>
          if (Partition.Size v =? 0)%N then
            match lastPartition with
            | Some _ => extrasLoop h rest partitions lastPartition
            | None => extrasLoop h rest partitions (Some a)
            end
          else extrasLoop h rest (partitions ++ [a]) lastPartition
      end
  end.

(** PartitionsByInstallOrder sorts partitions according to the default
    layout; nil partitions are ignored; partition with 0 size is set last. *)
Definition PartitionsByInstallOrder (ep : ElementalPartitions.t) (h : heap)
    (extraPartitions excludes : PartitionList) : outcome (list ptr) :=
  let partitions := [] in
  let partitions := appendSlot (ElementalPartitions.BIOS ep) excludes partitions in
  let partitions := appendSlot (Boot ep) excludes partitions in
  let partitions := appendSlot (OEM ep) excludes partitions in
  let partitions := appendSlot (Recovery ep) excludes partitions in
  let partitions := appendSlot (State ep) excludes partitions in
  '(partitions, lastPartition) ←
    match Persistent ep with
    | Some a =>
        if negb (inExcludes a excludes) then
          v ← load h (Some a);
          if (Partition.Size v =? 0)%N then Ok (partitions, Some a)
          else Ok (partitions ++ [a], None)
        else Ok (partitions, None)
    | None => Ok (partitions, None)
    end;
  '(partitions, lastPartition) ← extrasLoop h extraPartitions partitions lastPartition;
  match lastPartition with
  | Some a => Ok (partitions ++ [a])
  | None => Ok partitions
  end.
End types.

(** The methods of [PartitionList]. *)
Module PartitionList.
(** The loop of GetByName and of GetByLabel, which differ only in the
    field they compare: [part] is the last match met so far, and a match
    that has a mount point is returned at once. *)
Fixpoint getBy (field : Partition.t -> string) (h : heap) (pl : PartitionList)
    (key : string) (part : option ptr) : outcome (option ptr) :=
  match pl with
  | [] => Ok part
  | p :: rest =>
      v ← load h p;
      if field v =? key then
        if negb (Partition.MountPoint v =? "") then Ok p
        else getBy field h rest key p
      else getBy field h rest key part
  end.

(** GetByName gets a partitions by its name from the PartitionList. *)
Definition GetByName (h : heap) (pl : PartitionList) (name : string)
  : outcome (option ptr) :=
  getBy Partition.Name h pl name None.

(** GetByLabel gets a partition by its label from the PartitionList. *)
Definition GetByLabel (h : heap) (pl : PartitionList) (label : string)
  : outcome (option ptr) :=
  getBy Partition.FilesystemLabel h pl label None.

(** GetByNameOrLabel gets a partition by its name or label.  It tries by
    name first. *)
Definition GetByNameOrLabel (h : heap) (pl : PartitionList) (name label : string)
  : outcome (option ptr) :=
  part ← GetByName h pl name;
  match part with
  | None => GetByLabel h pl label
  | Some _ => Ok part
  end.
End PartitionList.

(** ** Package types: image sources and images *)

(** Modelled from the spec: the type ImageSource and its method IsEmpty are
    declared in a file of package types that is not among the sources.  The
    data model gives it as the tagged variant {OCI(ref), Directory(path),
    File(path), Channel(pkg), Empty}.  A [*ImageSource] is read as the
    variant it points to: the specs below are those whose sources are
    set, and nothing is said of a call of IsEmpty through a nil pointer,
    whose outcome depends on the receiver the method is declared with. *)
Inductive ImageSource : Type :=
| OCI (ref : string)
| Directory (path : string)
| File (path : string)
| Channel (pkg : string)
| Empty.

Definition IsEmpty (s : ImageSource) : bool :=
  match s with
  | Empty => true
  | _ => false
  end.

Module Image.
(** Image struct: a file system image, size in MiB. *)
Record t : Type := mk {
  File : string;
  Label : string;
  Size : N;
  FS : string;
  Source : ImageSource;
  MountPoint : string;
  LoopDevice : string
}.

Definition setSource (v : ImageSource) (i : t) : t :=
  mk (File i) (Label i) (Size i) (FS i) v (MountPoint i) (LoopDevice i).
Definition setLabel (v : string) (i : t) : t :=
  mk (File i) v (Size i) (FS i) (Source i) (MountPoint i) (LoopDevice i).
End Image.

(** The block shared by the Sanitize methods of the install and upgrade
    specs: set the default label for non squashfs images. *)
Definition defaultRecoveryLabel (r : Image.t) : Image.t :=
  if negb (Image.FS r =? constants.SquashFs) && (Image.Label r =? "") then
    Image.setLabel constants.SystemLabel r
  else if Image.FS r =? constants.SquashFs then Image.setLabel "" r
  else r.

(** ** Package types: install state *)

(** Modelled from the spec: SnapshotterConfig and NewLoopDevice are declared
    in a file of package types that is not among the sources.  The spec
    gives a snapshotter its type ([loop-device] or [btrfs]) and its
    retention bound MaxSnaps, which the loop device backend caps at two. *)
Module SnapshotterConfig.
Record t : Type := mk {
  Type_ : string;
  MaxSnaps : Z
}.
End SnapshotterConfig.

Definition NewLoopDevice : SnapshotterConfig.t :=
  SnapshotterConfig.mk constants.LoopDeviceSnapshotterType 2.

Module SystemState.
(** SystemState represents data of a deployed OS image. *)
Record t : Type := mk {
  Source : option ImageSource;
  Digest : string;
  Active : bool;
  Label : string;
  FS : string;
  Labels : gmap string string;
  Date : string;
  FromAction : string
}.

Definition setFS (v : string) (s : t) : t :=
  mk (Source s) (Digest s) (Active s) (Label s) v (Labels s) (Date s) (FromAction s).
Definition setLabel (v : string) (s : t) : t :=
  mk (Source s) (Digest s) (Active s) v (FS s) (Labels s) (Date s) (FromAction s).
End SystemState.

Module PartitionState.
(** PartitionState tracks installation data of a partition. *)
Record t : Type := mk {
  FSLabel : string;
  RecoveryImage : option SystemState.t;
  Snapshots : gmap Z SystemState.t
}.

Definition setFSLabel (v : string) (p : t) : t :=
  mk v (RecoveryImage p) (Snapshots p).
Definition setRecoveryImage (v : option SystemState.t) (p : t) : t :=
  mk (FSLabel p) v (Snapshots p).
End PartitionState.

Module InstallState.
(** InstallState tracks the installation data of the whole system.  The
    map holds pointers in Go; a state that was just unmarshalled shares
    none of them, so each entry is its own value here, and a name whose
    entry is nil is read as a name that has no entry. *)
Record t : Type := mk {
  Date : string;
  Partitions : gmap string PartitionState.t;
  Snapshotter : SnapshotterConfig.t
}.

Definition setPartitions (v : gmap string PartitionState.t) (s : t) : t :=
  mk (Date s) v (Snapshotter s).
End InstallState.

(** ** Package types: writing and loading the install state *)

Module Config.
(** The header WriteInstallState puts before the YAML document. *)
Definition newline : string := String (ascii_of_nat 10) "".
Definition header : string :=
  ("# Autogenerated file by elemental client, do not edit" ++ newline ++ newline)%string.


(** [if Partitions[name] != nil && Partitions[name].FSLabel == "" {
      Partitions[name].FSLabel = label }]. *)
Definition defaultFSLabel (name label : string)
    (partitions : gmap string PartitionState.t) : gmap string PartitionState.t :=
  match partitions !! name with
  | Some p =>
      if PartitionState.FSLabel p =? ""
      then <[name := PartitionState.setFSLabel label p]> partitions
      else partitions
  | None => partitions
  end.

(** The same for the recovery partition, which also completes the file
    system and the label of the recovery image; the image is read
    through its pointer without a test for nil. *)
Definition defaultRecovery (partitions : gmap string PartitionState.t)
  : outcome (gmap string PartitionState.t) :=
  match partitions !! constants.RecoveryPartName with
  | Some p =>
      if PartitionState.FSLabel p =? "" then
        let recovery := PartitionState.setFSLabel constants.RecoveryLabel p in
        match PartitionState.RecoveryImage recovery with
        | None => Panic
        | Some img =>
            let img := if SystemState.FS img =? ""
                       then SystemState.setFS constants.SquashFs img else img in
            let img := if (SystemState.Label img =? "")
                          && negb (SystemState.FS img =? constants.SquashFs)
                       then SystemState.setLabel constants.SystemLabel img else img in
            Ok (<[constants.RecoveryPartName :=
                    PartitionState.setRecoveryImage (Some img) recovery]> partitions)
        end
      else Ok partitions
  | None => Ok partitions
  end.

(** Set default filesystem labels if missing. *)
Definition setDefaultLabels (installState : InstallState.t) : outcome InstallState.t :=
  let ps := InstallState.Partitions installState in
  let ps := defaultFSLabel constants.BootPartName constants.BootLabel ps in
  let ps := defaultFSLabel constants.OEMPartName constants.OEMLabel ps in
  ps ← defaultRecovery ps;
  let ps := defaultFSLabel constants.StatePartName constants.StateLabel ps in
  let ps := defaultFSLabel constants.PersistentPartName constants.PersistentLabel ps in
  Ok (InstallState.setPartitions ps installState).

Section Collaborators.
(** The YAML library and the file system are collaborators of the
    toolkit.  [bytes] is what a file holds; [yaml_Marshal] and
    [yaml_Unmarshal] are [yaml.Marshal] and [yaml.Unmarshal] at the type
    InstallState, the latter filling the value it is given;
    [withComment] puts a comment before a document, as
    [append([]byte(comment), data...)] does. *)
Variable bytes : Type.
Variable yaml_Marshal : InstallState.t -> bytes * error.
Variable yaml_Unmarshal : bytes -> InstallState.t -> InstallState.t * error.
Variable withComment : string -> bytes -> bytes.

(** [constants.LegacyStateDir] is declared in a part of package
    constants that is not among the sources and the spec gives it no
    value: it is a parameter. *)
Variable LegacyStateDir : string.

(** The file system of the configuration: the files it holds, and
    whether it refuses to be written. *)
Record FS : Type := mkFS {
  files : gmap string bytes;
  readOnly : bool
}.

Definition WriteFile (filename : string) (data : bytes) (fs : FS) : FS * error :=
  if readOnly fs then (fs, Some "read-only file system")
  else (mkFS (<[filename := data]> (files fs)) (readOnly fs), None).

Definition ReadFile (filename : string) (fs : FS) : option bytes * error :=
  match files fs !! filename with
  | Some data => (Some data, None)
  | None => (None, Some "no such file or directory")
  end.

(** WriteInstallState writes the state.yaml file to the given state
    and recovery paths. *)
Definition WriteInstallState (i : InstallState.t) (statePath recoveryPath : string)
    (fs : FS) : FS * error :=
  match yaml_Marshal i with
  | (_, Some e) => (fs, Some e)
  | (data, None) =>
      let data := withComment header data in
      let '(fs, err) :=
        if negb (statePath =? "") then WriteFile statePath data fs else (fs, None) in
      match err with
      | Some e => (fs, Some e)
      | None =>
          let '(fs, err) :=
            if negb (recoveryPath =? "") then WriteFile recoveryPath data fs
            else (fs, None) in
          match err with
          | Some e => (fs, Some e)
          | None => (fs, None)
          end
      end
  end.

(** LoadInstallState loads the state.yaml file and unmarshals it to an
    InstallState object. *)
Definition LoadInstallState (fs : FS) : outcome (option InstallState.t * error) :=
  let installState := InstallState.mk "" ∅ NewLoopDevice in
  let stateFile := filepath_Join constants.RunningStateDir constants.InstallStateFile in
  let '(data, err) := ReadFile stateFile fs in
  let '(data, err) :=
    match err with
    | Some _ =>
        let stateFile := filepath_Join LegacyStateDir constants.InstallStateFile in
        ReadFile stateFile fs
    | None => (data, err)
    end in
  match data, err with
  | Some data, None =>
      let '(installState, err) := yaml_Unmarshal data installState in
      match err with
      | Some e => Ok (None, Some e)
      | None =>
          installState ← setDefaultLabels installState;
          Ok (Some installState, None)
      end
  | _, _ => Ok (None, err)
  end.
End Collaborators.

Section Platform.
(** [Platform] and [NewPlatformFromArch] are declared in a file of
    package types that is not among the sources,
    [constants.GetSquashfsNoCompressionOptions] in a part of package
    constants that is not, and [runtime.GOARCH] is fixed by the build:
    they are parameters.  A [*Platform] is an [option]. *)
Variable PlatformData : Type.
Variable NewPlatformFromArch : string -> option PlatformData * error.
Variable GOARCH : string.
Variable GetSquashfsNoCompressionOptions : list string.

(** The fields of the Config struct that are data; the others are the
    interfaces of the collaborators. *)
Record t : Type := mk {
  Platform : option PlatformData;
  Cosign : bool;
  Verify : bool;
  TLSVerify : bool;
  CosignPubKey : string;
  LocalImage : bool;
  Arch : string;
  SquashFsCompressionConfig : list string;
  SquashFsNoCompression : bool;
  CloudInitPaths : list string;
  Strict : bool
}.

Definition setPlatform (v : option PlatformData) (c : t) : t :=
  mk v (Cosign c) (Verify c) (TLSVerify c) (CosignPubKey c) (LocalImage c) (Arch c)
     (SquashFsCompressionConfig c) (SquashFsNoCompression c) (CloudInitPaths c) (Strict c).
Definition setSquashFsCompressionConfig (v : list string) (c : t) : t :=
  mk (Platform c) (Cosign c) (Verify c) (TLSVerify c) (CosignPubKey c) (LocalImage c)
     (Arch c) v (SquashFsNoCompression c) (CloudInitPaths c) (Strict c).
Definition setCloudInitPaths (v : list string) (c : t) : t :=
  mk (Platform c) (Cosign c) (Verify c) (TLSVerify c) (CosignPubKey c) (LocalImage c)
     (Arch c) (SquashFsCompressionConfig c) (SquashFsNoCompression c) v (Strict c).

(** Sanitize checks the consistency of the struct, returns error if
    unsolvable inconsistencies are found. *)
Definition Sanitize (c : t) : t * error :=
  let c :=
    if SquashFsNoCompression c
    then setSquashFsCompressionConfig GetSquashfsNoCompressionOptions c
    else c in
  let '(c, err) :=
    if negb (Arch c =? "") then
      match NewPlatformFromArch (Arch c) with
      | (_, Some e) => (c, Some e)
      | (p, None) => (setPlatform p c, None)
      end
    else (c, None) in
  match err with
  | Some e => (c, Some e)
  | None =>
      match Platform c with
      | None =>
          match NewPlatformFromArch GOARCH with
          | (_, Some e) => (c, Some e)
          | (p, None) => (setPlatform p c, None)
          end
      | Some _ => (c, None)
      end
  end.
End Platform.

Section Document.
(** The YAML library at the type InstallState, as far as the tags of the
    struct direct it.  [date] and [snapshotter] are tagged [omitempty]:
    the key is absent from the document when the field holds the zero
    value of its type.  The partitions are tagged [inline]: each is a
    key of the document, named as the partition.  Every field of
    PartitionState and of SystemState is tagged [omitempty] and is
    decoded into a fresh value, in which a missing key leaves the zero
    value, so a partition is kept in the document as the value it stands
    for; so is an image source, whose marshaller is declared in a file
    that is not among the sources.  Comments are kept apart. *)
Record document : Type := mkDocument {
  comments : list string;
  date : option string;
  snapshotter : option SnapshotterConfig.t;
  partitions : gmap string PartitionState.t
}.

(** The YAML tags and the unmarshaller of SnapshotterConfig are declared
    with the type, in a file that is not among the sources: what
    unmarshalling the sub-document of a configuration into a preset
    leaves there is a parameter, given the configuration that was
    written and the preset. *)
Variable decodeSnapshotter
  : SnapshotterConfig.t -> SnapshotterConfig.t -> SnapshotterConfig.t.

(** The zero value of SnapshotterConfig. *)
Definition isZero (c : SnapshotterConfig.t) : bool :=
  (SnapshotterConfig.Type_ c =? "") && (SnapshotterConfig.MaxSnaps c =? 0)%Z.

(** The keys the fields of the struct take in the document. *)
Definition fieldKeys : list string := ["date"; "snapshotter"].

(** [yaml.Marshal] of an InstallState.  The library does not encode a
    value whose inlined map holds one of the keys of the struct: there
    is no document then, which is reported here as the error of
    Marshal. *)
Definition marshalDocument (i : InstallState.t) : document * error :=
  if existsb (fun k => bool_decide (is_Some (InstallState.Partitions i !! k))) fieldKeys
  then (mkDocument [] None None ∅,
        Some "cannot have key in inlined map: conflicts with struct field")
  else
    (mkDocument []
       (if InstallState.Date i =? "" then None else Some (InstallState.Date i))
       (if isZero (InstallState.Snapshotter i) then None
        else Some (InstallState.Snapshotter i))
       (InstallState.Partitions i), None).

(** [yaml.Unmarshal] into a value that is already filled: a key of the
    document sets its field and a missing key leaves the field as it
    was; the partitions of the document are added to the map, over the
    entries of the same name. *)
Definition unmarshalDocument (data : document) (out : InstallState.t)
  : InstallState.t * error :=
  (InstallState.mk
     (default (InstallState.Date out) (date data))
     (partitions data ∪ InstallState.Partitions out)
     (match snapshotter data with
      | Some c => decodeSnapshotter c (InstallState.Snapshotter out)
      | None => InstallState.Snapshotter out
      end), None).

(** [append([]byte(comment), data...)]. *)
Definition commentDocument (c : string) (data : document) : document :=
  mkDocument (c :: comments data) (date data) (snapshotter data) (partitions data).
End Document.

End Config.

Module RunConfig.
(** RunConfig: the flags of a run, with the Config it embeds. *)
Record t (PlatformData : Type) : Type := mk {
  Reboot : bool;
  PowerOff : bool;
  EjectCD : bool;
  Snapshotter : SnapshotterConfig.t;
  Config : Config.t PlatformData
}.
Arguments mk {PlatformData}.
Arguments Reboot {PlatformData}.
Arguments PowerOff {PlatformData}.
Arguments EjectCD {PlatformData}.
Arguments Snapshotter {PlatformData}.
Arguments Config {PlatformData}.

(** Sanitize checks the consistency of the struct, returns error if
    unsolvable inconsistencies are found. *)
Definition Sanitize {PlatformData : Type}
    (NewPlatformFromArch : string -> option PlatformData * error) (GOARCH : string)
    (GetSquashfsNoCompressionOptions : list string) (r : t PlatformData)
  : t PlatformData * error :=
  (* Always include default cloud-init paths *)
  let c := Config.setCloudInitPaths PlatformData
             (constants.GetCloudInitPaths ++ Config.CloudInitPaths PlatformData (Config r))
             (Config r) in
  let '(c, err) := Config.Sanitize PlatformData NewPlatformFromArch GOARCH
                     GetSquashfsNoCompressionOptions c in
  (mk (Reboot r) (PowerOff r) (EjectCD r) (Snapshotter r) c, err).
End RunConfig.

Module BuildConfig.
(** BuildConfig: the config for building isos, raw images, artifacts. *)
Record t (PlatformData : Type) : Type := mk {
  Date : bool;
  Name : string;
  OutDir : string;
  Snapshotter : SnapshotterConfig.t;
  Config : Config.t PlatformData
}.
Arguments mk {PlatformData}.
Arguments Date {PlatformData}.
Arguments Name {PlatformData}.
Arguments OutDir {PlatformData}.
Arguments Snapshotter {PlatformData}.
Arguments Config {PlatformData}.

(** Sanitize checks the consistency of the struct, returns error if
    unsolvable inconsistencies are found. *)
Definition Sanitize {PlatformData : Type}
    (NewPlatformFromArch : string -> option PlatformData * error) (GOARCH : string)
    (GetSquashfsNoCompressionOptions : list string) (b : t PlatformData)
  : t PlatformData * error :=
  (* Always include default cloud-init paths *)
  let c := Config.setCloudInitPaths PlatformData
             (constants.GetCloudInitPaths ++ Config.CloudInitPaths PlatformData (Config b))
             (Config b) in
  let '(c, err) := Config.Sanitize PlatformData NewPlatformFromArch GOARCH
                     GetSquashfsNoCompressionOptions c in
  (mk (Date b) (Name b) (OutDir b) (Snapshotter b) c, err).
End BuildConfig.

(** ** Package types: the action specs and their Sanitize methods *)

(** [p == nil || p.MountPoint == ""], the test every spec runs on its
    mandatory partitions. *)
Definition nilOrNoMountPoint (h : heap) (p : option ptr) : outcome bool :=
  match p with
  | None => Ok true
  | Some a => v ← load h (Some a); Ok (Partition.MountPoint v =? "")
  end.

Module InstallSpec.
(** InstallSpec struct represents all the installation action details. *)
Record t : Type := mk {
  Target : string;
  Firmware : string;
  PartTable : string;
  Partitions : ElementalPartitions.t;
  ExtraPartitions : PartitionList;
  NoFormat : bool;
  Force : bool;
  CloudInit : list string;
  Iso : string;
  GrubDefEntry : string;
  System : ImageSource;
  RecoverySystem : Image.t;
  DisableBootEntry : bool;
  SnapshotLabels : gmap string string
}.

Definition setPartitions (v : ElementalPartitions.t) (i : t) : t :=
  mk (Target i) (Firmware i) (PartTable i) v (ExtraPartitions i) (NoFormat i)
     (Force i) (CloudInit i) (Iso i) (GrubDefEntry i) (System i)
     (RecoverySystem i) (DisableBootEntry i) (SnapshotLabels i).
Definition setRecoverySystem (v : Image.t) (i : t) : t :=
  mk (Target i) (Firmware i) (PartTable i) (Partitions i) (ExtraPartitions i)
     (NoFormat i) (Force i) (CloudInit i) (Iso i) (GrubDefEntry i) (System i)
     v (DisableBootEntry i) (SnapshotLabels i).

(** The loop counting the extra partitions that have their size set to 0. *)
Fixpoint countZeroSize (h : heap) (extraPartitions : PartitionList)
    (extraPartsSizeCheck : Z) : outcome Z :=
  match extraPartitions with
  | [] => Ok extraPartsSizeCheck
  | p :: rest =>
      v ← load h p;
      if (Partition.Size v =? 0)%N
      then countZeroSize h rest (extraPartsSizeCheck + 1)%Z
      else countZeroSize h rest extraPartsSizeCheck
  end.

(** Sanitize checks the consistency of the struct, returns error if
    unsolvable inconsistencies are found. *)
Definition Sanitize (i : t) (h : heap) : outcome (t * heap * error) :=
  if IsEmpty (System i) && (Iso i =? "") then
    Ok (i, h, Some "undefined system source to install")
  else
    noState ← nilOrNoMountPoint h (ElementalPartitions.State (Partitions i));
    if noState : bool then Ok (i, h, Some "undefined state partition")
    else
      let i :=
        if IsEmpty (Image.Source (RecoverySystem i))
        then setRecoverySystem (Image.setSource (System i) (RecoverySystem i)) i
        else i in
      let i := setRecoverySystem (defaultRecoveryLabel (RecoverySystem i)) i in
      extraPartsSizeCheck ← countZeroSize h (ExtraPartitions i) 0;
      if (1 <? extraPartsSizeCheck)%Z then
        Ok (i, h, Some "more than one extra partition has its size set to 0. Only one partition can have its size set to 0 which means that it will take all the available disk space in the device")
      else
        both ←
          (if (extraPartsSizeCheck =? 1)%Z then
             v ← load h (ElementalPartitions.Persistent (Partitions i));
             Ok (Partition.Size v =? 0)%N
           else Ok false);
        if both : bool then
          Ok (i, h, Some "both persistent partition and extra partitions have size set to 0. Only one partition can have its size set to 0 which means that it will take all the available disk space in the device")
        else
          '(ep, h1, err) ← types.SetFirmwarePartitions (Firmware i) (PartTable i)
                              (Partitions i) h;
          Ok (setPartitions ep i, h1, err).
End InstallSpec.

Module UpgradeSpec.
Record t : Type := mk {
  RecoveryUpgrade : bool;
  System : ImageSource;
  RecoverySystem : Image.t;
  GrubDefEntry : string;
  BootloaderUpgrade : bool;
  SnapshotLabels : gmap string string;
  Partitions : ElementalPartitions.t;
  State : option InstallState.t
}.

Definition setRecoverySystem (v : Image.t) (u : t) : t :=
  mk (RecoveryUpgrade u) (System u) v (GrubDefEntry u) (BootloaderUpgrade u)
     (SnapshotLabels u) (Partitions u) (State u).

(** Sanitize checks the consistency of the struct, returns error if
    unsolvable inconsistencies are found. *)
Definition Sanitize (u : t) (h : heap) : outcome (t * error) :=
  noState ← nilOrNoMountPoint h (ElementalPartitions.State (Partitions u));
  if noState : bool then Ok (u, Some "undefined state partition")
  else if IsEmpty (System u) then Ok (u, Some "undefined upgrade source")
  else
    noRecovery ←
      (if RecoveryUpgrade u
       then nilOrNoMountPoint h (ElementalPartitions.Recovery (Partitions u))
       else Ok false);
    if noRecovery : bool then Ok (u, Some "undefined recovery partition")
    else
      let u :=
        if RecoveryUpgrade u && IsEmpty (Image.Source (RecoverySystem u))
        then setRecoverySystem (Image.setSource (System u) (RecoverySystem u)) u
        else u in
      noBoot ←
        (if BootloaderUpgrade u
         then nilOrNoMountPoint h (ElementalPartitions.Boot (Partitions u))
         else Ok false);
      if noBoot : bool then Ok (u, Some "undefined Bootloader partition")
      else Ok (setRecoverySystem (defaultRecoveryLabel (RecoverySystem u)) u, None).

(** SanitizeForRecoveryOnly sanitizes UpgradeSpec when upgrading recovery
    only. *)
Definition SanitizeForRecoveryOnly (u : t) (h : heap) : outcome (t * error) :=
  noState ← nilOrNoMountPoint h (ElementalPartitions.State (Partitions u));
  if noState : bool then Ok (u, Some "undefined state partition")
  else
    noRecovery ← nilOrNoMountPoint h (ElementalPartitions.Recovery (Partitions u));
    if noRecovery : bool then Ok (u, Some "undefined recovery partition")
    else if IsEmpty (Image.Source (RecoverySystem u))
    then Ok (u, Some "undefined upgrade-recovery source")
    else Ok (setRecoverySystem (defaultRecoveryLabel (RecoverySystem u)) u, None).
End UpgradeSpec.

Module DiskSpec.
Record t : Type := mk {
  Size : N;
  Partitions : ElementalPartitions.t;
  Expandable : bool;
  System : ImageSource;
  RecoverySystem : Image.t;
  GrubConf : string;
  CloudInit : list string;
  GrubDefEntry : string;
  Type_ : string;
  DeployCmd : list string
}.

Definition setRecoverySystem (v : Image.t) (d : t) : t :=
  mk (Size d) (Partitions d) (Expandable d) (System d) v (GrubConf d)
     (CloudInit d) (GrubDefEntry d) (Type_ d) (DeployCmd d).

Section MinPartSize.
(** [constants.MinPartSize] is declared in a part of package constants
    that is not among the sources and the spec gives it no value: it is
    a parameter of the two methods that use it. *)
Variable MinPartSize : N.

(** The loop of MinDiskSize over the partitions in install order. *)
Fixpoint minDiskSizeLoop (h : heap) (parts : list ptr) (minDiskSize : N)
  : outcome N :=
  match parts with
  | [] => Ok minDiskSize
  | a :: rest =>
      part ← load h (Some a);
      if (Partition.Size part =? 0)%N
      then minDiskSizeLoop h rest (uint_add minDiskSize MinPartSize)
      else minDiskSizeLoop h rest (uint_add minDiskSize (Partition.Size part))
  end.

(** MinDiskSize counts the minimum size (MB) required for the disk given
    the partitions setup. *)
Definition MinDiskSize (d : t) (h : heap) : outcome N :=
  parts ← types.PartitionsByInstallOrder (Partitions d) h [] [];
  minDiskSizeLoop h parts 2%N.

(** Sanitize checks the consistency of the struct, returns error if
    unsolvable inconsistencies are found. *)
Definition Sanitize (d : t) (h : heap) : outcome (t * error) :=
  if IsEmpty (System d) then Ok (d, Some "undefined image source")
  else
    let d :=
      if IsEmpty (Image.Source (RecoverySystem d))
      then setRecoverySystem (Image.setSource (System d) (RecoverySystem d)) d
      else d in
    let d :=
      if Image.FS (RecoverySystem d) =? constants.SquashFs
      then setRecoverySystem (Image.setLabel "" (RecoverySystem d)) d
      else if Image.Label (RecoverySystem d) =? ""
           then setRecoverySystem (Image.setLabel constants.SystemLabel (RecoverySystem d)) d
           else d in
    minSize ← MinDiskSize d h;
    if negb (Size d =? 0)%N && negb (Expandable d) && (Size d <=? minSize)%N then
      Ok (d, Some ("Requested disk size (" ++ Itoa (Z.of_N (Size d))
                   ++ "MB) is not enough, it should be, at least, of "
                   ++ Itoa (Z.of_N minSize))%string)
    else Ok (d, None).
End MinPartSize.
End DiskSpec.

Module VolumeMount.
Record t : Type := mk {
  Mountpoint : string;
  Device : string;
  Options : list string;
  FSType : string
}.
End VolumeMount.

Module PersistentMounts.
(** PersistentMounts struct contains settings for which paths to mount
    as persistent. *)
Record t : Type := mk {
  Mode : string;
  Paths : list string;
  Volume : VolumeMount.t
}.

Definition setPaths (v : list string) (p : t) : t := mk (Mode p) v (Volume p).
End PersistentMounts.

Module EphemeralMounts.
(** EphemeralMounts contains information about the RW overlay mounted
    over the immutable system. *)
Record t : Type := mk {
  Type_ : string;
  Device : string;
  Size : string;
  Paths : list string
}.

Definition setPaths (v : list string) (e : t) : t :=
  mk (Type_ e) (Device e) (Size e) v.
End EphemeralMounts.

Module MountSpec.
(** MountSpec struct represents all the mount action details. *)
Record t : Type := mk {
  WriteFstab : bool;
  Disable : bool;
  Sysroot : string;
  Mode : string;
  SelinuxRelabel : bool;
  Volumes : list VolumeMount.t;
  Ephemeral : EphemeralMounts.t;
  Persistent : PersistentMounts.t
}.

Definition setEphemeral (v : EphemeralMounts.t) (s : t) : t :=
  mk (WriteFstab s) (Disable s) (Sysroot s) (Mode s) (SelinuxRelabel s)
     (Volumes s) v (Persistent s).
Definition setPersistent (v : PersistentMounts.t) (s : t) : t :=
  mk (WriteFstab s) (Disable s) (Sysroot s) (Mode s) (SelinuxRelabel s)
     (Volumes s) (Ephemeral s) v.

(** [os.PathSeparator] on Linux. *)
Definition separator : ascii := "/"%char.

(** The comparison handed to [sort.Slice]: fewer separators first. *)
Definition depth (p : string) : nat := Count p separator.
Definition lessDepth (a b : string) : bool := (depth a <? depth b)%nat.

Section Sort.
(** [sort.Slice] of the Go standard library, which sorts a slice by a
    [less] function and is not stable: which of the orders it allows
    comes out is left to the library. *)
Variable sort_Slice : (string -> string -> bool) -> list string -> list string.

(** The block run on a path list that is not nil: remove empty paths,
    then sort by depth.  A nil slice and an empty one are both [[]];
    the block is skipped on nil and yields an empty slice on an empty
    one. *)
Definition sanitizePaths (paths : list string) : list string :=
  match paths with
  | [] => []
  | _ => sort_Slice lessDepth (DeleteFunc paths (fun s => s =? ""))
  end.

(** Sanitize checks the consistency of the struct, returns error if
    unsolvable inconsistencies are found. *)
Definition Sanitize (spec : t) : t * error :=
  if negb ((PersistentMounts.Mode (Persistent spec) =? constants.BindMode)
           || (PersistentMounts.Mode (Persistent spec) =? constants.OverlayMode))
  then (spec, Some ("unknown persistent mode: '"
                    ++ PersistentMounts.Mode (Persistent spec) ++ "'")%string)
  else
    let spec :=
      setPersistent
        (PersistentMounts.setPaths
           (sanitizePaths (PersistentMounts.Paths (Persistent spec)))
           (Persistent spec)) spec in
    if negb ((EphemeralMounts.Type_ (Ephemeral spec) =? constants.Tmpfs)
             || (EphemeralMounts.Type_ (Ephemeral spec) =? constants.Block))
    then (spec, Some ("unknown overlay type: '"
                      ++ EphemeralMounts.Type_ (Ephemeral spec) ++ "'")%string)
    else
      let spec :=
        setEphemeral
          (EphemeralMounts.setPaths
             (sanitizePaths (EphemeralMounts.Paths (Ephemeral spec)))
             (Ephemeral spec)) spec in
      (spec, None).
End Sort.

(** A sort that meets the contract of [sort.Slice]: insertion sort, which
    is also what [sort.Slice] runs on a slice of fewer than twelve
    elements.  It leaves elements that compare equal in the order they
    came in. *)
Fixpoint insertBy (less : string -> string -> bool) (x : string)
    (l : list string) : list string :=
  match l with
  | [] => [x]
  | y :: rest => if less y x then y :: insertBy less x rest else x :: y :: rest
  end.

Definition insertionSort (less : string -> string -> bool) (l : list string)
  : list string :=
  fold_right (insertBy less) [] l.
End MountSpec.

(** ** Package types: partitions by mount point and from a list *)

(** [sort.Strings] and [sort.Sort(sort.Reverse(sort.StringSlice(x)))]:
    the order of the bytes, increasing and decreasing.  Two strings that
    compare equal are the same string, so the sorted slice does not depend
    on the algorithm; insertion is the one run here. *)
Definition sort_Strings (x : list string) : list string :=
  MountSpec.insertionSort String.ltb x.
Definition sort_Reverse_Strings (x : list string) : list string :=
  MountSpec.insertionSort (fun a b => String.ltb b a) x.

(** The first loop of PartitionsByMountPoint, threading the map
    [mountPointKeys] and the slice [mountPoints]. *)
Fixpoint mountPointsLoop (h : heap) (parts : list ptr)
    (mountPointKeys : gmap string ptr) (mountPoints : list string)
  : outcome (gmap string ptr * list string) :=
  match parts with
  | [] => Ok (mountPointKeys, mountPoints)
  | a :: rest =>
      p ← load h (Some a);
      if negb (Partition.MountPoint p =? "") then
        mountPointsLoop h rest (<[Partition.MountPoint p := a]> mountPointKeys)
          (mountPoints ++ [Partition.MountPoint p])
      else mountPointsLoop h rest mountPointKeys mountPoints
  end.

(** PartitionsByMountPoint sorts partitions according to its mountpoint,
    ignores nil partitions or partitions with an empty mountpoint.  An
    element of the result is what the map holds for a mount point, nil
    for a key that is absent. *)
Definition PartitionsByMountPoint (ep : ElementalPartitions.t) (h : heap)
    (descending : bool) (excludes : PartitionList) : outcome PartitionList :=
  parts ← types.PartitionsByInstallOrder ep h [] excludes;
  '(mountPointKeys, mountPoints) ← mountPointsLoop h parts ∅ [];
  let mountPoints :=
    if descending then sort_Reverse_Strings mountPoints
    else sort_Strings mountPoints in
  Ok (map (fun mnt => mountPointKeys !! mnt) mountPoints).

(** The map [lm] of NewElementalPartitionsFromList: the default label of
    each partition name, replaced by the label the install state records
    for the name, if it records the partition.  The loop over the keys
    rewrites each entry from its own key alone, in any order. *)
Definition labelsByName (state : option InstallState.t) : gmap string string :=
  let lm : gmap string string :=
    <[constants.BootPartName := constants.BootLabel]>
      (<[constants.OEMPartName := constants.OEMLabel]>
         (<[constants.RecoveryPartName := constants.RecoveryLabel]>
            (<[constants.StatePartName := constants.StateLabel]>
               (<[constants.PersistentPartName := constants.PersistentLabel]> ∅)))) in
  match state with
  | Some state =>
      map_imap (fun k label =>
                  match InstallState.Partitions state !! k with
                  | Some p => Some (PartitionState.FSLabel p)
                  | None => Some label
                  end) lm
  | None => lm
  end.

(** NewElementalPartitionsFromList fills an ElementalPartitions instance
    from given partitions list.  First tries to match partitions by
    partition label, if not, it tries to match partitions by filesystem
    label. *)
Definition NewElementalPartitionsFromList (h : heap) (pl : PartitionList)
    (state : option InstallState.t) : outcome ElementalPartitions.t :=
  let lm := labelsByName state in
  let label k := default "" (lm !! k) in
  bios ← PartitionList.GetByName h pl constants.BiosPartName;
  boot ← PartitionList.GetByNameOrLabel h pl constants.BootPartName
            (label constants.BootPartName);
  oem ← PartitionList.GetByNameOrLabel h pl constants.OEMPartName
           (label constants.OEMPartName);
  recovery ← PartitionList.GetByNameOrLabel h pl constants.RecoveryPartName
                (label constants.RecoveryPartName);
  st ← PartitionList.GetByNameOrLabel h pl constants.StatePartName
          (label constants.StatePartName);
  persistent ← PartitionList.GetByNameOrLabel h pl constants.PersistentPartName
                  (label constants.PersistentPartName);
  Ok (ElementalPartitions.mk bios boot oem recovery st persistent).

(** ** Package snapshotter: the btrfs snapshotter and its collaborators *)

Module snapshotter.
Definition rootSubvol := "@".
Definition snapshotsPath := ".snapshots".
Definition snapshotWorkDir := "snapshot.workDir".

(** [fmt.Sprintf(snapshotPathTmpl, id)], the template being
    [.snapshots/%d/snapshot]. *)
Definition snapshotPath (id : Z) : string :=
  (".snapshots/" ++ Itoa id ++ "/snapshot")%string.

(** Modelled from the spec: types.Snapshot is declared in a file of
    package types that is not among the sources.  The data model gives a
    snapshot an id, a path, a work directory, the in-progress flag and
    labels; the snapshotter also uses its mount point. *)
Module Snapshot.
Record t : Type := mk {
  ID : Z;
  MountPoint : string;
  Path : string;
  WorkDir : string;
  Labels : gmap string string;
  InProgress : bool
}.

Definition start (mnt : string) (s : t) : t :=
  mk (ID s) mnt (Path s) (WorkDir s) (Labels s) true.
End Snapshot.

(** The operations the snapshotter asks of its collaborators: the
    subvolume backend, the mounter, the file system, the runner behind
    [utils.MirrorData] and [elemental.ApplySELinuxLabels], and the
    bootloader. *)
Inductive Op : Type :=
| OpCreateNewSnapshot | OpCommitSnapshot | OpListSnapshots | OpDeleteSnapshot
| OpSnapshotsCleanup | OpMount | OpUnmount | OpMkdirAll | OpRemoveAll
| OpMirrorData | OpApplySELinuxLabels | OpSetPersistentVariables.

#[global] Instance Op_eq_dec : EqDecision Op.
Proof. solve_decision. Defined.

(** A call made to a collaborator, with the arguments that identify it. *)
Record Call : Type := mkCall { op : Op; args : list string }.

(** Modelled from the spec: the implementations of the subvolumeBackend
    interface, of the mounter and of the bootloader are in files that are
    not among the sources.  The world below is what the spec says they
    keep: the ids of the snapshots on the state partition, the id of the
    default (active) one, 0 when there is none, the highest id handed out
    so far (ids are strictly increasing and never reused), the retention
    bound MaxSnaps, the mount points in use and the GRUB environment
    files.  [failing] lists the operations that return an error, without
    effect, when called; [log] records every call, oldest first. *)
Record World : Type := mkWorld {
  snapshots : list Z;
  defaultSnapshot : Z;
  lastID : Z;
  maxSnaps : nat;
  mounts : list string;
  envFiles : gmap string (gmap string string);
  failing : list Op;
  log : list Call
}.

Definition setStore (ids : list Z) (active last : Z) (w : World) : World :=
  mkWorld ids active last (maxSnaps w) (mounts w) (envFiles w) (failing w) (log w).
Definition setMounts (m : list string) (w : World) : World :=
  mkWorld (snapshots w) (defaultSnapshot w) (lastID w) (maxSnaps w) m
    (envFiles w) (failing w) (log w).
Definition setEnvFiles (e : gmap string (gmap string string)) (w : World) : World :=
  mkWorld (snapshots w) (defaultSnapshot w) (lastID w) (maxSnaps w) (mounts w)
    e (failing w) (log w).
Definition addLog (c : Call) (w : World) : World :=
  mkWorld (snapshots w) (defaultSnapshot w) (lastID w) (maxSnaps w) (mounts w)
    (envFiles w) (failing w) (log w ++ [c]).

(** The closures [snapshotsMount] and [snapshotsUmount] of the Btrfs
    struct, as data: the one that returns nil, or the one that
    mountSnapshotsSubvolumeInSnapshot installs, with what it captures. *)
Inductive hook : Type :=
| NoHook
| SnapshotsSubvolume (root device : string) (snapshotID : Z).

Module Btrfs.
(** The fields of the Btrfs struct that are not collaborators. *)
Record t : Type := mk {
  snapshotterCfg : SnapshotterConfig.t;
  rootDir : string;
  efiDir : string;
  activeSnapshotID : Z;
  snapshotsUmount : hook;
  snapshotsMount : hook
}.

Definition setActiveSnapshotID (v : Z) (b : t) : t :=
  mk (snapshotterCfg b) (rootDir b) (efiDir b) v (snapshotsUmount b) (snapshotsMount b).
Definition setSnapshotsMount (v : hook) (b : t) : t :=
  mk (snapshotterCfg b) (rootDir b) (efiDir b) (activeSnapshotID b)
     (snapshotsUmount b) v.
Definition setSnapshotsUmount (v : hook) (b : t) : t :=
  mk (snapshotterCfg b) (rootDir b) (efiDir b) (activeSnapshotID b)
     v (snapshotsMount b).
End Btrfs.

(** A method of [*Btrfs] runs on the struct and the world, and leaves
    both changed next to what it returns. *)
Abbreviation Sys := (Btrfs.t * World)%type.
Definition M (A : Type) : Type := Sys -> A * Sys.

#[global] Instance M_ret : MRet M := fun A a s => (a, s).
#[global] Instance M_bind : MBind M :=
  fun A B k m s => let '(a, s1) := m s in k a s1.

Definition getBtrfs : M Btrfs.t := fun s => (fst s, s).
Definition getWorld : M World := fun s => (snd s, s).
Definition modifyBtrfs (f : Btrfs.t -> Btrfs.t) : M unit :=
  fun s => (tt, (f (fst s), snd s)).

(** A call to a collaborator: it is logged, then fails if the world says
    so, and otherwise has its effect. *)
Definition call (o : Op) (a : list string) (effect : World -> World) : M error :=
  fun s =>
    let w := addLog (mkCall o a) (snd s) in
    if bool_decide (o ∈ failing w)
    then (Some "collaborator failed", (fst s, w))
    else (None, (fst s, effect w)).

(** *** The subvolume backend *)

Definition backend_CreateNewSnapshot (rootDir : string) (baseID : Z)
  : M (option Snapshot.t * error) :=
  w ← getWorld;
  let id := (lastID w + 1)%Z in
  err ← call OpCreateNewSnapshot [rootDir; Itoa baseID]
          (fun w => setStore (snapshots w ++ [id]) (defaultSnapshot w) id w);
  match err with
  | Some e => mret (None, Some e)
  | None =>
      mret (Some (Snapshot.mk id ""
                    (filepath_Join rootDir (snapshotPath id))
                    (filepath_Join rootDir
                       (".snapshots/" ++ Itoa id ++ "/" ++ snapshotWorkDir)%string)
                    ∅ false), None)
  end.

Definition backend_CommitSnapshot (rootDir : string) (snapshot : Snapshot.t) : M error :=
  call OpCommitSnapshot [rootDir; Itoa (Snapshot.ID snapshot)]
    (fun w => setStore (snapshots w) (Snapshot.ID snapshot) (lastID w) w).

(** [snapshotsList], as a pair of the ids and the active id. *)
Definition backend_ListSnapshots (rootDir : string) : M ((list Z * Z) * error) :=
  err ← call OpListSnapshots [rootDir] (fun w => w);
  match err with
  | Some e => mret (([], 0%Z), Some e)
  | None => w ← getWorld; mret ((snapshots w, defaultSnapshot w), None)
  end.

Definition backend_DeleteSnapshot (rootDir : string) (id : Z) : M error :=
  call OpDeleteSnapshot [rootDir; Itoa id]
    (fun w => setStore (List.filter (fun x => negb (x =? id)%Z) (snapshots w))
                (defaultSnapshot w) (lastID w) w).

(** Retention: the oldest snapshots other than the active one go first,
    until no more than MaxSnaps are left. *)
Fixpoint prune (excess : nat) (active : Z) (ids : list Z) : list Z :=
  match excess, ids with
  | S n, x :: rest =>
      if (x =? active)%Z then x :: prune excess active rest
      else prune n active rest
  | _, _ => ids
  end.

Definition backend_SnapshotsCleanup (rootDir : string) : M error :=
  call OpSnapshotsCleanup [rootDir]
    (fun w => setStore
                (prune (length (snapshots w) - maxSnaps w) (defaultSnapshot w)
                   (snapshots w))
                (defaultSnapshot w) (lastID w) w).

(** *** Mounter, file system, runner and bootloader *)

Definition Mounter_Mount (source target fstype : string) (options : list string)
  : M error :=
  call OpMount [source; target; fstype] (fun w => setMounts (mounts w ++ [target]) w).

Definition Mounter_Unmount (target : string) : M error :=
  call OpUnmount [target]
    (fun w => setMounts (List.filter (fun m => negb (m =? target)) (mounts w)) w).

Definition Mounter_IsLikelyNotMountPoint (file : string) : M bool :=
  w ← getWorld; mret (negb (existsb (fun m => m =? file) (mounts w))).

Definition utils_MkdirAll (path : string) : M error :=
  call OpMkdirAll [path] (fun w => w).

Definition Fs_RemoveAll (path : string) : M error :=
  call OpRemoveAll [path] (fun w => w).

Definition utils_MirrorData (source target : string) : M error :=
  call OpMirrorData [source; target] (fun w => w).

Definition elemental_ApplySELinuxLabels (root : string) : M error :=
  call OpApplySELinuxLabels [root] (fun w => w).

(** The variables given are set in the file; the others it holds stay. *)
Definition bootloader_SetPersistentVariables (envFile : string)
    (envs : gmap string string) : M error :=
  call OpSetPersistentVariables [envFile]
    (fun w => setEnvFiles
                (<[envFile := envs ∪ default ∅ (envFiles w !! envFile)]> (envFiles w)) w).

(** *** The methods of Btrfs *)

(** [if err != nil { return err }] between two steps. *)
Definition check (m : M error) (k : M error) : M error :=
  err ← m;
  match err with
  | Some e => mret (Some e)
  | None => k
  end.

(** Running the closure [snapshotsMount]. *)
Definition runSnapshotsMount (h : hook) : M error :=
  match h with
  | NoHook => mret None
  | SnapshotsSubvolume root device snapshotID =>
      let mountpoint :=
        filepath_Join (filepath_Join root (snapshotPath snapshotID)) snapshotsPath in
      let subvol := ("subvol=" ++ filepath_Join rootSubvol snapshotsPath)%string in
      Mounter_Mount device mountpoint "btrfs" ["rw"; subvol]
  end.

(** Running the closure [snapshotsUmount]; [mountpoint] is the variable
    it shares with [snapshotsMount]. *)
Definition runSnapshotsUmount (h : hook) : M error :=
  match h with
  | NoHook => mret None
  | SnapshotsSubvolume root device snapshotID =>
      let mountpoint :=
        filepath_Join (filepath_Join root (snapshotPath snapshotID)) snapshotsPath in
      Mounter_Unmount mountpoint
  end.

(** The part of GetSnapshots after the snapshots subvolume is mounted. *)
Definition listSnapshots : M (list Z * error) :=
  b ← getBtrfs;
  '(snapList, err) ← backend_ListSnapshots (Btrfs.rootDir b);
  match err with
  | Some e => mret ([], Some e)
  | None =>
      _ ← modifyBtrfs (Btrfs.setActiveSnapshotID (snd snapList));
      mret (fst snapList, None)
  end.

Definition GetSnapshots : M (list Z * error) :=
  b ← getBtrfs;
  if Btrfs.rootDir b =? "" then
    mret ([], Some "snapshotter not initiated yet, run 'InitSnapshotter' before calling this method")
  else if (0 <? Btrfs.activeSnapshotID b)%Z then
    let snapshotsSubolume :=
      filepath_Join
        (filepath_Join (Btrfs.rootDir b) (snapshotPath (Btrfs.activeSnapshotID b)))
        snapshotsPath in
    notMnt ← Mounter_IsLikelyNotMountPoint snapshotsSubolume;
    if notMnt : bool then
      err ← runSnapshotsMount (Btrfs.snapshotsMount b);
      match err with
      | Some e => mret ([], Some e)
      | None =>
          '(snapshots, err) ← listSnapshots;
          (* the deferred function *)
          b ← getBtrfs;
          nErr ← runSnapshotsUmount (Btrfs.snapshotsUmount b);
          match err, nErr with
          | None, Some e => mret ([], Some e)
          | _, _ => mret (snapshots, err)
          end
      end
    else listSnapshots
  else mret ([], None).

Definition DeleteSnapshot (id : Z) : M error :=
  '(snapshots, err) ← GetSnapshots;
  match err with
  | Some e => mret (Some e)
  | None =>
      if negb (existsb (fun x => (x =? id)%Z) snapshots) then mret None
      else b ← getBtrfs; backend_DeleteSnapshot (Btrfs.rootDir b) id
  end.

Section WorkingImgDir.
(** [constants.WorkingImgDir] is declared in a part of package constants
    that is not among the sources and the spec gives it no value: it is
    a parameter. *)
Variable WorkingImgDir : string.

Definition StartTransaction : M (option Snapshot.t * error) :=
  let newID := 0%Z in
  b ← getBtrfs;
  if Btrfs.rootDir b =? "" then mret (None, Some "uninitialized snapshotter")
  else
    '(snapshot, err) ← backend_CreateNewSnapshot (Btrfs.rootDir b)
                         (Btrfs.activeSnapshotID b);
    match snapshot, err with
    | Some snapshot, None =>
        err ← utils_MkdirAll WorkingImgDir;
        match err with
        | Some e => mret (None, Some e)
        | None =>
            err ← Mounter_Mount (Snapshot.WorkDir snapshot) WorkingImgDir "bind" ["bind"];
            match err with
            | Some e => _ ← DeleteSnapshot newID; mret (None, Some e)
            | None => mret (Some (Snapshot.start WorkingImgDir snapshot), None)
            end
        end
    | _, _ => mret (None, err)
    end.
End WorkingImgDir.

Definition CloseTransactionOnError (snapshot : Snapshot.t) : M error :=
  _ ← (if Snapshot.InProgress snapshot
       then Mounter_Unmount (Snapshot.MountPoint snapshot)
       else mret None);
  err ← DeleteSnapshot (Snapshot.ID snapshot);
  (* the deferred function *)
  b ← getBtrfs;
  newErr ← runSnapshotsUmount (Btrfs.snapshotsUmount b);
  mret (match err with
        | None => newErr
        | Some _ => err
        end).

Definition getPassiveSnapshots : M (list Z * error) :=
  '(snapshots, err) ← GetSnapshots;
  match err with
  | Some e => mret ([], Some e)
  | None =>
      b ← getBtrfs;
      mret (List.filter (fun snapshot => negb (snapshot =? Btrfs.activeSnapshotID b)%Z)
              snapshots, None)
  end.

(** The two lists setBootloader builds: the passive ids from the last to
    the first, and the numbers from 0 to [len(ids)+1]. *)
Definition passivesOf (ids : list Z) : list string := map Itoa (rev ids).
Definition fallbacksOf (ids : list Z) : list string :=
  map (fun i => Itoa (Z.of_nat i)) (seq 0 (length ids + 2)).

(** setBootloader sets the bootloader variables to update new passives. *)
Definition setBootloader : M error :=
  '(ids, err) ← getPassiveSnapshots;
  match err with
  | Some e => mret (Some e)
  | None =>
      let snapsList := Join (passivesOf ids) " " in
      let fallbackList := Join (fallbacksOf ids) " " in
      b ← getBtrfs;
      let envFile := filepath_Join (Btrfs.efiDir b) constants.GrubOEMEnv in
      let envs : gmap string string :=
        <[constants.GrubFallback := fallbackList]>
          (<[constants.GrubPassiveSnapshots := snapsList]>
             (<["snapshotter" := constants.BtrfsSnapshotterType]> ∅)) in
      bootloader_SetPersistentVariables envFile envs
  end.

(** The body of CloseTransaction, up to its return. *)
Definition closeTransaction (snapshot : Snapshot.t) : M error :=
  check (utils_MkdirAll (filepath_Join (Snapshot.WorkDir snapshot) snapshotsPath))
 (check (Mounter_Unmount (Snapshot.MountPoint snapshot))
 (check (if (1 <? Snapshot.ID snapshot)%Z then
           check (utils_MirrorData (Snapshot.WorkDir snapshot) (Snapshot.Path snapshot))
                 (Fs_RemoveAll (Snapshot.WorkDir snapshot))
         else mret None)
 (check (elemental_ApplySELinuxLabels (Snapshot.Path snapshot))
 (b ← getBtrfs;
  check (backend_CommitSnapshot (Btrfs.rootDir b) snapshot)
    (_ ← setBootloader;
     _ ← backend_SnapshotsCleanup (Btrfs.rootDir b);
     mret None))))).

Definition CloseTransaction (snapshot : Snapshot.t) : M error :=
  if negb (Snapshot.InProgress snapshot) then
    mret (Some "given snapshot is not in progress")
  else
    err ← closeTransaction snapshot;
    (* the deferred function *)
    _ ← (match err with
         | Some _ => DeleteSnapshot (Snapshot.ID snapshot)
         | None => mret None
         end);
    b ← getBtrfs;
    newErr ← runSnapshotsUmount (Btrfs.snapshotsUmount b);
    mret (match err with
          | None => newErr
          | Some _ => err
          end).

Definition mountSnapshotsSubvolumeInSnapshot (root device : string) (snapshotID : Z)
  : M error :=
  _ ← modifyBtrfs (Btrfs.setSnapshotsMount (SnapshotsSubvolume root device snapshotID));
  check (runSnapshotsMount (SnapshotsSubvolume root device snapshotID))
    (_ ← modifyBtrfs (Btrfs.setSnapshotsUmount (SnapshotsSubvolume root device snapshotID));
     mret None).

Definition remountStatePartition (state : Partition.t) : M error :=
  check (Mounter_Unmount (Partition.MountPoint state))
 (check (Mounter_Mount (Partition.Path state) (Partition.MountPoint state) "btrfs"
           ["rw"; ("subvol=" ++ rootSubvol)%string])
    (b ← getBtrfs;
     if (0 <? Btrfs.activeSnapshotID b)%Z then
       mountSnapshotsSubvolumeInSnapshot (Partition.MountPoint state)
         (Partition.Path state) (Btrfs.activeSnapshotID b)
     else mret None)).
End snapshotter.

(** ** The dracut module: parse-elemental-cmdline.sh *)

Module cmdline.

(** [${s//\//\\x2f}]: every slash of [s] replaced by the four characters
    backslash, x, 2, f. *)
Fixpoint escapeSlashes (s : string) : string :=
  match s with
  | EmptyString => ""
  | String c rest =>
      ((if Ascii.eqb c "/" then "\x2f" else String c "") ++ escapeSlashes rest)%string
  end.

(** The pattern [p*] of a [case], for a literal [p]: what follows [p] in
    [s] when [s] starts with it. *)
Fixpoint afterPrefix (p s : string) : option string :=
  match p, s with
  | EmptyString, _ => Some s
  | String a p', String b s' => if Ascii.eqb a b then afterPrefix p' s' else None
  | String _ _, EmptyString => None
  end.

(** [${s#p}] for a literal [p]: [s] without its prefix [p], and [s] itself
    when it does not start with [p]. *)
Definition stripPrefix (p s : string) : string :=
  match afterPrefix p s with
  | Some rest => rest
  | None => s
  end.

(** The [case "${root}"] of the script, from the values of [root] and
    [rootok] before it to their values after it; [rootok] is whether the
    variable holds 1. *)
Definition resolveRoot (root : string) (rootok : bool) : string * bool :=
  match afterPrefix "LABEL=" root, afterPrefix "UUID=" root, afterPrefix "/dev/" root with
  | Some _, _, _ =>
      let root := escapeSlashes root in
      (("/dev/disk/by-label/" ++ stripPrefix "LABEL=" root)%string, true)
  | None, Some _, _ => (("/dev/disk/by-uuid/" ++ stripPrefix "UUID=" root)%string, true)
  | None, None, Some _ => (root, true)
  | None, None, None => (root, rootok)
  end.

End cmdline.


(** ** Vocabulary of the properties *)

(** Size of the partition stored at an address. *)
Definition sizeAt (h : heap) (a : ptr) : N :=
  match h !! a with
  | Some p => Partition.Size p
  | None => 0%N
  end.

Definition zeroSize (h : heap) (a : ptr) : bool := (sizeAt h a =? 0)%N.

(** The pointers of a list of slots that are not nil, in order. *)
Definition nonNil (l : PartitionList) : list ptr := omap id l.

(** The firmware and system slots, in install order. *)
Definition fixedSlots (ep : ElementalPartitions.t) : list ptr :=
  nonNil [ElementalPartitions.BIOS ep; ElementalPartitions.Boot ep;
          ElementalPartitions.OEM ep; ElementalPartitions.Recovery ep;
          ElementalPartitions.State ep].

(** The partitions that may be told to grow: persistent, then the extras. *)
Definition growable (ep : ElementalPartitions.t) (extraPartitions : PartitionList)
  : list ptr :=
  nonNil (ElementalPartitions.Persistent ep :: extraPartitions).

(** All six slots, in install order. *)
Definition allSlots (ep : ElementalPartitions.t) : list ptr :=
  fixedSlots ep ++ nonNil [ElementalPartitions.Persistent ep].

Definition sumN (l : list N) : N := fold_right N.add 0%N l.

(** What a partition adds to the minimum disk size in the code: its size,
    or [MinPartSize] when its size is 0. *)
Definition sizeOrMin (MinPartSize : N) (h : heap) (a : ptr) : N :=
  if zeroSize h a then MinPartSize else sizeAt h a.

(** What the specification says it adds: the larger of the two. *)
Definition sizeMaxMin (MinPartSize : N) (h : heap) (a : ptr) : N :=
  N.max (sizeAt h a) MinPartSize.

(** Every pointer of the list is set and allocated. *)
Definition allAllocated (h : heap) (l : PartitionList) : Prop :=
  Forall (fun p => exists a, p = Some a /\ a < length h) l.

(** What the state partition holds: the snapshot ids and the active one. *)
Definition snapshotStore (s : snapshotter.Sys) : list Z * Z :=
  (snapshotter.snapshots (snd s), snapshotter.defaultSnapshot (snd s)).

(** The calls made so far to the DeleteSnapshot method of the backend. *)
Definition backendDeletes (s : snapshotter.Sys) : list snapshotter.Call :=
  List.filter (fun c => bool_decide (snapshotter.op c = snapshotter.OpDeleteSnapshot))
    (snapshotter.log (snd s)).

(** No collaborator fails. *)
Definition faultFree (s : snapshotter.Sys) : Prop := snapshotter.failing (snd s) = [].

(** What no method under study changes: which collaborators fail, the
    directories of the snapshotter and its two closures. *)
Definition setup (s : snapshotter.Sys)
  : list snapshotter.Op * string * string * snapshotter.hook * snapshotter.hook :=
  (snapshotter.failing (snd s), snapshotter.Btrfs.rootDir (fst s),
   snapshotter.Btrfs.efiDir (fst s), snapshotter.Btrfs.snapshotsMount (fst s),
   snapshotter.Btrfs.snapshotsUmount (fst s)).

(** Steps that leave the store, the environment files and the setup
    alone and ask the backend for no deletion. *)
Definition keeps {A : Type} (m : snapshotter.M A) : Prop :=
  forall s, snapshotStore (snd (m s)) = snapshotStore s
            /\ backendDeletes (snd (m s)) = backendDeletes s
            /\ snapshotter.envFiles (snd (snd (m s))) = snapshotter.envFiles (snd s)
            /\ setup (snd (m s)) = setup s.

(** The passive snapshots setBootloader sees during a commit of the
    snapshot [id]: the ids other than [id], or none when the snapshotter
    started without an active snapshot. *)
Definition passivesAtCommit (id : Z) (s : snapshotter.Sys) : list Z :=
  if (0 <? snapshotter.Btrfs.activeSnapshotID (fst s))%Z
  then List.filter (fun x => negb (x =? id)%Z) (snapshotter.snapshots (snd s))
  else [].








(** The value of a variable in a GRUB environment file, if it is set. *)
Definition grubVariable (s : snapshotter.Sys) (envFile key : string) : option string :=
  match snapshotter.envFiles (snd s) !! envFile with
  | Some envs => envs !! key
  | None => None
  end.

(** A path list as MountSpec.Sanitize leaves it: no empty path, depths in
    non-decreasing order, hence a path before every path that is made of
    it, a separator and more. *)
Definition depthOrdered (paths : list string) : Prop :=
  ("" ∉ paths)
  /\ StronglySorted (fun a b => MountSpec.depth a <= MountSpec.depth b) paths
  /\ forall (i j : nat) (parent rest : string),
       paths !! i = Some parent ->
       paths !! j = Some (parent ++ "/" ++ rest)%string ->
       i < j.

(** [child] names a file below the directory [parent]: it is [parent],
    a separator and a name, the separator being the last byte of
    [parent], as in the root directory, or the byte after it. *)
Definition below (parent child : string) : Prop :=
  exists name : string,
    name <> ""
    /\ (child = (parent ++ "/" ++ name)%string
        \/ exists dir : string, parent = (dir ++ "/")%string
                                /\ child = (parent ++ name)%string).

(** Every directory of the list comes before the paths of the list that
    are below it. *)
Definition parentsFirst (paths : list string) : Prop :=
  forall (i j : nat) (parent child : string),
    paths !! i = Some parent -> paths !! j = Some child ->
    below parent child -> i < j.

(** A field of the partition stored at an address, empty when the
    address is not allocated. *)
Definition fieldAt (field : Partition.t -> string) (h : heap) (a : ptr) : string :=
  match h !! a with
  | Some p => field p
  | None => ""
  end.

Definition mountPointAt (h : heap) (a : ptr) : string := fieldAt Partition.MountPoint h a.

(** The partition has a mount point. *)
Definition mounted (h : heap) (a : ptr) : bool :=
  negb (fieldAt Partition.MountPoint h a =? "").


(** The partitions of a list whose name (or label) is the one looked
    for, in the order of the list. *)
Definition matching (field : Partition.t -> string) (h : heap) (key : string)
    (pl : PartitionList) : list ptr :=
  List.filter (fun a => fieldAt field h a =? key) (nonNil pl).

(** The first partition that has a mount point, or else the last one. *)
Definition firstMountedOrLast (h : heap) (l : list ptr) : option ptr :=
  match find (mounted h) l with
  | Some a => Some a
  | None => last l
  end.

(** The pointers that are not among the excludes. *)
Definition kept (excludes : PartitionList) (l : list ptr) : list ptr :=
  List.filter (fun a => negb (types.inExcludes a excludes)) l.

(** The six slots with the name and the label the toolkit gives each by
    default; the BIOS boot partition has no label. *)
Definition slotNames (ep : ElementalPartitions.t)
  : list (option ptr * (string * string)) :=
  [(ElementalPartitions.BIOS ep, (constants.BiosPartName, ""));
   (ElementalPartitions.Boot ep, (constants.BootPartName, constants.BootLabel));
   (ElementalPartitions.OEM ep, (constants.OEMPartName, constants.OEMLabel));
   (ElementalPartitions.Recovery ep, (constants.RecoveryPartName, constants.RecoveryLabel));
   (ElementalPartitions.State ep, (constants.StatePartName, constants.StateLabel));
   (ElementalPartitions.Persistent ep,
    (constants.PersistentPartName, constants.PersistentLabel))].

(** Every slot that is set holds an allocated partition that carries the
    default name and label of the slot. *)
Definition wellNamed (h : heap) (ep : ElementalPartitions.t) : Prop :=
  Forall (fun slot =>
            match fst slot with
            | Some a => a < length h
                        /\ fieldAt Partition.Name h a = fst (snd slot)
                        /\ fieldAt Partition.FilesystemLabel h a = snd (snd slot)
            | None => True
            end) (slotNames ep).

(** The last of the mounted partitions of a list that is mounted at a
    given mount point. *)
Definition lastMountedAt (h : heap) (parts : list ptr) (mnt : string) : option ptr :=
  last (List.filter (fun a => mountPointAt h a =? mnt) (List.filter (mounted h) parts)).

(** The order PartitionsByMountPoint is asked for. *)
Definition mountOrder (descending : bool) (m1 m2 : string) : Prop :=
  if descending then String.leb m2 m1 = true else String.leb m1 m2 = true.

(** The label of a recovery image agrees with its file system: none on
    squashfs, one on any other. *)
Definition labelConsistent (r : Image.t) : Prop :=
  if Image.FS r =? constants.SquashFs then Image.Label r = "" else Image.Label r <> "".

(** The collaborator does not fail on this operation. *)
Definition works (o : snapshotter.Op) (s : snapshotter.Sys) : Prop :=
  o ∉ snapshotter.failing (snd s).

(** A step leaves an observation of the system as it is. *)
Definition preserves {A X : Type} (f : snapshotter.Sys -> X) (m : snapshotter.M A) : Prop :=
  forall s, f (snd (m s)) = f s.

(** What a failed step must leave alone for the cleanup to work: the
    struct, the store, the environment files and the faults. *)
Definition untouched (s : snapshotter.Sys)
  : snapshotter.Btrfs.t * (list Z * Z) * gmap string (gmap string string)
    * list snapshotter.Op :=
  (fst s, snapshotStore s, snapshotter.envFiles (snd s), snapshotter.failing (snd s)).

(** Where the snapshots subvolume is mounted inside a snapshot. *)
Definition subvolumeMountPoint (root : string) (snapshotID : Z) : string :=
  filepath_Join (filepath_Join root (snapshotter.snapshotPath snapshotID))
    snapshotter.snapshotsPath.

(** Concrete inputs, used to run the code. *)
Module Examples.
Definition part (name : string) (size : N) (mnt : string) : Partition.t :=
  Partition.mk name "" size "ext4" [] mnt "" "".

Definition noImage : Image.t := Image.mk "" "" 0 "" Empty "" "".

(** OEM, state and persistent partitions, in this order in the heap. *)
Definition heap3 (oem state persistent : N) : heap :=
  [part constants.OEMPartName oem "/run/cos/oem";
   part constants.StatePartName state "/run/cos/state";
   part constants.PersistentPartName persistent "/run/cos/persistent"].

Definition layout3 : ElementalPartitions.t :=
  ElementalPartitions.mk None None (Some 0) None (Some 1) (Some 2).

Definition install (sys : ImageSource) (iso : string)
    (ep : ElementalPartitions.t) (extra : PartitionList) : InstallSpec.t :=
  InstallSpec.mk "/dev/sda" types.BIOS types.MSDOS ep extra false false []
    iso "" sys noImage false ∅.

(** An install whose OEM and persistent partitions both have size 0. *)
Definition twoZeroHeap : heap := heap3 0 1024 0.
Definition twoZeroSpec : InstallSpec.t :=
  install (OCI "registry.example/os:latest") "" layout3 [].

(** An install with a growing persistent partition and one extra
    partition of 100 MiB, allocated after the three others. *)
Definition extraHeap : heap := heap3 64 1024 0 ++ [part "p.data" 100 "/data"].
Definition extraSpec : InstallSpec.t :=
  install (OCI "registry.example/os:latest") "" layout3 [Some 3].

(** An install with no persistent partition and one extra partition of
    size 0; the state partition is at address 0, the extra one at 1. *)
Definition noPersistentHeap : heap :=
  [part constants.StatePartName 1024 "/run/cos/state"; part "p.data" 0 "/data"].
Definition noPersistentSpec : InstallSpec.t :=
  install (OCI "registry.example/os:latest") ""
    (ElementalPartitions.mk None None None None (Some 0) None) [Some 1].

(** An install from an ISO, with no system source of its own. *)
Definition isoSpec : InstallSpec.t := install Empty "cos.iso" layout3 [].
Definition emptyInstall : InstallSpec.t := install Empty "" layout3 [].
Definition emptyUpgrade : UpgradeSpec.t :=
  UpgradeSpec.mk false Empty noImage "" false ∅ layout3 None.

(** A disk with a BIOS boot partition of 1 MiB (address 3) next to OEM,
    state and persistent partitions. *)
Definition biosHeap : heap :=
  heap3 64 8192 0 ++ [Partition.mk constants.BiosPartName "" constants.BiosSize
                        "" [types.bios] "" "" ""].
Definition biosLayout : ElementalPartitions.t :=
  ElementalPartitions.mk (Some 3) None (Some 0) None (Some 1) (Some 2).
Definition disk (size : N) (expandable : bool) : DiskSpec.t :=
  DiskSpec.mk size biosLayout expandable (OCI "registry.example/os:latest")
    noImage "" [] "" "" [].

(** A system running on snapshot 1 of a btrfs state partition, after
    InitSnapshotter: the state partition is mounted at its top-level
    subvolume and the snapshots subvolume inside the active snapshot. *)
Definition stateDir := "/run/elemental/state".
Definition workingImgDir := "/run/elemental/workingtree".
Definition snapshotsOf1 : snapshotter.hook :=
  snapshotter.SnapshotsSubvolume stateDir "/dev/sda4" 1.
Definition btrfs1 : snapshotter.Btrfs.t :=
  snapshotter.Btrfs.mk (SnapshotterConfig.mk constants.BtrfsSnapshotterType 4)
    stateDir "/run/elemental/efi" 1 snapshotsOf1 snapshotsOf1.
Definition world1 (failing : list snapshotter.Op) : snapshotter.World :=
  snapshotter.mkWorld [1%Z] 1 1 4
    [stateDir; "/run/elemental/state/.snapshots/1/snapshot/.snapshots"] ∅ failing [].

(** The transaction started on that system: snapshot 2, bind-mounted at
    the working directory. *)
Definition snapshot2 : snapshotter.Snapshot.t :=
  snapshotter.Snapshot.mk 2 workingImgDir
    "/run/elemental/state/.snapshots/2/snapshot"
    "/run/elemental/state/.snapshots/2/snapshot.workDir" ∅ true.
Definition started : snapshotter.Sys :=
  snd (snapshotter.StartTransaction workingImgDir (btrfs1, world1 [])).

(** A disk laid out for EFI: the three partitions and the ESP at address 3. *)
Definition efiHeap : heap :=
  heap3 64 1024 0 ++ [Partition.mk constants.BootPartName constants.BootLabel 64
                        "vfat" [types.ESP] "/run/cos/efi" "" ""].
Definition efiLayout : ElementalPartitions.t :=
  ElementalPartitions.mk None (Some 3) (Some 0) None (Some 1) (Some 2).

(** Install states: a deployed snapshot, and a state partition that holds
    it, with its label or without it. *)
Definition deployed : SystemState.t :=
  SystemState.mk (Some (OCI "registry.example/os:latest")) "sha256:0a1b" true ""
    "" ∅ "2024-05-01T10:00:00Z" "install".
Definition installState (stateLabel : string) : InstallState.t :=
  InstallState.mk "2024-05-01T10:00:00Z"
    {[ constants.StatePartName :=
         PartitionState.mk stateLabel None {[ 1%Z := deployed ]} ]}
    NewLoopDevice.

(** A snapshotter configuration whose two keys are tagged [omitempty]
    and decoded each on its own: a key that is missing leaves the
    preset. *)
Definition fillSnapshotter (written preset : SnapshotterConfig.t) : SnapshotterConfig.t :=
  SnapshotterConfig.mk
    (if SnapshotterConfig.Type_ written =? "" then SnapshotterConfig.Type_ preset
     else SnapshotterConfig.Type_ written)
    (if (SnapshotterConfig.MaxSnaps written =? 0)%Z then SnapshotterConfig.MaxSnaps preset
     else SnapshotterConfig.MaxSnaps written).
Definition noFiles : Config.FS Config.document := Config.mkFS _ ∅ false.

Definition recoveryState (label : string) (img : option SystemState.t)
    (snapshotter : SnapshotterConfig.t) : InstallState.t :=
  InstallState.mk "2024-05-01T10:00:00Z"
    {[ constants.RecoveryPartName := PartitionState.mk label img ∅;
       constants.StatePartName :=
         PartitionState.mk constants.StateLabel None {[ 1%Z := deployed ]} ]}
    snapshotter.
Definition stateFile : string :=
  filepath_Join constants.RunningStateDir constants.InstallStateFile.

(** A mount spec whose persistent paths come unsorted, with an empty one. *)
Definition mountSpec : MountSpec.t :=
  MountSpec.mk false false "/sysroot" "active" false []
    (EphemeralMounts.mk constants.Tmpfs "" "25%" ["/var/lib/x"; "/etc"])
    (PersistentMounts.mk constants.BindMode
       ["/usr/local/bin"; ""; "/home"; "/usr/local"; "/var/log"]
       (VolumeMount.mk "/run/elemental/persistent" "/dev/sda5" [] "ext4")).

(** A mount spec whose persistent paths hold the root directory and a
    directory written with a separator at its end, each after a path
    below it. *)
Definition rootMountSpec : MountSpec.t :=
  MountSpec.mk false false "/sysroot" "active" false []
    (EphemeralMounts.mk constants.Tmpfs "" "25%" [])
    (PersistentMounts.mk constants.BindMode ["/etc/ssh"; "/etc/"; "/home"; "/"]
       (VolumeMount.mk "/run/elemental/persistent" "/dev/sda5" [] "ext4")).

(** Four partitions, three of them named [p.data]: the first without
    mount point, the second and the last with one; the third carries
    [p.data] as its label. *)
Definition dataHeap : heap :=
  [part "p.data" 10 ""; part "p.data" 20 "/data";
   Partition.mk "p.other" "p.data" 30 "ext4" [] "/other" "" "";
   part "p.data" 40 "/data2"].

(** The default layout of an EFI system: every partition with the name
    and the label of its slot; the recovery partition is not mounted and
    the persistent one is mounted below the state partition. *)
Definition defaultHeap : heap :=
  [Partition.mk constants.BootPartName constants.BootLabel 64 "vfat" [types.ESP]
     "/run/elemental/efi" "" "";
   Partition.mk constants.OEMPartName constants.OEMLabel 64 "ext4" []
     "/run/elemental/oem" "" "";
   Partition.mk constants.RecoveryPartName constants.RecoveryLabel 8192 "ext4" []
     "" "" "";
   Partition.mk constants.StatePartName constants.StateLabel 15360 "ext4" []
     "/run/elemental/state" "/dev/sda4" "";
   Partition.mk constants.PersistentPartName constants.PersistentLabel 0 "ext4" []
     "/run/elemental/state/persistent" "" ""].
Definition defaultLayout : ElementalPartitions.t :=
  ElementalPartitions.mk None (Some 0) (Some 1) (Some 2) (Some 3) (Some 4).

(** An upgrade of the system alone, and one of the recovery system. *)
Definition upgrade (recovery : bool) (sys : ImageSource) (img : Image.t) : UpgradeSpec.t :=
  UpgradeSpec.mk recovery sys img "" false ∅ defaultLayout None.
Definition squashImage : Image.t :=
  Image.mk "" "COS_SYSTEM" 0 constants.SquashFs (Directory "/run/rootfs") "" "".

(** An initiated snapshotter on a state partition that holds no snapshot
    yet, and one that was not initiated. *)
Definition btrfs0 : snapshotter.Btrfs.t :=
  snapshotter.Btrfs.mk (SnapshotterConfig.mk constants.BtrfsSnapshotterType 4)
    stateDir "/run/elemental/efi" 0 snapshotter.NoHook snapshotter.NoHook.
Definition world0 : snapshotter.World :=
  snapshotter.mkWorld [] 0 0 4 [stateDir] ∅ [] [].
Definition btrfsNew : snapshotter.Btrfs.t :=
  snapshotter.Btrfs.mk (SnapshotterConfig.mk constants.BtrfsSnapshotterType 4)
    "" "" 0 snapshotter.NoHook snapshotter.NoHook.

(** The transaction started on the system that runs on snapshot 1, with
    collaborators that fail. *)
Definition startedWith (failing : list snapshotter.Op) : snapshotter.Sys :=
  snd (snapshotter.StartTransaction workingImgDir (btrfs1, world1 failing)).
(** What a call returned, or a default when it panicked. *)
Definition returned {A : Type} (d : A) (o : outcome A) : A :=
  match o with
  | Ok a => a
  | Panic => d
  end.
End Examples.

(** * Properties *)

Import ElementalPartitions.

(** ** The Go basics on small inputs *)

Example Itoa_examples : map Itoa [0; 7; 42; -3]%Z = ["0"; "7"; "42"; "-3"].
Proof. reflexivity. Qed.

Example Join_examples :
  Join [] " " = "" /\ Join ["0"] " " = "0" /\ Join ["0"; "1"; "2"] " " = "0 1 2".
Proof. repeat split. Qed.

Example Count_examples :
  map (fun s => Count s "/"%char) [""; "/"; "/usr/local"; "usr/local/"] = [0; 1; 2; 2].
Proof. reflexivity. Qed.

Example filepath_Join_examples :
  filepath_Join "/run/elemental/efi" "grub_oem_env" = "/run/elemental/efi/grub_oem_env"
  /\ filepath_Join "" "grub_oem_env" = "grub_oem_env"
  /\ filepath_Join "/run/elemental/efi/" "grub_oem_env" = "/run/elemental/efi/grub_oem_env"
  /\ filepath_Join "/run//state/." ".snapshots" = "/run/state/.snapshots"
  /\ filepath_Join "/run/state" "" = "/run/state"
  /\ filepath_Join "" "" = ""
  /\ map filepath_Clean [""; "/"; "a/../.."; "/.."; "/a/b/../c/"; "../a"; "./a//b"]
     = ["."; "/"; ".."; "/"; "/a/c"; "../a"; "a/b"].
Proof. repeat split. Qed.

Example uint_add_wraps : uint_add (2 ^ 64 - 1) 2 = 1%N.
Proof. reflexivity. Qed.

Example fallbacksOf_examples :
  snapshotter.fallbacksOf [] = ["0"; "1"]
  /\ snapshotter.fallbacksOf [1; 2]%Z = ["0"; "1"; "2"; "3"]
  /\ snapshotter.passivesOf [1; 2]%Z = ["2"; "1"].
Proof. repeat split. Qed.

(** ** Firmware partitions *)

Lemma load_Some (h : heap) (a : ptr) (v : Partition.t) :
  h !! a = Some v -> load h (Some a) = Ok v.
Proof. intros H; unfold load; rewrite H; reflexivity. Qed.

Lemma load_Ok (h : heap) (p : option ptr) (v : Partition.t) :
  load h p = Ok v -> exists a, p = Some a /\ h !! a = Some v.
Proof.
  destruct p as [a|]; simpl; [|discriminate].
  destruct (h !! a) eqn:E; [|discriminate].
  intros [= ->]. eauto.
Qed.

Lemma valid_lookup (h : heap) (a : ptr) :
  valid h (Some a) -> exists v, h !! a = Some v.
Proof. simpl; intros H. apply lookup_lt_is_Some_2 in H. destruct H; eauto. Qed.

(** C3.  SetFirmwarePartitions maps (firmware, partTable) to exactly one of
    BIOS, Boot or none.  For (efi, gpt) it returns an error when Boot is nil
    and otherwise leaves BIOS nil and Boot set; for (bios, gpt) it leaves
    BIOS set to a partition whose flags are exactly [bios_grub] and Boot
    nil; for (bios, msdos) it returns an error when State is nil and
    otherwise leaves BIOS and Boot nil and State with the flag [boot]. *)
Theorem SetFirmwarePartitions_mapping (ep : ElementalPartitions.t) (h : heap) :
  valid h (State ep) ->
  match Boot ep with
  | Some b =>
      exists ep', types.SetFirmwarePartitions types.EFI types.GPT ep h = Ok (ep', h, None)
                  /\ BIOS ep' = None /\ Boot ep' = Some b
  | None =>
      exists msg, types.SetFirmwarePartitions types.EFI types.GPT ep h = Ok (ep, h, Some msg)
  end
  /\ (exists ep' h' a p,
        types.SetFirmwarePartitions types.BIOS types.GPT ep h = Ok (ep', h', None)
        /\ BIOS ep' = Some a /\ h' !! a = Some p
        /\ Partition.Flags p = [types.bios] /\ Boot ep' = None)
  /\ match State ep with
     | Some s =>
         exists ep' h' p,
           types.SetFirmwarePartitions types.BIOS types.MSDOS ep h = Ok (ep', h', None)
           /\ BIOS ep' = None /\ Boot ep' = None
           /\ State ep' = Some s /\ h' !! s = Some p
           /\ types.boot ∈ Partition.Flags p
     | None =>
         exists msg,
           types.SetFirmwarePartitions types.BIOS types.MSDOS ep h = Ok (ep, h, Some msg)
     end.
Proof.
  intros Hst. repeat split.
  - unfold types.SetFirmwarePartitions; simpl.
    destruct (Boot ep) as [b|] eqn:Eb; [|eauto].
    eexists. split; [reflexivity|]. simpl. auto.
  - unfold types.SetFirmwarePartitions, alloc; simpl.
    do 4 eexists. split; [reflexivity|]. simpl.
    split; [reflexivity|].
    rewrite lookup_app_r, Nat.sub_diag by lia. simpl. auto.
  - unfold types.SetFirmwarePartitions; simpl.
    destruct (State ep) as [s|] eqn:Es; [|eauto].
    destruct (valid_lookup h s Hst) as [v Hv].
    unfold store. rewrite Hv. simpl.
    do 3 eexists. split; [reflexivity|]. simpl.
    rewrite Es, list_lookup_insert_eq by (apply lookup_lt_is_Some_1; eauto).
    repeat split; auto. simpl. apply list_elem_of_here.
Qed.

Lemma SetFirmwarePartitions_mapping_witness :
  (exists ep',
      types.SetFirmwarePartitions types.EFI types.GPT Examples.efiLayout Examples.efiHeap
      = Ok (ep', Examples.efiHeap, None)
      /\ BIOS ep' = None /\ Boot ep' = Some 3)
  /\ (exists ep' h' a p,
        types.SetFirmwarePartitions types.BIOS types.GPT Examples.efiLayout Examples.efiHeap
        = Ok (ep', h', None)
        /\ BIOS ep' = Some a /\ h' !! a = Some p
        /\ Partition.Flags p = [types.bios] /\ Boot ep' = None)
  /\ (exists ep' h' p,
        types.SetFirmwarePartitions types.BIOS types.MSDOS Examples.efiLayout Examples.efiHeap
        = Ok (ep', h', None)
        /\ BIOS ep' = None /\ Boot ep' = None
        /\ State ep' = Some 1 /\ h' !! 1 = Some p
        /\ types.boot ∈ Partition.Flags p).
Proof.
  apply (SetFirmwarePartitions_mapping Examples.efiLayout Examples.efiHeap).
  vm_compute. lia.
Defined.

(** ** Install order of the partitions *)

Lemma zeroSize_load (h : heap) (a : ptr) (v : Partition.t) :
  h !! a = Some v -> (Partition.Size v =? 0)%N = zeroSize h a.
Proof. intros H. unfold zeroSize, sizeAt. rewrite H. reflexivity. Qed.

Lemma appendSlot_no_excludes (slot : option ptr) (partitions : list ptr) :
  types.appendSlot slot [] partitions = partitions ++ nonNil [slot].
Proof. destruct slot; simpl; [reflexivity | symmetry; apply app_nil_r]. Qed.

Lemma extrasLoop_spec (h : heap) (extra : PartitionList) :
  allAllocated h extra ->
  forall (partitions : list ptr) (lastPartition : option ptr),
    types.extrasLoop h extra partitions lastPartition =
    Ok (partitions ++ List.filter (fun a => negb (zeroSize h a)) (nonNil extra),
        match lastPartition with
        | Some _ => lastPartition
        | None => head (List.filter (zeroSize h) (nonNil extra))
        end).
Proof.
  induction 1 as [|p extra (a & -> & Ha) _ IH]; intros partitions lastPartition.
  - simpl. rewrite app_nil_r. destruct lastPartition; reflexivity.
  - destruct (valid_lookup h a Ha) as [v Hv].
    cbn [types.extrasLoop]. rewrite (load_Some _ _ _ Hv). cbn [mbind outcome_bind obind].
    rewrite (zeroSize_load _ _ _ Hv).
    change (nonNil (Some a :: extra)) with (a :: nonNil extra). cbn [List.filter].
    destruct (zeroSize h a); cbn [negb].
    + destruct lastPartition; rewrite IH; reflexivity.
    + rewrite IH, <- app_assoc. reflexivity.
Qed.

Lemma PartitionsByInstallOrder_spec (ep : ElementalPartitions.t) (h : heap)
    (extra : PartitionList) :
  valid h (Persistent ep) -> allAllocated h extra ->
  types.PartitionsByInstallOrder ep h extra [] =
  Ok (fixedSlots ep
      ++ List.filter (fun a => negb (zeroSize h a)) (growable ep extra)
      ++ take 1 (List.filter (zeroSize h) (growable ep extra))).
Proof.
  intros Hp Hx. unfold types.PartitionsByInstallOrder.
  rewrite !appendSlot_no_excludes. cbn [app].
  assert (Hfix : ((((nonNil [BIOS ep] ++ nonNil [Boot ep]) ++ nonNil [OEM ep])
                    ++ nonNil [Recovery ep]) ++ nonNil [State ep]) = fixedSlots ep).
  { unfold fixedSlots. destruct (BIOS ep), (Boot ep), (OEM ep), (Recovery ep), (State ep);
      reflexivity. }
  rewrite Hfix. clear Hfix. unfold growable.
  destruct (Persistent ep) as [a|] eqn:Ea.
  - destruct (valid_lookup h a Hp) as [v Hv].
    cbn [types.inExcludes existsb negb]. rewrite (load_Some _ _ _ Hv).
    cbn [mbind outcome_bind obind]. rewrite (zeroSize_load _ _ _ Hv).
    change (nonNil (Some a :: extra)) with (a :: nonNil extra). cbn [List.filter].
    destruct (zeroSize h a); cbn [negb mbind outcome_bind obind];
      rewrite (extrasLoop_spec h extra Hx); cbn [mbind outcome_bind obind].
    + rewrite <- app_assoc. reflexivity.
    + rewrite <- !app_assoc. cbn [app].
      destruct (List.filter (zeroSize h) (nonNil extra)); cbn [head take];
        rewrite ?take_0, ?app_nil_r, <- ?app_assoc; reflexivity.
  - cbn [mbind outcome_bind obind]. rewrite (extrasLoop_spec h extra Hx).
    cbn [mbind outcome_bind obind].
    change (nonNil (None :: extra)) with (nonNil extra).
    destruct (List.filter (zeroSize h) (nonNil extra)); cbn [head take];
      rewrite ?take_0, ?app_nil_r, <- ?app_assoc; reflexivity.
Qed.

Lemma countZeroSize_spec (h : heap) (extra : PartitionList) :
  allAllocated h extra ->
  forall k : Z,
    InstallSpec.countZeroSize h extra k =
    Ok (k + Z.of_nat (length (List.filter (zeroSize h) (nonNil extra))))%Z.
Proof.
  induction 1 as [|p extra (a & -> & Ha) _ IH]; intros k.
  - simpl. f_equal. lia.
  - destruct (valid_lookup h a Ha) as [v Hv].
    cbn [InstallSpec.countZeroSize]. rewrite (load_Some _ _ _ Hv).
    cbn [mbind outcome_bind obind]. rewrite (zeroSize_load _ _ _ Hv).
    change (nonNil (Some a :: extra)) with (a :: nonNil extra). cbn [List.filter].
    destruct (zeroSize h a); rewrite IH; f_equal; cbn [length]; lia.
Qed.

Lemma countZeroSize_allocated (h : heap) (extra : PartitionList) :
  forall k n : Z, InstallSpec.countZeroSize h extra k = Ok n -> allAllocated h extra.
Proof.
  induction extra as [|p extra IH]; intros k n H; [constructor|].
  cbn [InstallSpec.countZeroSize] in H.
  destruct (load h p) as [v|] eqn:El; [|discriminate].
  destruct (load_Ok _ _ _ El) as (a & -> & Hv).
  cbn [mbind outcome_bind obind] in H.
  constructor.
  - exists a. split; [reflexivity|]. apply lookup_lt_is_Some_1; eauto.
  - destruct (Partition.Size v =? 0)%N; eapply IH; eassumption.
Qed.

(** SetFirmwarePartitions keeps the system slots, every allocated
    partition and its size. *)
Lemma SetFirmwarePartitions_frame (firmware partTable : string)
    (ep ep' : ElementalPartitions.t) (h h' : heap) (err : error) :
  types.SetFirmwarePartitions firmware partTable ep h = Ok (ep', h', err) ->
  Persistent ep' = Persistent ep
  /\ length h <= length h'
  /\ forall a, a < length h -> sizeAt h' a = sizeAt h a.
Proof.
  unfold types.SetFirmwarePartitions.
  destruct ((firmware =? types.EFI) && (partTable =? types.GPT)).
  { destruct (Boot ep); intros [= <- <- <-]; auto. }
  destruct ((firmware =? types.BIOS) && (partTable =? types.GPT)).
  { unfold alloc. intros [= <- <- <-]. rewrite length_app. simpl.
    repeat split; [lia|]. intros a Ha. unfold sizeAt.
    rewrite lookup_app_l by lia. reflexivity. }
  destruct (State ep) as [s|]; [|intros [= <- <- <-]; auto].
  destruct (load h (Some s)) as [v|] eqn:El; [|discriminate].
  destruct (load_Ok _ _ _ El) as (a & [= <-] & Hv).
  cbn [mbind outcome_bind obind]. unfold store. rewrite Hv.
  cbn [mbind outcome_bind obind]. intros [= <- <- <-].
  rewrite length_insert. repeat split; [lia|].
  intros a Ha. unfold sizeAt.
  destruct (decide (a = s)) as [->|Hne].
  - rewrite list_lookup_insert_eq by lia. rewrite Hv. reflexivity.
  - rewrite list_lookup_insert_ne by auto. reflexivity.
Qed.

(** What acceptance by InstallSpec.Sanitize says about the partitions. *)
Lemma InstallSpec_Sanitize_accepted (i i' : InstallSpec.t) (h h' : heap) :
  InstallSpec.Sanitize i h = Ok (i', h', None) ->
  exists n : Z,
    InstallSpec.countZeroSize h (InstallSpec.ExtraPartitions i) 0 = Ok n
    /\ (n <= 1)%Z
    /\ (n = 1%Z ->
        exists v, load h (Persistent (InstallSpec.Partitions i)) = Ok v
                  /\ Partition.Size v <> 0%N)
    /\ types.SetFirmwarePartitions (InstallSpec.Firmware i) (InstallSpec.PartTable i)
         (InstallSpec.Partitions i) h = Ok (InstallSpec.Partitions i', h', None)
    /\ InstallSpec.ExtraPartitions i' = InstallSpec.ExtraPartitions i.
Proof.
  unfold InstallSpec.Sanitize.
  destruct (IsEmpty (InstallSpec.System i) && (InstallSpec.Iso i =? "")); [discriminate|].
  destruct (nilOrNoMountPoint h _) as [[|]|]; cbn [mbind outcome_bind obind];
    try discriminate.
  cbv zeta.
  set (i1 := if IsEmpty _ then _ else i).
  set (i2 := InstallSpec.setRecoverySystem _ i1).
  assert (Hp : InstallSpec.Partitions i2 = InstallSpec.Partitions i)
    by (subst i2 i1; destruct (IsEmpty _); reflexivity).
  assert (Hx : InstallSpec.ExtraPartitions i2 = InstallSpec.ExtraPartitions i)
    by (subst i2 i1; destruct (IsEmpty _); reflexivity).
  assert (Hf : InstallSpec.Firmware i2 = InstallSpec.Firmware i)
    by (subst i2 i1; destruct (IsEmpty _); reflexivity).
  assert (Ht : InstallSpec.PartTable i2 = InstallSpec.PartTable i)
    by (subst i2 i1; destruct (IsEmpty _); reflexivity).
  rewrite Hp, Hx, Hf, Ht. clearbody i2. clear i1.
  destruct (InstallSpec.countZeroSize h _ 0) as [n|]; [|discriminate].
  cbn [mbind outcome_bind obind].
  destruct (1 <? n)%Z eqn:Egt; [discriminate|].
  apply Z.ltb_ge in Egt.
  destruct (n =? 1)%Z eqn:E1.
  - destruct (load h _) as [v|]; [|discriminate]. cbn [mbind outcome_bind obind].
    destruct (Partition.Size v =? 0)%N eqn:Ez; [discriminate|].
    apply N.eqb_neq in Ez.
    destruct (types.SetFirmwarePartitions _ _ _ h) as [[[ep1 h1] e1]|]; [|discriminate].
    cbn [mbind outcome_bind obind]. intros [= <- <- ->].
    exists n. repeat split; eauto.
  - apply Z.eqb_neq in E1. cbn [mbind outcome_bind obind].
    destruct (types.SetFirmwarePartitions _ _ _ h) as [[[ep1 h1] e1]|]; [|discriminate].
    cbn [mbind outcome_bind obind]. intros [= <- <- ->].
    exists n. repeat split; eauto. intros; contradiction.
Qed.

Lemma filter_zeroSize_frame (h h' : heap) (l : list ptr) :
  Forall (fun a => a < length h) l ->
  (forall a, a < length h -> sizeAt h' a = sizeAt h a) ->
  List.filter (zeroSize h') l = List.filter (zeroSize h) l
  /\ List.filter (fun a => negb (zeroSize h' a)) l
     = List.filter (fun a => negb (zeroSize h a)) l.
Proof.
  intros Hl Hs. induction Hl as [|a l Ha _ [IH1 IH2]]; [split; reflexivity|].
  cbn [List.filter]. rewrite IH1, IH2.
  assert (Hz : zeroSize h' a = zeroSize h a) by (unfold zeroSize; rewrite (Hs a Ha); reflexivity).
  rewrite Hz. split; reflexivity.
Qed.

Lemma allAllocated_nonNil (h : heap) (l : PartitionList) :
  allAllocated h l -> Forall (fun a => a < length h) (nonNil l).
Proof.
  induction 1 as [|p l (a & -> & Ha) _ IH]; [constructor|].
  change (nonNil (Some a :: l)) with (a :: nonNil l). constructor; assumption.
Qed.

Lemma allAllocated_mono (h h' : heap) (l : PartitionList) :
  length h <= length h' -> allAllocated h l -> allAllocated h' l.
Proof.
  intros Hle H. eapply Forall_impl; [exact H|].
  intros p (a & -> & Ha). exists a. split; [reflexivity|lia].
Qed.

Lemma take_1_short {A : Type} (l : list A) : length l <= 1 -> take 1 l = l.
Proof. destruct l as [|x [|y l]]; simpl; intros; try reflexivity; lia. Qed.

(** C4, as amended.  For an install spec that Sanitize accepts, at most one
    of the persistent and extra partitions has size 0, and
    PartitionsByInstallOrder returns the firmware and system partitions,
    then the persistent and extra partitions of non-zero size, then the one
    of size 0 if there is one, so that it is last.  A spec in which more
    than one of the persistent and extra partitions has size 0 is rejected
    by Sanitize with an error. *)
Theorem Sanitize_one_growable_partition_last (i : InstallSpec.t) (h : heap) :
  valid h (Persistent (InstallSpec.Partitions i)) ->
  (forall (i' : InstallSpec.t) (h' : heap),
      InstallSpec.Sanitize i h = Ok (i', h', None) ->
      let g := growable (InstallSpec.Partitions i') (InstallSpec.ExtraPartitions i') in
      length (List.filter (zeroSize h') g) <= 1
      /\ types.PartitionsByInstallOrder (InstallSpec.Partitions i') h'
           (InstallSpec.ExtraPartitions i') []
         = Ok (fixedSlots (InstallSpec.Partitions i')
               ++ List.filter (fun a => negb (zeroSize h' a)) g
               ++ List.filter (zeroSize h') g))
  /\ (valid h (State (InstallSpec.Partitions i)) ->
      allAllocated h (InstallSpec.ExtraPartitions i) ->
      1 < length (List.filter (zeroSize h)
                    (growable (InstallSpec.Partitions i) (InstallSpec.ExtraPartitions i))) ->
      exists (i' : InstallSpec.t) (msg : string),
        InstallSpec.Sanitize i h = Ok (i', h, Some msg)).
Proof.
  intros Hpers. split.
  - intros i' h' Hacc.
    destruct (InstallSpec_Sanitize_accepted _ _ _ _ Hacc) as (n & Hn & Hle & H1 & Hfw & Hx).
    destruct (SetFirmwarePartitions_frame _ _ _ _ _ _ _ Hfw) as (Hp & Hlen & Hsz).
    pose proof (countZeroSize_allocated _ _ _ _ Hn) as Hall.
    rewrite (countZeroSize_spec _ _ Hall) in Hn. injection Hn as Hn.
    cbv zeta. rewrite Hx.
    assert (Hg : Forall (fun a => a < length h)
                   (growable (InstallSpec.Partitions i') (InstallSpec.ExtraPartitions i))).
    { unfold growable. rewrite Hp.
      destruct (Persistent (InstallSpec.Partitions i)) as [a|].
      - change (nonNil (Some a :: ?l)) with (a :: nonNil l).
        constructor; [exact Hpers | apply allAllocated_nonNil, Hall].
      - change (nonNil (None :: ?l)) with (nonNil l). apply allAllocated_nonNil, Hall. }
    destruct (filter_zeroSize_frame h h' _ Hg Hsz) as [Hz Hnz].
    assert (Hone : length (List.filter (zeroSize h)
                     (growable (InstallSpec.Partitions i') (InstallSpec.ExtraPartitions i))) <= 1).
    { unfold growable. rewrite Hp.
      destruct (Persistent (InstallSpec.Partitions i)) as [a|] eqn:Ea.
      - change (nonNil (Some a :: ?l)) with (a :: nonNil l). cbn [List.filter].
        destruct (zeroSize h a) eqn:Eza; cbn [length]; [|lia].
        assert (n <> 1%Z); [|lia].
        intros Hn1. destruct (H1 Hn1) as (v & Hv & Hnz0).
        apply load_Ok in Hv. destruct Hv as (a' & [= <-] & Hv).
        rewrite <- (zeroSize_load _ _ _ Hv) in Eza. apply N.eqb_eq in Eza. contradiction.
      - change (nonNil (None :: ?l)) with (nonNil l). lia. }
    split; [rewrite Hz; exact Hone|].
    rewrite PartitionsByInstallOrder_spec.
    + rewrite (take_1_short (List.filter (zeroSize h') _)) by (rewrite Hz; exact Hone).
      reflexivity.
    + rewrite Hp. destruct (Persistent (InstallSpec.Partitions i)); simpl in *; [lia|exact I].
    + eapply allAllocated_mono; eassumption.
  - intros Hst Hall Hmany. unfold InstallSpec.Sanitize.
    destruct (IsEmpty (InstallSpec.System i) && (InstallSpec.Iso i =? "")); [eauto|].
    assert (Hns : exists b, nilOrNoMountPoint h (State (InstallSpec.Partitions i)) = Ok b).
    { unfold nilOrNoMountPoint. destruct (State (InstallSpec.Partitions i)) as [s|]; [|eauto].
      destruct (valid_lookup h s Hst) as [v Hv]. rewrite (load_Some _ _ _ Hv).
      cbn [mbind outcome_bind obind]. eauto. }
    destruct Hns as [b ->]. cbn [mbind outcome_bind obind].
    destruct b; [eauto|]. cbv zeta.
    set (i1 := if IsEmpty _ then _ else i).
    set (i2 := InstallSpec.setRecoverySystem _ i1).
    assert (Hp : InstallSpec.Partitions i2 = InstallSpec.Partitions i)
      by (subst i2 i1; destruct (IsEmpty _); reflexivity).
    assert (Hx : InstallSpec.ExtraPartitions i2 = InstallSpec.ExtraPartitions i)
      by (subst i2 i1; destruct (IsEmpty _); reflexivity).
    rewrite Hp, Hx. clearbody i2. clear i1.
    rewrite (countZeroSize_spec _ _ Hall). cbn [mbind outcome_bind obind].
    set (n := length (List.filter (zeroSize h) (nonNil (InstallSpec.ExtraPartitions i)))).
    destruct (1 <? 0 + Z.of_nat n)%Z eqn:Egt; [eauto|].
    apply Z.ltb_ge in Egt.
    unfold growable in Hmany.
    destruct (Persistent (InstallSpec.Partitions i)) as [a|] eqn:Ea.
    + change (nonNil (Some a :: ?l)) with (a :: nonNil l) in Hmany.
      cbn [List.filter] in Hmany. fold n in Hmany.
      destruct (zeroSize h a) eqn:Eza; cbn [length] in Hmany; [|lia].
      assert (Hn1 : (0 + Z.of_nat n =? 1)%Z = true) by (apply Z.eqb_eq; lia).
      rewrite Hn1.
      destruct (valid_lookup h a Hpers) as [v Hv]. rewrite (load_Some _ _ _ Hv).
      cbn [mbind outcome_bind obind]. rewrite (zeroSize_load _ _ _ Hv), Eza. eauto.
    + change (nonNil (None :: ?l)) with (nonNil l) in Hmany. fold n in Hmany. lia.
Qed.

(** The amended statement at work: a growing persistent partition and an
    extra partition of 100 MiB. *)
Lemma Sanitize_one_growable_partition_last_witness :
  exists (i' : InstallSpec.t) (h' : heap),
    InstallSpec.Sanitize Examples.extraSpec Examples.extraHeap = Ok (i', h', None)
    /\ length (List.filter (zeroSize h')
                 (growable (InstallSpec.Partitions i') (InstallSpec.ExtraPartitions i'))) <= 1
    /\ types.PartitionsByInstallOrder (InstallSpec.Partitions i') h'
         (InstallSpec.ExtraPartitions i') []
       = Ok (fixedSlots (InstallSpec.Partitions i')
             ++ List.filter (fun a => negb (zeroSize h' a))
                  (growable (InstallSpec.Partitions i') (InstallSpec.ExtraPartitions i'))
             ++ List.filter (zeroSize h')
                  (growable (InstallSpec.Partitions i') (InstallSpec.ExtraPartitions i'))).
Proof.
  eexists _, _. split; [vm_compute; reflexivity|].
  apply (Sanitize_one_growable_partition_last Examples.extraSpec Examples.extraHeap).
  - vm_compute. lia.
  - vm_compute. reflexivity.
Defined.

(** C4 as stated fails: Sanitize accepts an install whose OEM and
    persistent partitions both have size 0, and PartitionsByInstallOrder
    then returns two partitions of size 0, the first of which is not
    last. *)
Lemma Sanitize_accepts_two_zero_sizes :
  exists (i' : InstallSpec.t) (h' : heap),
    InstallSpec.Sanitize Examples.twoZeroSpec Examples.twoZeroHeap = Ok (i', h', None)
    /\ types.PartitionsByInstallOrder (InstallSpec.Partitions i') h'
         (InstallSpec.ExtraPartitions i') [] = Ok [0; 1; 2]
    /\ map (sizeAt h') [0; 1; 2] = [0; 1024; 0]%N.
Proof. eexists _, _. vm_compute. repeat split. Qed.

(** ** Sanitize of the install and upgrade specs *)

(** C9.  InstallSpec.Sanitize is not total: on an install with a system
    source, a mounted state partition, no persistent partition and one
    extra partition of size 0, the comparison of the persistent size
    dereferences nil and the call panics.  PartitionsByInstallOrder tests
    the persistent slot for nil and returns on the same input. *)
Theorem Sanitize_panics_without_persistent :
  IsEmpty (InstallSpec.System Examples.noPersistentSpec) = false
  /\ nilOrNoMountPoint Examples.noPersistentHeap
       (State (InstallSpec.Partitions Examples.noPersistentSpec)) = Ok false
  /\ Persistent (InstallSpec.Partitions Examples.noPersistentSpec) = None
  /\ map (sizeAt Examples.noPersistentHeap)
       (nonNil (InstallSpec.ExtraPartitions Examples.noPersistentSpec)) = [0%N]
  /\ InstallSpec.Sanitize Examples.noPersistentSpec Examples.noPersistentHeap = Panic
  /\ types.PartitionsByInstallOrder (InstallSpec.Partitions Examples.noPersistentSpec)
       Examples.noPersistentHeap (InstallSpec.ExtraPartitions Examples.noPersistentSpec) []
     = Ok [0; 1].
Proof. vm_compute. repeat split. Qed.

(** C7, as amended.  An install spec whose system source is Empty and whose
    Iso is not set is rejected by Sanitize, and so is every upgrade spec
    whose system source is Empty; in both cases the spec and the partitions
    are returned as they were. *)
Theorem Sanitize_rejects_empty_source (i : InstallSpec.t) (u : UpgradeSpec.t) (h : heap) :
  InstallSpec.System i = Empty ->
  InstallSpec.Iso i = "" ->
  UpgradeSpec.System u = Empty ->
  valid h (State (UpgradeSpec.Partitions u)) ->
  InstallSpec.Sanitize i h = Ok (i, h, Some "undefined system source to install")
  /\ exists msg : string, UpgradeSpec.Sanitize u h = Ok (u, Some msg).
Proof.
  intros Hi Hiso Hu Hst. split.
  - unfold InstallSpec.Sanitize. rewrite Hi, Hiso. reflexivity.
  - unfold UpgradeSpec.Sanitize, nilOrNoMountPoint.
    destruct (State (UpgradeSpec.Partitions u)) as [s|].
    + destruct (valid_lookup h s Hst) as [v Hv]. rewrite (load_Some _ _ _ Hv).
      cbn [mbind outcome_bind obind].
      destruct (Partition.MountPoint v =? ""); [eauto|]. rewrite Hu. eauto.
    + cbn [mbind outcome_bind obind]. eauto.
Qed.

Lemma Sanitize_rejects_empty_source_witness :
  InstallSpec.Sanitize Examples.emptyInstall (Examples.heap3 64 1024 0)
  = Ok (Examples.emptyInstall, Examples.heap3 64 1024 0,
        Some "undefined system source to install")
  /\ exists msg : string,
       UpgradeSpec.Sanitize Examples.emptyUpgrade (Examples.heap3 64 1024 0)
       = Ok (Examples.emptyUpgrade, Some msg).
Proof.
  apply (Sanitize_rejects_empty_source Examples.emptyInstall Examples.emptyUpgrade
           (Examples.heap3 64 1024 0)); try reflexivity.
  vm_compute. lia.
Defined.

(** C7 as stated fails for installs: with the Iso field set, Sanitize
    accepts an install spec whose system source is Empty. *)
Lemma Sanitize_accepts_empty_source_with_iso :
  InstallSpec.System Examples.isoSpec = Empty
  /\ exists (i' : InstallSpec.t) (h' : heap),
       InstallSpec.Sanitize Examples.isoSpec (Examples.heap3 64 1024 0) = Ok (i', h', None).
Proof. split; [reflexivity|]. eexists _, _. vm_compute. reflexivity. Qed.

(** ** Minimum disk size *)

Lemma PartitionsByInstallOrder_no_extras (ep : ElementalPartitions.t) (h : heap) :
  valid h (Persistent ep) ->
  types.PartitionsByInstallOrder ep h [] [] = Ok (allSlots ep).
Proof.
  intros Hp. rewrite PartitionsByInstallOrder_spec by (auto; constructor).
  unfold allSlots, growable. do 2 f_equal.
  destruct (Persistent ep) as [a|]; [|reflexivity].
  change (nonNil [Some a]) with [a]. cbn [List.filter].
  destruct (zeroSize h a); reflexivity.
Qed.

Lemma uint_add_bound (a b : N) : (uint_add a b < uint_modulus)%N.
Proof. unfold uint_add. apply N.mod_lt. discriminate. Qed.

Lemma minDiskSizeLoop_spec (MinPartSize : N) (h : heap) (parts : list ptr) :
  Forall (fun a => a < length h) parts ->
  forall acc : N,
    (acc < uint_modulus)%N ->
    DiskSpec.minDiskSizeLoop MinPartSize h parts acc
    = Ok ((acc + sumN (map (sizeOrMin MinPartSize h) parts)) mod uint_modulus)%N.
Proof.
  induction 1 as [|a parts Ha _ IH]; intros acc Hacc.
  - simpl. rewrite N.add_0_r, N.mod_small by exact Hacc. reflexivity.
  - destruct (valid_lookup h a Ha) as [v Hv].
    cbn [DiskSpec.minDiskSizeLoop]. rewrite (load_Some _ _ _ Hv).
    cbn [mbind outcome_bind obind]. rewrite (zeroSize_load _ _ _ Hv).
    cbn [map sumN fold_right]. fold (sumN (map (sizeOrMin MinPartSize h) parts)).
    assert (Hsz : Partition.Size v = sizeAt h a) by (unfold sizeAt; rewrite Hv; reflexivity).
    assert (Hhd : sizeOrMin MinPartSize h a
                  = if zeroSize h a then MinPartSize else Partition.Size v)
      by (unfold sizeOrMin; rewrite Hsz; reflexivity).
    rewrite Hhd.
    destruct (zeroSize h a); rewrite IH by apply uint_add_bound; f_equal;
      unfold uint_add; rewrite N.Div0.add_mod_idemp_l, N.add_assoc; reflexivity.
Qed.

Lemma allSlots_persistent_valid (ep : ElementalPartitions.t) (h : heap) :
  Forall (fun a => a < length h) (allSlots ep) -> valid h (Persistent ep).
Proof.
  unfold allSlots. rewrite Forall_app. intros [_ H].
  destruct (Persistent ep) as [a|]; [|exact I].
  change (nonNil [Some a]) with [a] in H. inversion H; assumption.
Qed.

(** C5, as amended.  MinDiskSize returns, in the 64-bit arithmetic of
    [uint], 2 MiB plus the sum over all partitions of the partition size,
    a size of 0 counting as MinPartSize; DiskSpec.Sanitize returns an error
    for every spec whose Size is not zero, whose Expandable flag is false
    and whose Size is not strictly larger than that minimum. *)
Theorem MinDiskSize_sum_and_Sanitize (MinPartSize : N) (d : DiskSpec.t) (h : heap) :
  Forall (fun a => a < length h) (allSlots (DiskSpec.Partitions d)) ->
  exists minSize : N,
    DiskSpec.MinDiskSize MinPartSize d h = Ok minSize
    /\ minSize = ((2 + sumN (map (sizeOrMin MinPartSize h)
                               (allSlots (DiskSpec.Partitions d)))) mod uint_modulus)%N
    /\ (DiskSpec.Size d <> 0%N -> DiskSpec.Expandable d = false ->
        (DiskSpec.Size d <= minSize)%N ->
        exists (d' : DiskSpec.t) (msg : string),
          DiskSpec.Sanitize MinPartSize d h = Ok (d', Some msg)).
Proof.
  intros Hall. eexists. split; [|split; [reflexivity|]].
  - unfold DiskSpec.MinDiskSize.
    rewrite PartitionsByInstallOrder_no_extras by (eapply allSlots_persistent_valid; eauto).
    cbn [mbind outcome_bind obind].
    apply minDiskSizeLoop_spec; [exact Hall | reflexivity].
  - intros Hnz Hexp Hle. unfold DiskSpec.Sanitize.
    destruct (IsEmpty (DiskSpec.System d)); [eauto|]. cbv zeta.
    set (d1 := if IsEmpty _ then _ else d).
    set (d2 := if Image.FS _ =? _ then _ else _).
    assert (Hp : DiskSpec.Partitions d2 = DiskSpec.Partitions d
                 /\ DiskSpec.Size d2 = DiskSpec.Size d
                 /\ DiskSpec.Expandable d2 = DiskSpec.Expandable d).
    { subst d2.
      destruct (Image.FS (DiskSpec.RecoverySystem d1) =? constants.SquashFs);
        [|destruct (Image.Label (DiskSpec.RecoverySystem d1) =? "")];
        subst d1; destruct (IsEmpty (Image.Source (DiskSpec.RecoverySystem d)));
        repeat split; reflexivity. }
    destruct Hp as (Hp & Hs & He). clearbody d2. clear d1.
    unfold DiskSpec.MinDiskSize. rewrite Hp, Hs, He.
    rewrite PartitionsByInstallOrder_no_extras by (eapply allSlots_persistent_valid; eauto).
    cbn [mbind outcome_bind obind].
    rewrite (minDiskSizeLoop_spec MinPartSize h _ Hall) by reflexivity.
    cbn [mbind outcome_bind obind].
    apply N.eqb_neq in Hnz. apply N.leb_le in Hle. rewrite Hnz, Hexp, Hle.
    cbn [negb andb]. eauto.
Qed.

Lemma MinDiskSize_sum_and_Sanitize_witness :
  exists minSize : N,
    DiskSpec.MinDiskSize 64 (Examples.disk 8300 false) Examples.biosHeap = Ok minSize
    /\ minSize = ((2 + sumN (map (sizeOrMin 64 Examples.biosHeap)
                               (allSlots (DiskSpec.Partitions (Examples.disk 8300 false)))))
                  mod uint_modulus)%N
    /\ (DiskSpec.Size (Examples.disk 8300 false) <> 0%N ->
        DiskSpec.Expandable (Examples.disk 8300 false) = false ->
        (DiskSpec.Size (Examples.disk 8300 false) <= minSize)%N ->
        exists (d' : DiskSpec.t) (msg : string),
          DiskSpec.Sanitize 64 (Examples.disk 8300 false) Examples.biosHeap
          = Ok (d', Some msg)).
Proof.
  apply (MinDiskSize_sum_and_Sanitize 64 (Examples.disk 8300 false) Examples.biosHeap).
  vm_compute. repeat (constructor; [lia|]). constructor.
Defined.

(** C5 as stated fails: with MinPartSize at 64 MiB, a disk with a BIOS boot
    partition of 1 MiB next to partitions of 64, 8192 and 0 MiB has the
    minimum 8323 (1 counted as 1), not 8386 (1 counted as 64), and Sanitize
    accepts a fixed disk size of 8350 MiB that lies between the two. *)
Lemma MinDiskSize_is_not_sum_of_max :
  DiskSpec.MinDiskSize 64 (Examples.disk 8350 false) Examples.biosHeap = Ok 8323%N
  /\ (2 + sumN (map (sizeMaxMin 64 Examples.biosHeap)
                  (allSlots (DiskSpec.Partitions (Examples.disk 8350 false)))))%N = 8386%N
  /\ exists d' : DiskSpec.t,
       DiskSpec.Sanitize 64 (Examples.disk 8350 false) Examples.biosHeap = Ok (d', None).
Proof. repeat split; [vm_compute; reflexivity..|]. eexists. vm_compute. reflexivity. Qed.

(** The divergence does not hang on the value of MinPartSize: the BIOS boot
    partition alone gives the minimum 3 against [2 + MinPartSize], whatever
    MinPartSize from 2 on is. *)
Lemma MinDiskSize_below_max_for_any_MinPartSize (MinPartSize : N) :
  (2 <= MinPartSize)%N ->
  let d := DiskSpec.mk 0 (ElementalPartitions.mk (Some 3) None None None None None)
             false Empty Examples.noImage "" [] "" "" [] in
  DiskSpec.MinDiskSize MinPartSize d Examples.biosHeap = Ok 3%N
  /\ (2 + sumN (map (sizeMaxMin MinPartSize Examples.biosHeap)
                  (allSlots (DiskSpec.Partitions d))))%N = (2 + MinPartSize)%N.
Proof.
  intros Hm d. split; [reflexivity|].
  change (allSlots (DiskSpec.Partitions d)) with [3].
  cbn [map sumN fold_right]. unfold sizeMaxMin.
  change (sizeAt Examples.biosHeap 3) with 1%N. lia.
Qed.

(** ** Mount paths *)

Lemma Count_app (a b : string) (sep : ascii) :
  Count (a ++ b)%string sep = Count a sep + Count b sep.
Proof. induction a as [|c a IH]; simpl; [reflexivity|]. rewrite IH. lia. Qed.

Lemma depth_child (parent rest : string) :
  MountSpec.depth parent < MountSpec.depth (parent ++ "/" ++ rest)%string.
Proof. unfold MountSpec.depth. rewrite Count_app. simpl. lia. Qed.

Lemma StronglySorted_lookup {A : Type} (R : A -> A -> Prop) (l : list A) :
  StronglySorted R l ->
  forall (i j : nat) (a b : A), l !! i = Some a -> l !! j = Some b -> i < j -> R a b.
Proof.
  induction 1 as [|x l _ IH Hx]; intros i j a b Hi Hj Hlt; [discriminate|].
  destruct j as [|j]; [lia|]. simpl in Hj.
  destruct i as [|i]; simpl in Hi.
  - injection Hi as <-. rewrite List.Forall_forall in Hx. apply Hx.
    apply list_elem_of_In. eapply list_elem_of_lookup_2; eauto.
  - eapply IH; eauto. lia.
Qed.

Lemma String_length_app (a b : string) :
  String.length (a ++ b)%string = String.length a + String.length b.
Proof. induction a as [|c a IH]; simpl; [reflexivity|]. rewrite IH. reflexivity. Qed.

Lemma append_longer (a b : string) : a = (a ++ "/" ++ b)%string -> False.
Proof.
  intros H. apply (f_equal String.length) in H.
  rewrite !String_length_app in H. simpl in H. lia.
Qed.

Lemma insertBy_perm (less : string -> string -> bool) (x : string) (l : list string) :
  Permutation (MountSpec.insertBy less x l) (x :: l).
Proof.
  induction l as [|y l IH]; simpl; [reflexivity|].
  destruct (less y x); [|reflexivity].
  rewrite IH. apply perm_swap.
Qed.

Lemma insertionSort_perm (less : string -> string -> bool) (l : list string) :
  Permutation (MountSpec.insertionSort less l) l.
Proof.
  induction l as [|x l IH]; simpl; [reflexivity|].
  rewrite insertBy_perm. constructor. exact IH.
Qed.

Lemma insertBy_sorted (key : string -> nat) (x : string) (l : list string) :
  StronglySorted (fun a b => key a <= key b) l ->
  StronglySorted (fun a b => key a <= key b)
    (MountSpec.insertBy (fun a b => (key a <? key b)%nat) x l).
Proof.
  induction 1 as [|y l Hs IH Hy]; simpl.
  - repeat constructor.
  - destruct (key y <? key x)%nat eqn:E.
    + apply Nat.ltb_lt in E. constructor; [exact IH|].
      rewrite List.Forall_forall in *. intros z Hz.
      apply (Permutation_in _ (insertBy_perm _ x l)) in Hz.
      destruct Hz as [<-|Hz]; [lia | auto].
    + apply Nat.ltb_ge in E. constructor; [constructor; assumption|].
      constructor; [exact E|].
      rewrite List.Forall_forall in *. intros z Hz. specialize (Hy z Hz). lia.
Qed.

Lemma insertionSort_sorted (key : string -> nat) (l : list string) :
  StronglySorted (fun a b => key a <= key b)
    (MountSpec.insertionSort (fun a b => (key a <? key b)%nat) l).
Proof.
  induction l as [|x l IH]; simpl; [constructor|]. apply insertBy_sorted, IH.
Qed.

Section MountPaths.
(** The contract of [sort.Slice]: the slice is permuted, and comes out in
    non-decreasing order of the key that [less] compares. *)
Variable sort_Slice : (string -> string -> bool) -> list string -> list string.
Hypothesis sort_Slice_perm :
  forall (less : string -> string -> bool) (l : list string),
    Permutation (sort_Slice less l) l.
Hypothesis sort_Slice_sorted :
  forall (key : string -> nat) (l : list string),
    StronglySorted (fun a b => key a <= key b)
      (sort_Slice (fun a b => (key a <? key b)%nat) l).

Lemma sanitizePaths_depthOrdered (paths : list string) :
  depthOrdered (MountSpec.sanitizePaths sort_Slice paths).
Proof.
  assert (Hs : StronglySorted (fun a b => MountSpec.depth a <= MountSpec.depth b)
                 (MountSpec.sanitizePaths sort_Slice paths)).
  { unfold MountSpec.sanitizePaths. destruct paths; [constructor|].
    apply (sort_Slice_sorted MountSpec.depth). }
  split; [|split; [exact Hs|]].
  - unfold MountSpec.sanitizePaths. destruct paths as [|p paths]; [apply not_elem_of_nil|].
    intros Hin. apply list_elem_of_In in Hin.
    apply (Permutation_in _ (sort_Slice_perm _ _)) in Hin.
    unfold DeleteFunc in Hin. apply List.filter_In in Hin.
    destruct Hin as [_ Hne]. discriminate.
  - intros i j parent rest Hi Hj.
    destruct (Nat.lt_trichotomy i j) as [Hlt|[->|Hgt]]; [exact Hlt| |].
    + rewrite Hi in Hj. injection Hj as Hj. destruct (append_longer _ _ Hj).
    + pose proof (StronglySorted_lookup _ _ Hs j i _ _ Hj Hi Hgt) as Hle.
      pose proof (depth_child parent rest). simpl in Hle. lia.
Qed.

(** The persistent paths that come out are the non-empty ones that went in. *)
Lemma sanitizePaths_perm (paths : list string) :
  Permutation (MountSpec.sanitizePaths sort_Slice paths)
    (DeleteFunc paths (fun s => s =? "")).
Proof.
  unfold MountSpec.sanitizePaths. destruct paths; [reflexivity|]. apply sort_Slice_perm.
Qed.

(** C8, as amended.  After MountSpec.Sanitize succeeds, the persistent
    paths and the ephemeral paths are the non-empty paths that went in,
    each as often, in non-decreasing order of depth (number of
    separators), and nothing else of the spec has changed.  Hence a path
    comes before every path made of it, a separator and more: a
    directory that is not the root and is written without a separator at
    its end comes before the paths below it. *)
Theorem Sanitize_paths_depthOrdered (spec spec' : MountSpec.t) :
  MountSpec.Sanitize sort_Slice spec = (spec', None) ->
  depthOrdered (PersistentMounts.Paths (MountSpec.Persistent spec'))
  /\ depthOrdered (EphemeralMounts.Paths (MountSpec.Ephemeral spec'))
  /\ Permutation (PersistentMounts.Paths (MountSpec.Persistent spec'))
       (DeleteFunc (PersistentMounts.Paths (MountSpec.Persistent spec))
          (fun s => s =? ""))
  /\ Permutation (EphemeralMounts.Paths (MountSpec.Ephemeral spec'))
       (DeleteFunc (EphemeralMounts.Paths (MountSpec.Ephemeral spec))
          (fun s => s =? ""))
  /\ spec'
     = MountSpec.setEphemeral
         (EphemeralMounts.setPaths
            (EphemeralMounts.Paths (MountSpec.Ephemeral spec'))
            (MountSpec.Ephemeral spec))
         (MountSpec.setPersistent
            (PersistentMounts.setPaths
               (PersistentMounts.Paths (MountSpec.Persistent spec'))
               (MountSpec.Persistent spec))
            spec).
Proof.
  unfold MountSpec.Sanitize.
  destruct (negb (_ || _)); [discriminate|]. cbv zeta.
  destruct (negb (_ || _)); [discriminate|].
  intros [= <-].
  cbn [MountSpec.Persistent MountSpec.Ephemeral MountSpec.setEphemeral
       MountSpec.setPersistent PersistentMounts.Paths PersistentMounts.setPaths
       EphemeralMounts.Paths EphemeralMounts.setPaths].
  split; [apply sanitizePaths_depthOrdered|].
  split; [apply sanitizePaths_depthOrdered|].
  split; [apply sanitizePaths_perm|].
  split; [apply sanitizePaths_perm|].
  reflexivity.
Qed.
End MountPaths.

Lemma Sanitize_paths_depthOrdered_witness :
  exists spec' : MountSpec.t,
    MountSpec.Sanitize MountSpec.insertionSort Examples.mountSpec = (spec', None)
    /\ PersistentMounts.Paths (MountSpec.Persistent spec')
       = ["/home"; "/usr/local"; "/var/log"; "/usr/local/bin"]
    /\ EphemeralMounts.Paths (MountSpec.Ephemeral spec') = ["/etc"; "/var/lib/x"]
    /\ depthOrdered (PersistentMounts.Paths (MountSpec.Persistent spec'))
    /\ depthOrdered (EphemeralMounts.Paths (MountSpec.Ephemeral spec'))
    /\ Permutation (PersistentMounts.Paths (MountSpec.Persistent spec'))
         ["/usr/local/bin"; "/home"; "/usr/local"; "/var/log"]
    /\ Permutation (EphemeralMounts.Paths (MountSpec.Ephemeral spec'))
         ["/var/lib/x"; "/etc"].
Proof.
  eexists. split; [vm_compute; reflexivity|]. split; [reflexivity|].
  split; [reflexivity|].
  destruct (Sanitize_paths_depthOrdered MountSpec.insertionSort
              insertionSort_perm insertionSort_sorted Examples.mountSpec _ eq_refl)
    as (H1 & H2 & H3 & H4 & _).
  split; [exact H1|]. split; [exact H2|]. split; [exact H3|exact H4].
Defined.

(** C8 as stated fails: the root directory has the depth of the
    directories in it, and a directory written with a separator at its
    end has the depth of the files in it, so the order of depths leaves
    [/home] before [/] and [/etc/ssh] before [/etc/]. *)
Lemma Sanitize_leaves_child_before_parent :
  exists spec' : MountSpec.t,
    MountSpec.Sanitize MountSpec.insertionSort Examples.rootMountSpec = (spec', None)
    /\ PersistentMounts.Paths (MountSpec.Persistent spec')
       = ["/home"; "/"; "/etc/ssh"; "/etc/"]
    /\ map MountSpec.depth (PersistentMounts.Paths (MountSpec.Persistent spec'))
       = [1; 1; 2; 2]
    /\ below "/" "/home"
    /\ below "/etc/" "/etc/ssh"
    /\ ~ parentsFirst (PersistentMounts.Paths (MountSpec.Persistent spec')).
Proof.
  eexists. split; [vm_compute; reflexivity|].
  cbn [MountSpec.Persistent PersistentMounts.Paths].
  assert (Hroot : below "/" "/home").
  { exists "home". split; [discriminate|]. right. exists "". split; reflexivity. }
  split; [reflexivity|]. split; [reflexivity|]. split; [exact Hroot|].
  split.
  - exists "ssh". split; [discriminate|]. right. exists "/etc". split; reflexivity.
  - intros H. specialize (H 1 0 "/" "/home" eq_refl eq_refl Hroot). lia.
Qed.

(** ** The btrfs snapshotter *)

Import snapshotter.

(** A call is logged and either fails without effect or has its effect. *)
Lemma call_cases (o : Op) (a : list string) (effect : World -> World) (s : Sys) :
  call o a effect s = (None, (fst s, effect (addLog (mkCall o a) (snd s))))
  \/ exists e, call o a effect s = (Some e, (fst s, addLog (mkCall o a) (snd s))).
Proof. unfold call. destruct (bool_decide _); eauto. Qed.

Lemma call_faultFree (o : Op) (a : list string) (effect : World -> World) (s : Sys) :
  faultFree s ->
  call o a effect s = (None, (fst s, effect (addLog (mkCall o a) (snd s)))).
Proof.
  unfold faultFree, call. intros H. destruct s as [b w]. simpl in *. rewrite H.
  reflexivity.
Qed.

Lemma keeps_ret {A : Type} (a : A) : keeps (mret a : M A).
Proof. intros s. repeat split; reflexivity. Qed.

Lemma keeps_bind {A B : Type} (m : M A) (k : A -> M B) :
  keeps m -> (forall a, keeps (k a)) -> keeps (m ≫= k).
Proof.
  intros Hm Hk s. unfold mbind, M_bind.
  destruct (m s) as [a s1] eqn:E. specialize (Hm s). rewrite E in Hm.
  destruct (Hk a s1) as (H1 & H2 & H3 & H4). destruct Hm as (H5 & H6 & H7 & H8).
  simpl in *. repeat split; congruence.
Qed.

Lemma keeps_call (o : Op) (a : list string) (effect : World -> World) :
  o <> OpDeleteSnapshot ->
  (forall w, snapshots (effect w) = snapshots w
             /\ defaultSnapshot (effect w) = defaultSnapshot w
             /\ log (effect w) = log w
             /\ envFiles (effect w) = envFiles w
             /\ failing (effect w) = failing w) ->
  keeps (call o a effect).
Proof.
  intros Ho He [b w]. unfold call, snapshotStore, backendDeletes, setup. simpl.
  assert (Hf : List.filter (fun c => bool_decide (op c = OpDeleteSnapshot)) (log w ++ [mkCall o a])
               = List.filter (fun c => bool_decide (op c = OpDeleteSnapshot)) (log w)).
  { rewrite List.filter_app. simpl. rewrite bool_decide_eq_false_2 by exact Ho.
    apply app_nil_r. }
  destruct (bool_decide _); simpl.
  - repeat split; [exact Hf].
  - destruct (He (addLog (mkCall o a) w)) as (H1 & H2 & H3 & H4 & H5).
    rewrite H1, H2, H3, H4, H5. repeat split; exact Hf.
Qed.

Lemma keeps_runSnapshotsMount (h : hook) : keeps (runSnapshotsMount h).
Proof.
  destruct h; [apply keeps_ret|]. apply keeps_call; [discriminate|]. intros w; repeat split; reflexivity.
Qed.

Lemma keeps_runSnapshotsUmount (h : hook) : keeps (runSnapshotsUmount h).
Proof.
  destruct h; [apply keeps_ret|]. apply keeps_call; [discriminate|]. intros w; repeat split; reflexivity.
Qed.

Lemma keeps_getBtrfs : keeps getBtrfs.
Proof. intros s. repeat split; reflexivity. Qed.

Lemma keeps_getWorld : keeps getWorld.
Proof. intros s. repeat split; reflexivity. Qed.

Lemma keeps_setActiveSnapshotID (v : Z) : keeps (modifyBtrfs (Btrfs.setActiveSnapshotID v)).
Proof. intros s. repeat split; reflexivity. Qed.

Lemma keeps_listSnapshots : keeps listSnapshots.
Proof.
  unfold listSnapshots, backend_ListSnapshots.
  apply keeps_bind; [apply keeps_getBtrfs|]. intros b.
  apply keeps_bind.
  - apply keeps_bind; [apply keeps_call; [discriminate | intros w; repeat split; reflexivity]|].
    intros [e|]; [apply keeps_ret|].
    apply keeps_bind; [apply keeps_getWorld | intros w; apply keeps_ret].
  - intros [snapList [e|]]; [apply keeps_ret|].
    apply keeps_bind; [apply keeps_setActiveSnapshotID | intros _; apply keeps_ret].
Qed.

(** GetSnapshots leaves the store as it is and deletes nothing. *)
Lemma keeps_GetSnapshots : keeps GetSnapshots.
Proof.
  unfold GetSnapshots.
  apply keeps_bind; [apply keeps_getBtrfs|]. intros b.
  destruct (Btrfs.rootDir b =? ""); [apply keeps_ret|].
  destruct (0 <? Btrfs.activeSnapshotID b)%Z; [|apply keeps_ret].
  apply keeps_bind.
  { unfold Mounter_IsLikelyNotMountPoint.
    apply keeps_bind; [apply keeps_getWorld | intros w; apply keeps_ret]. }
  intros [|]; [|apply keeps_listSnapshots].
  apply keeps_bind; [apply keeps_runSnapshotsMount|].
  intros [e|]; [apply keeps_ret|].
  apply keeps_bind; [apply keeps_listSnapshots|]. intros [snapshots err].
  apply keeps_bind; [apply keeps_getBtrfs|]. intros b1.
  apply keeps_bind; [apply keeps_runSnapshotsUmount|].
  intros nErr. destruct err, nErr; apply keeps_ret.
Qed.

(** What GetSnapshots returns when no collaborator fails. *)
Lemma GetSnapshots_faultFree (s : Sys) :
  faultFree s -> Btrfs.rootDir (fst s) <> "" ->
  exists s' : Sys,
    GetSnapshots s
    = ((if (0 <? Btrfs.activeSnapshotID (fst s))%Z then snapshots (snd s) else [], None), s')
    /\ Btrfs.activeSnapshotID (fst s')
       = (if (0 <? Btrfs.activeSnapshotID (fst s))%Z then defaultSnapshot (snd s)
          else Btrfs.activeSnapshotID (fst s)).
Proof.
  destruct s as [[cfg root efi act hu hm] [ids def last mx mnts envs fl lg]].
  unfold faultFree. simpl. intros -> Hroot.
  apply String.eqb_neq in Hroot.
  unfold GetSnapshots, mbind, M_bind, getBtrfs. simpl. rewrite Hroot.
  destruct (0 <? act)%Z; [|eauto].
  unfold Mounter_IsLikelyNotMountPoint, mbind, M_bind, getWorld. simpl.
  destruct (negb (existsb _ mnts)).
  - destruct hm as [|r d i], hu as [|r' d' i']; simpl; eauto.
  - simpl. eauto.
Qed.

(** C10.  DeleteSnapshot is a no-op on unknown ids: when GetSnapshots
    returns a list that does not contain the id, DeleteSnapshot returns nil
    in the state GetSnapshots leaves, the backend is asked for no deletion
    and the store is as it was.  Hence, when no collaborator fails, a
    second DeleteSnapshot of an id that was just deleted returns nil and
    changes nothing in the store. *)
Theorem DeleteSnapshot_unknown_id_noop (id : Z) (s : Sys) :
  (forall (ids : list Z) (s' : Sys),
      GetSnapshots s = ((ids, None), s') -> id ∉ ids ->
      DeleteSnapshot id s = (None, s')
      /\ backendDeletes s' = backendDeletes s
      /\ snapshotStore s' = snapshotStore s)
  /\ (forall s1 : Sys,
        faultFree s -> DeleteSnapshot id s = (None, s1) ->
        exists s2 : Sys,
          DeleteSnapshot id s1 = (None, s2)
          /\ backendDeletes s2 = backendDeletes s1
          /\ snapshotStore s2 = snapshotStore s1).
Proof.
  assert (Hnoop : forall (t : Sys) (ids : list Z) (t' : Sys),
             GetSnapshots t = ((ids, None), t') -> id ∉ ids ->
             DeleteSnapshot id t = (None, t')
             /\ backendDeletes t' = backendDeletes t
             /\ snapshotStore t' = snapshotStore t).
  { intros t ids t' Hget Hnot.
    assert (Hex : existsb (fun x => (x =? id)%Z) ids = false).
    { apply not_true_is_false. intros Hex. apply existsb_exists in Hex.
      destruct Hex as (x & Hin & Hx). apply Z.eqb_eq in Hx. subst x.
      apply Hnot, list_elem_of_In, Hin. }
    split.
    - unfold DeleteSnapshot, mbind, M_bind. rewrite Hget, Hex. reflexivity.
    - destruct (keeps_GetSnapshots t) as (H1 & H2 & _). rewrite Hget in H1, H2.
      split; assumption. }
  split; [apply Hnoop|].
  intros s1 Hff Hdel.
  destruct (decide (Btrfs.rootDir (fst s) = "")) as [Hroot|Hroot].
  { exfalso. destruct s as [b w]. simpl in Hroot.
    unfold DeleteSnapshot, GetSnapshots, mbind, M_bind, getBtrfs in Hdel. simpl in Hdel.
    rewrite Hroot in Hdel. simpl in Hdel. discriminate. }
  destruct (GetSnapshots_faultFree s Hff Hroot) as (s' & Hget & Hact).
  pose proof (keeps_GetSnapshots s) as (Hst & Hdl & Henv & Hset). rewrite Hget in *.
  simpl in Hst, Hdl, Henv, Hset.
  (* the state after the first deletion *)
  assert (H1 : faultFree s1 /\ Btrfs.rootDir (fst s1) <> ""
               /\ id ∉ (if (0 <? Btrfs.activeSnapshotID (fst s1))%Z
                         then snapshots (snd s1) else [])).
  { unfold DeleteSnapshot, mbind, M_bind in Hdel. rewrite Hget in Hdel.
    assert (Hs' : faultFree s' /\ Btrfs.rootDir (fst s') <> "").
    { unfold setup in Hset. injection Hset as Hf Hr _ _ _.
      unfold faultFree in *. split; congruence. }
    destruct Hs' as [Hff' Hroot'].
    unfold snapshotStore in Hst. injection Hst as Hst _.
    destruct (existsb _ _) eqn:Hex; simpl in Hdel.
    - unfold getBtrfs, backend_DeleteSnapshot in Hdel. simpl in Hdel.
      rewrite call_faultFree in Hdel by exact Hff'. injection Hdel as <-.
      destruct s' as [b' w']. simpl in *. repeat split; try assumption.
      match goal with |- _ ∉ (if ?c then _ else _) => destruct c end;
        [|apply not_elem_of_nil].
      intros Hin. apply list_elem_of_In, List.filter_In in Hin.
      destruct Hin as [_ Hne]. rewrite Z.eqb_refl in Hne. discriminate.
    - injection Hdel as <-. repeat split; try assumption.
      rewrite Hact, Hst.
      destruct (0 <? Btrfs.activeSnapshotID (fst s))%Z eqn:Epos.
      + assert (Hnot : id ∉ snapshots (snd s)).
        { intros Hin. apply not_true_iff_false in Hex. apply Hex.
          apply existsb_exists. exists id. split; [|apply Z.eqb_refl].
          apply list_elem_of_In, Hin. }
        match goal with |- _ ∉ (if ?c then _ else _) => destruct c end;
          [exact Hnot | apply not_elem_of_nil].
      + rewrite Epos. apply not_elem_of_nil. }
  destruct H1 as (Hff1 & Hroot1 & Hnot1).
  destruct (GetSnapshots_faultFree s1 Hff1 Hroot1) as (s2 & Hget1 & _).
  exists s2. eapply Hnoop; [exact Hget1 | exact Hnot1].
Qed.

Lemma DeleteSnapshot_unknown_id_noop_witness :
  (DeleteSnapshot 7 (Examples.btrfs1, Examples.world1 [])
   = (None, snd (GetSnapshots (Examples.btrfs1, Examples.world1 [])))
   /\ backendDeletes (snd (GetSnapshots (Examples.btrfs1, Examples.world1 [])))
      = backendDeletes (Examples.btrfs1, Examples.world1 [])
   /\ snapshotStore (snd (GetSnapshots (Examples.btrfs1, Examples.world1 [])))
      = snapshotStore (Examples.btrfs1, Examples.world1 []))
  /\ exists s2 : Sys,
       DeleteSnapshot 1 (snd (DeleteSnapshot 1 (Examples.btrfs1, Examples.world1 [])))
       = (None, s2)
       /\ backendDeletes s2
          = backendDeletes (snd (DeleteSnapshot 1 (Examples.btrfs1, Examples.world1 [])))
       /\ snapshotStore s2
          = snapshotStore (snd (DeleteSnapshot 1 (Examples.btrfs1, Examples.world1 []))).
Proof.
  split.
  - apply (proj1 (DeleteSnapshot_unknown_id_noop 7 (Examples.btrfs1, Examples.world1 []))
             [1%Z]).
    + vm_compute. reflexivity.
    + intros H. apply list_elem_of_In in H. destruct H as [H|[]]. discriminate.
  - apply (proj2 (DeleteSnapshot_unknown_id_noop 1 (Examples.btrfs1, Examples.world1 []))).
    + reflexivity.
    + vm_compute. reflexivity.
Defined.


(** *** The GRUB environment written on commit *)

Lemma envs_lookup (fallbackList snapsList : string) (old : gmap string string) :
  (<[constants.GrubFallback := fallbackList]>
      (<[constants.GrubPassiveSnapshots := snapsList]>
         (<["snapshotter" := constants.BtrfsSnapshotterType]> ∅)) ∪ old)
     !! constants.GrubFallback = Some fallbackList
  /\ (<[constants.GrubFallback := fallbackList]>
      (<[constants.GrubPassiveSnapshots := snapsList]>
         (<["snapshotter" := constants.BtrfsSnapshotterType]> ∅)) ∪ old)
     !! constants.GrubPassiveSnapshots = Some snapsList
  /\ (<[constants.GrubFallback := fallbackList]>
      (<[constants.GrubPassiveSnapshots := snapsList]>
         (<["snapshotter" := constants.BtrfsSnapshotterType]> ∅)) ∪ old)
     !! "snapshotter" = Some constants.BtrfsSnapshotterType.
Proof.
  repeat split; apply lookup_union_Some_l.
  - apply lookup_insert_eq.
  - rewrite lookup_insert_ne by discriminate. apply lookup_insert_eq.
  - rewrite !lookup_insert_ne by discriminate. apply lookup_insert_eq.
Qed.

Lemma check_inv (m k : M error) (s s' : Sys) (r : error) :
  check m k s = (r, s') ->
  (exists e, m s = (Some e, s') /\ r = Some e)
  \/ (exists s1, m s = (None, s1) /\ k s1 = (r, s')).
Proof.
  unfold check, mbind, M_bind. destruct (m s) as [[e|] s1].
  - intros [= <- <-]. left. eauto.
  - intros H. right. eauto.
Qed.

Lemma call_None (o : Op) (a : list string) (effect : World -> World) (s s' : Sys) :
  call o a effect s = (None, s') ->
  s' = (fst s, effect (addLog (mkCall o a) (snd s))).
Proof. unfold call. destruct (bool_decide _); [discriminate|]. intros [= <-]. reflexivity. Qed.

Lemma call_envFiles (o : Op) (a : list string) (effect : World -> World) (s : Sys) :
  (forall w, envFiles (effect w) = envFiles w) ->
  envFiles (snd (snd (call o a effect s))) = envFiles (snd s).
Proof.
  intros He. unfold call. destruct (bool_decide _); cbn [snd]; [reflexivity|].
  rewrite He. reflexivity.
Qed.

(** What setBootloader writes when no collaborator fails. *)
Lemma setBootloader_faultFree (s : Sys) :
  faultFree s -> Btrfs.rootDir (fst s) <> "" ->
  let ids := if (0 <? Btrfs.activeSnapshotID (fst s))%Z
             then List.filter (fun x => negb (x =? defaultSnapshot (snd s))%Z)
                    (snapshots (snd s))
             else [] in
  let envFile := filepath_Join (Btrfs.efiDir (fst s)) constants.GrubOEMEnv in
  exists s' : Sys,
    setBootloader s = (None, s')
    /\ envFiles (snd s')
       = <[envFile :=
             <[constants.GrubFallback := Join (fallbacksOf ids) " "]>
               (<[constants.GrubPassiveSnapshots := Join (passivesOf ids) " "]>
                  (<["snapshotter" := constants.BtrfsSnapshotterType]> ∅))
             ∪ default ∅ (envFiles (snd s) !! envFile)]> (envFiles (snd s)).
Proof.
  intros Hff Hroot ids envFile.
  destruct (GetSnapshots_faultFree s Hff Hroot) as (s1 & Hget & Hact).
  pose proof (keeps_GetSnapshots s) as (Hst & _ & Henv & Hset). rewrite Hget in Hst, Henv, Hset.
  cbn [snd] in Hst, Henv, Hset.
  unfold snapshotStore in Hst. injection Hst as Hsn Hdef.
  unfold setup in Hset. injection Hset as Hf _ Hefi _ _.
  assert (Hff1 : faultFree s1) by (unfold faultFree in *; congruence).
  unfold setBootloader, getPassiveSnapshots, mbind, M_bind. rewrite Hget.
  unfold getBtrfs, mret, M_ret, bootloader_SetPersistentVariables.
  rewrite call_faultFree by exact Hff1.
  eexists. split; [reflexivity|].
  cbn [snd fst envFiles setEnvFiles addLog]. rewrite Hact, Hefi, Henv.
  fold envFile.
  assert (Hids : List.filter
                   (fun snapshot =>
                      negb (snapshot =? (if (0 <? Btrfs.activeSnapshotID (fst s))%Z
                                         then defaultSnapshot (snd s)
                                         else Btrfs.activeSnapshotID (fst s)))%Z)
                   (if (0 <? Btrfs.activeSnapshotID (fst s))%Z then snapshots (snd s) else [])
                 = ids).
  { subst ids. destruct (0 <? Btrfs.activeSnapshotID (fst s))%Z; reflexivity. }
  rewrite Hids. reflexivity.
Qed.

(** The body of CloseTransaction, when it returns nil, has written the
    environment file. *)
Lemma closeTransaction_envFiles (snapshot : Snapshot.t) (s s' : Sys) :
  faultFree s -> Btrfs.rootDir (fst s) <> "" ->
  closeTransaction snapshot s = (None, s') ->
  let ids := passivesAtCommit (Snapshot.ID snapshot) s in
  let envFile := filepath_Join (Btrfs.efiDir (fst s)) constants.GrubOEMEnv in
  envFiles (snd s')
  = <[envFile :=
        <[constants.GrubFallback := Join (fallbacksOf ids) " "]>
          (<[constants.GrubPassiveSnapshots := Join (passivesOf ids) " "]>
             (<["snapshotter" := constants.BtrfsSnapshotterType]> ∅))
        ∪ default ∅ (envFiles (snd s) !! envFile)]> (envFiles (snd s)).
Proof.
  intros Hff Hroot H ids envFile. destruct s as [b w].
  unfold faultFree in Hff. cbn [fst snd] in *.
  unfold closeTransaction in H.
  apply check_inv in H. destruct H as [(e & _ & [=])|(s1 & H1 & H)].
  apply call_None in H1. subst s1.
  apply check_inv in H. destruct H as [(e & _ & [=])|(s2 & H2 & H)].
  apply call_None in H2. subst s2.
  apply check_inv in H. destruct H as [(e & _ & [=])|(s3 & H3 & H)].
  assert (Hs3 : fst s3 = b /\ failing (snd s3) = failing w
                /\ snapshots (snd s3) = snapshots w
                /\ envFiles (snd s3) = envFiles w).
  { destruct (1 <? Snapshot.ID snapshot)%Z.
    - apply check_inv in H3. destruct H3 as [(e & _ & [=])|(s3' & H3 & H3')].
      apply call_None in H3. subst s3'. apply call_None in H3'. subst s3.
      repeat split; reflexivity.
    - injection H3 as <-. repeat split; reflexivity. }
  clear H3. destruct s3 as [b3 w3]. cbn [fst snd] in Hs3.
  destruct Hs3 as (-> & Hf3 & Hsn3 & Henv3).
  apply check_inv in H. destruct H as [(e & _ & [=])|(s4 & H4 & H)].
  apply call_None in H4. subst s4.
  unfold mbind, M_bind, getBtrfs in H. cbn [fst snd] in H.
  apply check_inv in H. destruct H as [(e & _ & [=])|(s5 & H5 & H)].
  apply call_None in H5. subst s5.
  unfold mbind, M_bind in H.
  match type of H with
  | context [setBootloader ?st] =>
      destruct (setBootloader_faultFree st) as (s6 & H6 & Henv6);
      [unfold faultFree; cbn; congruence | exact Hroot |]
  end.
  rewrite H6 in H. cbn [fst snd] in Henv6.
  destruct (backend_SnapshotsCleanup (Btrfs.rootDir b) s6) as [r7 s7] eqn:H7.
  injection H as <-.
  assert (Henv7 : envFiles (snd s7) = envFiles (snd s6)).
  { unfold backend_SnapshotsCleanup in H7.
    match type of H7 with
    | call ?o ?a ?e ?st = _ =>
        pose proof (call_envFiles o a e st (fun w => eq_refl)) as Hk
    end.
    rewrite H7 in Hk. exact Hk. }
  rewrite Henv7, Henv6. cbn [envFiles snd setStore addLog]. rewrite Henv3.
  subst ids envFile. unfold passivesAtCommit. cbn [fst snd Btrfs.efiDir].
  cbn [snapshots defaultSnapshot setStore addLog]. rewrite Hsn3. reflexivity.
Qed.

(** C2, as amended.  After a successful CloseTransaction of an initiated
    snapshotter whose collaborators do not fail, the file
    [<efiDir>/grub_oem_env] holds, under the key [fallback], the decimal
    numbers from 0 to N+1 separated by spaces, N being the number of
    passive snapshots listed under [passive_snapshots]: the last element is
    the number N+1, which stands for the recovery entry. *)
Theorem CloseTransaction_writes_fallback (snapshot : Snapshot.t) (s s' : Sys) :
  faultFree s -> Btrfs.rootDir (fst s) <> "" ->
  CloseTransaction snapshot s = (None, s') ->
  exists envs : gmap string string,
    envFiles (snd s') !! filepath_Join (Btrfs.efiDir (fst s)) constants.GrubOEMEnv
    = Some envs
    /\ envs !! constants.GrubFallback
       = Some (Join (map (fun i => Itoa (Z.of_nat i))
                       (seq 0 (length (passivesAtCommit (Snapshot.ID snapshot) s) + 2))) " ")
    /\ envs !! constants.GrubPassiveSnapshots
       = Some (Join (map Itoa (rev (passivesAtCommit (Snapshot.ID snapshot) s))) " ")
    /\ envs !! "snapshotter" = Some constants.BtrfsSnapshotterType.
Proof.
  intros Hff Hroot H. unfold CloseTransaction in H.
  destruct (Snapshot.InProgress snapshot); [|discriminate]. cbn [negb] in H.
  unfold mbind, M_bind in H.
  destruct (closeTransaction snapshot s) as [err sc] eqn:Hc.
  destruct err as [e|].
  { exfalso. destruct (DeleteSnapshot _ sc) as [r1 s1]. unfold getBtrfs in H.
    destruct (runSnapshotsUmount _ s1) as [r2 s2]. discriminate. }
  unfold mret, M_ret, getBtrfs in H.
  destruct (runSnapshotsUmount (Btrfs.snapshotsUmount (fst sc)) sc) as [r2 s2] eqn:Hu.
  injection H as -> <-.
  pose proof (keeps_runSnapshotsUmount (Btrfs.snapshotsUmount (fst sc)) sc) as (_ & _ & Henv & _).
  rewrite Hu in Henv. cbn [snd] in Henv.
  rewrite Henv, (closeTransaction_envFiles _ _ _ Hff Hroot Hc), lookup_insert_eq.
  eexists. split; [reflexivity|]. apply envs_lookup.
Qed.

(** ** Round trip of the install state *)










Section InstallStateRoundTrip.
Variable decodeSnapshotter
  : SnapshotterConfig.t -> SnapshotterConfig.t -> SnapshotterConfig.t.
Variable LegacyStateDir : string.

Let load := Config.LoadInstallState Config.document
              (Config.unmarshalDocument decodeSnapshotter) LegacyStateDir.


End InstallStateRoundTrip.



(** A recovery partition written without a label and without a recovery
    image is worse off: LoadInstallState reads the file system of the
    image through the nil pointer. *)
Lemma LoadInstallState_panics_on_recovery_without_image :
  Config.LoadInstallState _ (Config.unmarshalDocument Examples.fillSnapshotter)
    "/run/initramfs/legacy-state"
    (fst (Config.WriteInstallState _ Config.marshalDocument Config.commentDocument
            (Examples.recoveryState "" None NewLoopDevice) Examples.stateFile ""
            Examples.noFiles))
  = Panic.
Proof. vm_compute. reflexivity. Qed.

(** ** Transactions of the btrfs snapshotter *)

Lemma CloseTransaction_writes_fallback_witness :
  exists envs : gmap string string,
    envFiles (snd (snd (CloseTransaction Examples.snapshot2 Examples.started)))
    !! filepath_Join (Btrfs.efiDir (fst Examples.started)) constants.GrubOEMEnv
    = Some envs
    /\ envs !! constants.GrubFallback
       = Some (Join (map (fun i => Itoa (Z.of_nat i))
                       (seq 0 (length (passivesAtCommit (Snapshot.ID Examples.snapshot2)
                                         Examples.started) + 2))) " ")
    /\ envs !! constants.GrubPassiveSnapshots
       = Some (Join (map Itoa (rev (passivesAtCommit (Snapshot.ID Examples.snapshot2)
                                      Examples.started))) " ")
    /\ envs !! "snapshotter" = Some constants.BtrfsSnapshotterType.
Proof.
  apply (CloseTransaction_writes_fallback Examples.snapshot2 Examples.started).
  - reflexivity.
  - discriminate.
  - vm_compute. reflexivity.
Defined.

(** C2 as stated fails: the upgrade of a system that runs on snapshot 1
    commits snapshot 2 and leaves one passive snapshot; the value written
    under [fallback] is [0 1 2], three numbers and no word [recovery]. *)
Lemma CloseTransaction_fallback_is_numeric :
  StartTransaction Examples.workingImgDir (Examples.btrfs1, Examples.world1 [])
  = ((Some Examples.snapshot2, None), Examples.started)
  /\ fst (CloseTransaction Examples.snapshot2 Examples.started) = None
  /\ grubVariable (snd (CloseTransaction Examples.snapshot2 Examples.started))
       "/run/elemental/efi/grub_oem_env" "fallback" = Some "0 1 2"
  /\ grubVariable (snd (CloseTransaction Examples.snapshot2 Examples.started))
       "/run/elemental/efi/grub_oem_env" "passive_snapshots" = Some "1".
Proof. vm_compute. repeat split. Qed.

Lemma faultFree_setup (s s' : Sys) :
  setup s' = setup s -> faultFree s -> faultFree s'.
Proof. unfold setup, faultFree. intros [= H _ _ _ _]. congruence. Qed.

Lemma rootDir_setup (s s' : Sys) :
  setup s' = setup s -> Btrfs.rootDir (fst s') = Btrfs.rootDir (fst s).
Proof. unfold setup. intros [= _ H _ _ _]. exact H. Qed.

Lemma StartTransaction_faultFree (WorkingImgDir : string) (s : Sys) :
  faultFree s -> Btrfs.rootDir (fst s) <> "" ->
  exists (snapshot : Snapshot.t) (s1 : Sys),
    StartTransaction WorkingImgDir s = ((Some snapshot, None), s1)
    /\ Snapshot.ID snapshot = (lastID (snd s) + 1)%Z
    /\ Snapshot.InProgress snapshot = true
    /\ snapshotStore s1
       = (snapshots (snd s) ++ [(lastID (snd s) + 1)%Z], defaultSnapshot (snd s))
    /\ setup s1 = setup s
    /\ Btrfs.activeSnapshotID (fst s1) = Btrfs.activeSnapshotID (fst s).
Proof.
  destruct s as [b w]. unfold faultFree. cbn [fst snd]. intros Hff Hroot.
  apply String.eqb_neq in Hroot.
  unfold StartTransaction. cbv zeta. unfold mbind at 1, M_bind at 1, getBtrfs. cbn [fst].
  rewrite Hroot.
  unfold backend_CreateNewSnapshot, mbind, M_bind, getWorld.
  rewrite call_faultFree by exact Hff. unfold mret, M_ret.
  unfold utils_MkdirAll. rewrite call_faultFree by exact Hff.
  unfold Mounter_Mount. rewrite call_faultFree by exact Hff.
  eexists _, _. split; [reflexivity|]. cbn. unfold setup. cbn. repeat split. 
Qed.

Lemma call_fst (o : Op) (a : list string) (effect : World -> World) (s : Sys) :
  fst (snd (call o a effect s)) = fst s.
Proof. unfold call. destruct (bool_decide _); reflexivity. Qed.

Lemma runSnapshotsUmount_fst (h : hook) (s : Sys) :
  fst (snd (runSnapshotsUmount h s)) = fst s.
Proof. destruct h; [reflexivity | apply call_fst]. Qed.

Lemma runSnapshotsUmount_faultFree (h : hook) (s : Sys) :
  faultFree s -> fst (runSnapshotsUmount h s) = None.
Proof.
  intros Hff. destruct h; [reflexivity|]. unfold runSnapshotsUmount, Mounter_Unmount.
  rewrite call_faultFree by exact Hff. reflexivity.
Qed.

Lemma filter_absent (id : Z) (ids : list Z) :
  existsb (fun x => (x =? id)%Z) ids = false ->
  List.filter (fun x => negb (x =? id)%Z) ids = ids.
Proof.
  induction ids as [|x ids IH]; simpl; [reflexivity|].
  destruct (x =? id)%Z; simpl; [discriminate|]. intros H. rewrite IH by exact H. reflexivity.
Qed.

(** What DeleteSnapshot does when no collaborator fails. *)
Lemma DeleteSnapshot_faultFree (id : Z) (s : Sys) :
  faultFree s -> Btrfs.rootDir (fst s) <> "" ->
  exists s' : Sys,
    DeleteSnapshot id s = (None, s')
    /\ setup s' = setup s
    /\ snapshotStore s'
       = (if (0 <? Btrfs.activeSnapshotID (fst s))%Z
          then List.filter (fun x => negb (x =? id)%Z) (snapshots (snd s))
          else snapshots (snd s), defaultSnapshot (snd s))
    /\ Btrfs.activeSnapshotID (fst s')
       = (if (0 <? Btrfs.activeSnapshotID (fst s))%Z then defaultSnapshot (snd s)
          else Btrfs.activeSnapshotID (fst s)).
Proof.
  intros Hff Hroot.
  destruct (GetSnapshots_faultFree s Hff Hroot) as (s1 & Hget & Hact).
  pose proof (keeps_GetSnapshots s) as (Hst & _ & _ & Hset). rewrite Hget in Hst, Hset.
  cbn [snd] in Hst, Hset.
  unfold DeleteSnapshot, mbind, M_bind. rewrite Hget.
  unfold snapshotStore in Hst. injection Hst as Hsn Hdef.
  destruct (existsb _ _) eqn:Hex; cbn [negb].
  - unfold getBtrfs, backend_DeleteSnapshot.
    rewrite call_faultFree by (eapply faultFree_setup; eauto).
    eexists. split; [reflexivity|]. destruct s1 as [b1 w1].
    cbn [fst snd] in *. unfold setup, snapshotStore in *. cbn. rewrite Hsn, Hdef.
    repeat split; try assumption.
    destruct (0 <? Btrfs.activeSnapshotID (fst s))%Z; [reflexivity | discriminate].
  - unfold mret, M_ret. eexists. split; [reflexivity|].
    split; [exact Hset|]. split; [|exact Hact].
    unfold snapshotStore. rewrite Hsn, Hdef.
    destruct (0 <? Btrfs.activeSnapshotID (fst s))%Z; [|reflexivity].
    rewrite (filter_absent _ _ Hex). reflexivity.
Qed.

Lemma CloseTransactionOnError_faultFree (snapshot : Snapshot.t) (s : Sys) :
  faultFree s -> Btrfs.rootDir (fst s) <> "" ->
  exists s' : Sys,
    CloseTransactionOnError snapshot s = (None, s')
    /\ snapshotStore s'
       = (if (0 <? Btrfs.activeSnapshotID (fst s))%Z
          then List.filter (fun x => negb (x =? Snapshot.ID snapshot)%Z) (snapshots (snd s))
          else snapshots (snd s), defaultSnapshot (snd s))
    /\ setup s' = setup s
    /\ Btrfs.activeSnapshotID (fst s')
       = (if (0 <? Btrfs.activeSnapshotID (fst s))%Z then defaultSnapshot (snd s)
          else Btrfs.activeSnapshotID (fst s)).
Proof.
  intros Hff Hroot. unfold CloseTransactionOnError.
  unfold mbind at 1, M_bind at 1.
  set (m0 := if Snapshot.InProgress snapshot then _ else _).
  assert (H0 : keeps m0 /\ fst (snd (m0 s)) = fst s).
  { subst m0. destruct (Snapshot.InProgress snapshot).
    - split; [|apply call_fst]. apply keeps_call; [discriminate|].
      intros w; repeat split; reflexivity.
    - split; [apply keeps_ret | reflexivity]. }
  destruct H0 as [Hk0 Hb0]. destruct (Hk0 s) as (Hst0 & _ & _ & Hset0).
  destruct (m0 s) as [r0 s0]. cbn [snd] in *. clear Hk0 m0.
  destruct (DeleteSnapshot_faultFree (Snapshot.ID snapshot) s0) as (s1 & Hd & Hset1 & Hst1 & Hact1).
  { eapply faultFree_setup; eauto. }
  { rewrite (rootDir_setup _ _ Hset0). exact Hroot. }
  unfold mbind, M_bind. rewrite Hd. unfold getBtrfs.
  pose proof (keeps_runSnapshotsUmount (Btrfs.snapshotsUmount (fst s1)) s1) as (Hst2 & _ & _ & Hset2).
  pose proof (runSnapshotsUmount_fst (Btrfs.snapshotsUmount (fst s1)) s1) as Hb2.
  pose proof (runSnapshotsUmount_faultFree (Btrfs.snapshotsUmount (fst s1)) s1
                ltac:(eapply faultFree_setup; [exact Hset1 | eapply faultFree_setup; eauto])) as Hr2.
  destruct (runSnapshotsUmount _ s1) as [r2 s2]. cbn [fst snd] in *. subst r2.
  eexists. split; [reflexivity|].
  unfold snapshotStore in Hst0. injection Hst0 as Hsn0 Hdef0.
  rewrite Hst2, Hst1, Hb2, Hact1, Hb0, Hsn0, Hdef0. repeat split; congruence.
Qed.

Lemma filter_fresh (id : Z) (ids : list Z) :
  Forall (fun x => (x < id)%Z) ids ->
  List.filter (fun x => negb (x =? id)%Z) (ids ++ [id]) = ids.
Proof.
  intros H. rewrite List.filter_app. simpl. rewrite Z.eqb_refl. simpl.
  rewrite app_nil_r. induction H as [|x ids Hx _ IH]; simpl; [reflexivity|].
  assert (Hne : (x =? id)%Z = false) by (apply Z.eqb_neq; lia).
  rewrite Hne. simpl. rewrite IH. reflexivity.
Qed.

(** The half of C1 that holds.  When no collaborator fails, a transaction
    that is started and then closed on error leaves what GetSnapshots
    returns and the active snapshot id as they were. *)
Lemma CloseTransactionOnError_restores (WorkingImgDir : string) (s s1 s2 : Sys)
    (snapshot : Snapshot.t) (r : error) :
  faultFree s -> Btrfs.rootDir (fst s) <> "" ->
  Btrfs.activeSnapshotID (fst s) = defaultSnapshot (snd s) ->
  Forall (fun x => (x <= lastID (snd s))%Z) (snapshots (snd s)) ->
  StartTransaction WorkingImgDir s = ((Some snapshot, None), s1) ->
  CloseTransactionOnError snapshot s1 = (r, s2) ->
  r = None
  /\ fst (GetSnapshots s2) = fst (GetSnapshots s)
  /\ Btrfs.activeSnapshotID (fst s2) = Btrfs.activeSnapshotID (fst s).
Proof.
  intros Hff Hroot Hact Hids Hstart Hclose.
  destruct (StartTransaction_faultFree WorkingImgDir s Hff Hroot)
    as (sn & t1 & Hs & Hid & _ & Hst1 & Hset1 & Hact1).
  rewrite Hs in Hstart. injection Hstart as -> ->.
  assert (Hff1 : faultFree s1) by (eapply faultFree_setup; eauto).
  assert (Hroot1 : Btrfs.rootDir (fst s1) <> "") by (rewrite (rootDir_setup _ _ Hset1); exact Hroot).
  destruct (CloseTransactionOnError_faultFree snapshot s1 Hff1 Hroot1)
    as (t2 & Hc & Hst2 & Hset2 & Hact2).
  rewrite Hc in Hclose. injection Hclose as <- ->.
  unfold snapshotStore in Hst1. injection Hst1 as Hsn1 Hdef1.
  rewrite Hact1, Hdef1, Hsn1, Hid in *.
  assert (Hff2 : faultFree s2) by (eapply faultFree_setup; eauto).
  assert (Hroot2 : Btrfs.rootDir (fst s2) <> "") by (rewrite (rootDir_setup _ _ Hset2); exact Hroot1).
  destruct (GetSnapshots_faultFree s2 Hff2 Hroot2) as (t3 & Hg2 & _).
  destruct (GetSnapshots_faultFree s Hff Hroot) as (t0 & Hg0 & _).
  rewrite Hg2, Hg0. cbn [fst]. rewrite Hact2.
  unfold snapshotStore in Hst2. injection Hst2 as Hsn2 _. rewrite Hsn2.
  split; [reflexivity|].
  destruct (0 <? Btrfs.activeSnapshotID (fst s))%Z eqn:Epos.
  - rewrite <- Hact, Epos. split; [|reflexivity].
    rewrite filter_fresh; [reflexivity|].
    eapply Forall_impl; [exact Hids|]. intros x Hx. simpl in Hx. lia.
  - rewrite Epos. split; reflexivity.
Qed.

(** C1.  StartTransaction does not clean up after a failed bind mount: it
    asks for the deletion of snapshot 0, the value [newID] never leaves,
    so that the snapshot it has just created stays.  On a system that runs
    on snapshot 1, with a mounter whose Mount fails, GetSnapshots returns
    [1] before and [1; 2] after, the backend is asked for no deletion, and
    the deletion of snapshot 2 in the state reached would have removed it. *)
Theorem StartTransaction_leaves_snapshot_on_mount_failure :
  fst (GetSnapshots (Examples.btrfs1, Examples.world1 [OpMount])) = ([1%Z], None)
  /\ exists (e : string) (s' : Sys),
       StartTransaction Examples.workingImgDir (Examples.btrfs1, Examples.world1 [OpMount])
       = ((None, Some e), s')
       /\ fst (GetSnapshots s') = ([1%Z; 2%Z], None)
       /\ backendDeletes s' = []
       /\ fst (snapshotStore (snd (DeleteSnapshot 2 s'))) = [1%Z].
Proof.
  split; [vm_compute; reflexivity|].
  eexists _, _. split; [vm_compute; reflexivity|]. vm_compute. repeat split.
Qed.

(** The exit of StartTransaction on a failed MkdirAll runs no cleanup at
    all: the snapshot stays and nothing is asked of DeleteSnapshot, not
    even the listing it starts with. *)
Lemma StartTransaction_leaves_snapshot_on_mkdir_failure :
  exists (e : string) (s' : Sys),
    StartTransaction Examples.workingImgDir (Examples.btrfs1, Examples.world1 [OpMkdirAll])
    = ((None, Some e), s')
    /\ fst (snapshotStore s') = [1%Z; 2%Z]
    /\ map op (log (snd s')) = [OpCreateNewSnapshot; OpMkdirAll].
Proof. eexists _, _. split; [vm_compute; reflexivity|]. vm_compute. repeat split. Qed.


(** ** Partition lists *)

(** The loop of GetByName and GetByLabel in closed form. *)
Lemma getBy_spec (field : Partition.t -> string) (h : heap) (pl : PartitionList)
    (key : string) :
  allAllocated h pl ->
  forall part : option ptr,
    PartitionList.getBy field h pl key part
    = Ok (match firstMountedOrLast h (matching field h key pl) with
          | Some a => Some a
          | None => part
          end).
Proof.
  induction 1 as [|p pl (a & -> & Ha) _ IH]; intros part; [reflexivity|].
  destruct (valid_lookup h a Ha) as [v Hv].
  cbn [PartitionList.getBy]. rewrite (load_Some _ _ _ Hv). cbn [mbind outcome_bind obind].
  unfold matching. change (nonNil (Some a :: pl)) with (a :: nonNil pl).
  cbn [List.filter]. fold (matching field h key pl).
  assert (Hf : fieldAt field h a = field v) by (unfold fieldAt; rewrite Hv; reflexivity).
  assert (Hm : mounted h a = negb (Partition.MountPoint v =? ""))
    by (unfold mounted, fieldAt; rewrite Hv; reflexivity).
  rewrite Hf. destruct (field v =? key).
  - unfold firstMountedOrLast. cbn [find]. rewrite Hm.
    destruct (negb (Partition.MountPoint v =? "")); [reflexivity|].
    rewrite IH, last_cons. unfold firstMountedOrLast.
    destruct (find (mounted h) (matching field h key pl)); [reflexivity|].
    destruct (last (matching field h key pl)); reflexivity.
  - apply IH.
Qed.

Lemma firstMountedOrLast_None (h : heap) (l : list ptr) :
  firstMountedOrLast h l = None <-> l = [].
Proof.
  unfold firstMountedOrLast. destruct (find (mounted h) l) eqn:E.
  - split; [discriminate|]. intros ->. discriminate.
  - apply last_None.
Qed.

Lemma firstMountedOrLast_elem (h : heap) (l : list ptr) (a : ptr) :
  firstMountedOrLast h l = Some a -> a ∈ l.
Proof.
  unfold firstMountedOrLast. destruct (find (mounted h) l) eqn:E.
  - intros [= <-]. apply find_some in E. apply list_elem_of_In, E.
  - apply last_Some_elem_of.
Qed.

Lemma firstMountedOrLast_singleton (h : heap) (a : ptr) :
  firstMountedOrLast h [a] = Some a.
Proof. unfold firstMountedOrLast. cbn. destruct (mounted h a); reflexivity. Qed.

Lemma elem_of_nonNil (l : PartitionList) (a : ptr) : a ∈ nonNil l <-> Some a ∈ l.
Proof.
  unfold nonNil. rewrite list_elem_of_omap. split.
  - intros ([b|] & Hb & [= ->]). exact Hb.
  - intros H. exists (Some a). auto.
Qed.

Lemma nonNil_Some (l : list ptr) : nonNil (map Some l) = l.
Proof. induction l as [|a l IH]; [reflexivity|]. cbn. f_equal. exact IH. Qed.

Lemma elem_of_matching (field : Partition.t -> string) (h : heap) (key : string)
    (pl : PartitionList) (a : ptr) :
  a ∈ matching field h key pl <-> Some a ∈ pl /\ fieldAt field h a = key.
Proof.
  unfold matching.
  rewrite list_elem_of_In, List.filter_In, <- list_elem_of_In, elem_of_nonNil, String.eqb_eq.
  reflexivity.
Qed.

(** X1.  GetByName and GetByLabel return, among the partitions of the list
    that carry the name (the label), the first one that has a mount point
    and, when none has one, the last one; GetByName returns nil exactly
    when no partition of the list carries the name. *)
Theorem GetByName_first_mounted_or_last (h : heap) (pl : PartitionList) (key : string) :
  allAllocated h pl ->
  PartitionList.GetByName h pl key
  = Ok (firstMountedOrLast h (matching Partition.Name h key pl))
  /\ PartitionList.GetByLabel h pl key
     = Ok (firstMountedOrLast h (matching Partition.FilesystemLabel h key pl))
  /\ (PartitionList.GetByName h pl key = Ok None
      <-> forall a, Some a ∈ pl -> fieldAt Partition.Name h a <> key).
Proof.
  intros Hpl.
  assert (Hn : forall field,
             PartitionList.getBy field h pl key None
             = Ok (firstMountedOrLast h (matching field h key pl))).
  { intros field. rewrite (getBy_spec field h pl key Hpl).
    destruct (firstMountedOrLast _ _); reflexivity. }
  unfold PartitionList.GetByName, PartitionList.GetByLabel. rewrite !Hn.
  repeat split.
  - intros [= E] a Ha Hk. apply firstMountedOrLast_None in E.
    assert (Hin : a ∈ matching Partition.Name h key pl) by (apply elem_of_matching; auto).
    rewrite E in Hin. inversion Hin.
  - intros Hno. f_equal. apply firstMountedOrLast_None.
    destruct (matching Partition.Name h key pl) as [|a l] eqn:E; [reflexivity|].
    exfalso. assert (Hin : a ∈ matching Partition.Name h key pl) by (rewrite E; left).
    apply elem_of_matching in Hin. destruct Hin as [Hin Hk]. exact (Hno a Hin Hk).
Qed.

Lemma GetByName_first_mounted_or_last_witness :
  PartitionList.GetByName Examples.dataHeap [Some 0; Some 1; Some 2; Some 3] "p.data"
  = Ok (firstMountedOrLast Examples.dataHeap
          (matching Partition.Name Examples.dataHeap "p.data"
             [Some 0; Some 1; Some 2; Some 3]))
  /\ PartitionList.GetByLabel Examples.dataHeap [Some 0; Some 1; Some 2; Some 3] "p.data"
     = Ok (firstMountedOrLast Examples.dataHeap
             (matching Partition.FilesystemLabel Examples.dataHeap "p.data"
                [Some 0; Some 1; Some 2; Some 3]))
  /\ (PartitionList.GetByName Examples.dataHeap [Some 0; Some 1; Some 2; Some 3] "p.data"
      = Ok None
      <-> forall a, Some a ∈ [Some 0; Some 1; Some 2; Some 3] ->
                    fieldAt Partition.Name Examples.dataHeap a <> "p.data").
Proof.
  apply (GetByName_first_mounted_or_last Examples.dataHeap
           [Some 0; Some 1; Some 2; Some 3] "p.data").
  repeat constructor; eexists; (split; [reflexivity | simpl; lia]).
Defined.

(** The code run on the four partitions of [dataHeap]: the first mounted
    match wins over an earlier match without mount point, the last match
    is returned when none is mounted, a nil element of the list is
    dereferenced, and a match by name wins over a mounted match by label. *)
Example GetByName_examples :
  PartitionList.GetByName Examples.dataHeap [Some 0; Some 1; Some 2; Some 3] "p.data"
  = Ok (Some 1)
  /\ PartitionList.GetByName Examples.dataHeap [Some 0; Some 2] "p.data" = Ok (Some 0)
  /\ PartitionList.GetByName Examples.dataHeap [Some 0; Some 2] "p.none" = Ok None
  /\ PartitionList.GetByName Examples.dataHeap [Some 0; None] "p.none" = Panic
  /\ PartitionList.GetByNameOrLabel Examples.dataHeap [Some 2; Some 0] "p.data" "p.data"
     = Ok (Some 0)
  /\ PartitionList.GetByNameOrLabel Examples.dataHeap [Some 2; Some 0] "p.none" "p.data"
     = Ok (Some 2).
Proof. repeat split. Qed.

Lemma GetByNameOrLabel_spec (h : heap) (pl : PartitionList) (name label : string) :
  allAllocated h pl ->
  PartitionList.GetByNameOrLabel h pl name label
  = Ok (match matching Partition.Name h name pl with
        | [] => firstMountedOrLast h (matching Partition.FilesystemLabel h label pl)
        | named => firstMountedOrLast h named
        end).
Proof.
  intros Hpl. unfold PartitionList.GetByNameOrLabel, PartitionList.GetByName,
    PartitionList.GetByLabel.
  rewrite (getBy_spec _ h pl name Hpl). cbn [mbind outcome_bind obind].
  destruct (firstMountedOrLast h (matching Partition.Name h name pl)) as [a|] eqn:E.
  - destruct (matching Partition.Name h name pl) as [|b l] eqn:Em; [discriminate|].
    rewrite <- E. reflexivity.
  - apply firstMountedOrLast_None in E. rewrite E.
    rewrite (getBy_spec _ h pl label Hpl).
    destruct (firstMountedOrLast _ _); reflexivity.
Qed.

(** X2.  GetByNameOrLabel uses the label only when no partition of the list
    carries the name: as soon as one does, a partition with that name is
    returned, whatever the labels and the mount points of the others;
    when none does, the result is that of GetByLabel. *)
Theorem GetByNameOrLabel_name_first (h : heap) (pl : PartitionList) (name label : string) :
  allAllocated h pl ->
  exists r : option ptr,
    PartitionList.GetByNameOrLabel h pl name label = Ok r
    /\ ((exists a, Some a ∈ pl /\ fieldAt Partition.Name h a = name) ->
        exists b, r = Some b /\ Some b ∈ pl /\ fieldAt Partition.Name h b = name)
    /\ ((forall a, Some a ∈ pl -> fieldAt Partition.Name h a <> name) ->
        PartitionList.GetByLabel h pl label = Ok r).
Proof.
  intros Hpl. eexists. split; [apply GetByNameOrLabel_spec, Hpl|]. split.
  - intros (a & Ha & Hn).
    assert (Hin : a ∈ matching Partition.Name h name pl) by (apply elem_of_matching; auto).
    destruct (matching Partition.Name h name pl) as [|c l] eqn:E; [inversion Hin|].
    destruct (firstMountedOrLast h (c :: l)) as [b|] eqn:Eb.
    + exists b. split; [reflexivity|]. apply firstMountedOrLast_elem in Eb.
      rewrite <- E in Eb. apply elem_of_matching in Eb. exact Eb.
    + apply firstMountedOrLast_None in Eb. discriminate.
  - intros Hno.
    assert (E : matching Partition.Name h name pl = []).
    { destruct (matching Partition.Name h name pl) as [|c l] eqn:E; [reflexivity|].
      exfalso. assert (Hin : c ∈ matching Partition.Name h name pl) by (rewrite E; left).
      apply elem_of_matching in Hin. destruct Hin as [Hin Hk]. exact (Hno c Hin Hk). }
    rewrite E. unfold PartitionList.GetByLabel. rewrite (getBy_spec _ h pl label Hpl).
    destruct (firstMountedOrLast _ _); reflexivity.
Qed.

Lemma GetByNameOrLabel_name_first_witness :
  exists r : option ptr,
    PartitionList.GetByNameOrLabel Examples.dataHeap [Some 2; Some 0] "p.data" "p.data"
    = Ok r
    /\ ((exists a, Some a ∈ [Some 2; Some 0]
                   /\ fieldAt Partition.Name Examples.dataHeap a = "p.data") ->
        exists b, r = Some b /\ Some b ∈ [Some 2; Some 0]
                  /\ fieldAt Partition.Name Examples.dataHeap b = "p.data")
    /\ ((forall a, Some a ∈ [Some 2; Some 0] ->
                   fieldAt Partition.Name Examples.dataHeap a <> "p.data") ->
        PartitionList.GetByLabel Examples.dataHeap [Some 2; Some 0] "p.data" = Ok r).
Proof.
  apply (GetByNameOrLabel_name_first Examples.dataHeap [Some 2; Some 0] "p.data" "p.data").
  repeat constructor; eexists; (split; [reflexivity | simpl; lia]).
Defined.

(** X3.  Round trip of the layout through a partition list.  When every
    partition of the layout carries the default name and label of its
    slot, the list PartitionsByInstallOrder makes of the layout gives the
    layout back through NewElementalPartitionsFromList (without install
    state): each partition is found by its name, and a slot that is nil
    stays nil because no partition carries its name or its label. *)
Theorem NewElementalPartitionsFromList_PartitionsByInstallOrder
    (ep : ElementalPartitions.t) (h : heap) :
  wellNamed h ep ->
  exists parts : list ptr,
    types.PartitionsByInstallOrder ep h [] [] = Ok parts
    /\ NewElementalPartitionsFromList h (map Some parts) None = Ok ep.
Proof.
  intros Hw. exists (allSlots ep).
  unfold wellNamed, slotNames in Hw.
  apply Forall_cons in Hw as [Hbios Hw]. apply Forall_cons in Hw as [Hboot Hw].
  apply Forall_cons in Hw as [Hoem Hw]. apply Forall_cons in Hw as [Hrec Hw].
  apply Forall_cons in Hw as [Hst Hw]. apply Forall_cons in Hw as [Hper _].
  cbn [fst snd] in *.
  split.
  { apply PartitionsByInstallOrder_no_extras.
    destruct (Persistent ep); [simpl; tauto | exact I]. }
  assert (Hall : allAllocated h (map Some (allSlots ep))).
  { unfold allSlots, fixedSlots.
    destruct (BIOS ep), (Boot ep), (OEM ep), (Recovery ep), (State ep), (Persistent ep);
      cbn; repeat constructor; eexists; (split; [reflexivity | tauto]). }
  unfold NewElementalPartitionsFromList, PartitionList.GetByName. cbv zeta.
  rewrite (getBy_spec _ _ _ _ Hall), !(GetByNameOrLabel_spec _ _ _ _ Hall).
  unfold matching. rewrite nonNil_Some.
  change (default "" (labelsByName None !! constants.BootPartName)) with constants.BootLabel.
  change (default "" (labelsByName None !! constants.OEMPartName)) with constants.OEMLabel.
  change (default "" (labelsByName None !! constants.RecoveryPartName))
    with constants.RecoveryLabel.
  change (default "" (labelsByName None !! constants.StatePartName)) with constants.StateLabel.
  change (default "" (labelsByName None !! constants.PersistentPartName))
    with constants.PersistentLabel.
  destruct ep as [[b|] [bo|] [o|] [r|] [s|] [p|]];
    cbn [BIOS Boot OEM Recovery State Persistent] in *;
    repeat match goal with
           | H : _ /\ _ /\ _ |- _ => destruct H as (_ & ? & ?)
           end;
    cbn;
    repeat match goal with
           | H : fieldAt _ _ _ = _ |- _ => rewrite !H; clear H
           end;
    cbn; rewrite ?firstMountedOrLast_singleton; reflexivity.
Qed.

Lemma NewElementalPartitionsFromList_PartitionsByInstallOrder_witness :
  exists parts : list ptr,
    types.PartitionsByInstallOrder Examples.defaultLayout Examples.defaultHeap [] []
    = Ok parts
    /\ NewElementalPartitionsFromList Examples.defaultHeap (map Some parts) None
       = Ok Examples.defaultLayout.
Proof.
  apply (NewElementalPartitionsFromList_PartitionsByInstallOrder
           Examples.defaultLayout Examples.defaultHeap).
  repeat constructor; simpl; lia.
Defined.

(** The labels the install state records take the place of the default
    ones: a state partition that has neither the default name nor the
    default label is found through the label recorded for [p.state], and
    a partition that carries the default label is then not taken. *)
Example NewElementalPartitionsFromList_state_label :
  let h := [Examples.part "custom" 1024 "/run/elemental/state";
            Partition.mk "other" constants.StateLabel 64 "ext4" [] "/mnt" "" ""] in
  let h' := [Partition.mk "custom" "MY_STATE" 1024 "ext4" [] "/run/elemental/state" "" "";
             Partition.mk "other" constants.StateLabel 64 "ext4" [] "/mnt" "" ""] in
  (ep ← NewElementalPartitionsFromList h [Some 0; Some 1] None; Ok (State ep))
  = Ok (Some 1)
  /\ (ep ← NewElementalPartitionsFromList h' [Some 0; Some 1]
              (Some (Examples.installState "MY_STATE"));
      Ok (State ep)) = Ok (Some 0).
Proof. vm_compute. split; reflexivity. Qed.


(** ** Install order with excludes *)

Lemma appendSlot_kept (slot : option ptr) (excludes : PartitionList)
    (partitions : list ptr) :
  types.appendSlot slot excludes partitions = partitions ++ kept excludes (nonNil [slot]).
Proof.
  destruct slot as [a|]; simpl; [|symmetry; apply app_nil_r].
  unfold kept. change (nonNil [Some a]) with [a]. cbn [List.filter].
  destruct (negb (types.inExcludes a excludes)); [reflexivity | symmetry; apply app_nil_r].
Qed.

Lemma fixedSlots_kept (excludes : PartitionList) (ep : ElementalPartitions.t) :
  ((((kept excludes (nonNil [BIOS ep]) ++ kept excludes (nonNil [Boot ep]))
       ++ kept excludes (nonNil [OEM ep]))
      ++ kept excludes (nonNil [Recovery ep])) ++ kept excludes (nonNil [State ep]))
  = kept excludes (fixedSlots ep).
Proof.
  unfold kept, fixedSlots. rewrite <- !List.filter_app. f_equal.
  destruct (BIOS ep), (Boot ep), (OEM ep), (Recovery ep), (State ep); reflexivity.
Qed.

(** PartitionsByInstallOrder in closed form, for any excludes. *)
Lemma PartitionsByInstallOrder_excludes_spec (ep : ElementalPartitions.t) (h : heap)
    (extra excludes : PartitionList) :
  valid h (Persistent ep) -> allAllocated h extra ->
  let g := kept excludes (nonNil [Persistent ep]) ++ nonNil extra in
  types.PartitionsByInstallOrder ep h extra excludes =
  Ok (kept excludes (fixedSlots ep)
      ++ List.filter (fun a => negb (zeroSize h a)) g
      ++ take 1 (List.filter (zeroSize h) g)).
Proof.
  intros Hp Hx g. subst g. unfold types.PartitionsByInstallOrder.
  rewrite !appendSlot_kept. cbn [app]. rewrite fixedSlots_kept.
  destruct (Persistent ep) as [a|] eqn:Ea.
  - change (nonNil [Some a]) with [a].
    assert (Hk : kept excludes [a]
                 = if negb (types.inExcludes a excludes) then [a] else []) by reflexivity.
    rewrite Hk. clear Hk.
    destruct (negb (types.inExcludes a excludes)).
    + destruct (valid_lookup h a Hp) as [v Hv].
      rewrite (load_Some _ _ _ Hv).
      cbn [mbind outcome_bind obind]. rewrite (zeroSize_load _ _ _ Hv).
      cbn [app List.filter].
      destruct (zeroSize h a); cbn [negb mbind outcome_bind obind];
        rewrite (extrasLoop_spec h extra Hx); cbn [mbind outcome_bind obind].
      * rewrite <- app_assoc. reflexivity.
      * rewrite <- !app_assoc. cbn [app].
        destruct (List.filter (zeroSize h) (nonNil extra)); cbn [head take];
          rewrite ?take_0, ?app_nil_r, <- ?app_assoc; reflexivity.
    + cbn [mbind outcome_bind obind app]. rewrite (extrasLoop_spec h extra Hx).
      cbn [mbind outcome_bind obind].
      destruct (List.filter (zeroSize h) (nonNil extra)); cbn [head take];
        rewrite ?take_0, ?app_nil_r, <- ?app_assoc; reflexivity.
  - cbn [mbind outcome_bind obind]. rewrite (extrasLoop_spec h extra Hx).
    cbn [mbind outcome_bind obind].
    change (nonNil [None]) with (@nil ptr).
    change (kept excludes []) with (@nil ptr). cbn [app].
    destruct (List.filter (zeroSize h) (nonNil extra)); cbn [head take];
      rewrite ?take_0, ?app_nil_r, <- ?app_assoc; reflexivity.
Qed.

Lemma elem_of_kept (excludes : PartitionList) (l : list ptr) (a : ptr) :
  a ∈ kept excludes l <-> a ∈ l /\ types.inExcludes a excludes = false.
Proof.
  unfold kept. rewrite list_elem_of_In, List.filter_In, <- list_elem_of_In.
  rewrite negb_true_iff. reflexivity.
Qed.

(** X4.  The excludes of PartitionsByInstallOrder apply to the six slots of
    the layout and not to the extra partitions: the result is the slots
    that are kept, the system ones first, then the persistent and extra
    partitions of non-zero size, then the first of those of size 0; a
    partition of the result that is among the excludes comes from the
    extra partitions. *)
Theorem PartitionsByInstallOrder_excludes (ep : ElementalPartitions.t) (h : heap)
    (extra excludes : PartitionList) :
  valid h (Persistent ep) -> allAllocated h extra ->
  exists parts : list ptr,
    types.PartitionsByInstallOrder ep h extra excludes = Ok parts
    /\ parts
       = kept excludes (fixedSlots ep)
         ++ List.filter (fun a => negb (zeroSize h a))
              (kept excludes (nonNil [Persistent ep]) ++ nonNil extra)
         ++ take 1 (List.filter (zeroSize h)
                      (kept excludes (nonNil [Persistent ep]) ++ nonNil extra))
    /\ (forall a, a ∈ parts -> types.inExcludes a excludes = true -> Some a ∈ extra).
Proof.
  intros Hp Hx. eexists. split; [apply PartitionsByInstallOrder_excludes_spec; assumption|].
  cbv zeta. split; [reflexivity|].
  assert (Hg : forall a, a ∈ kept excludes (nonNil [Persistent ep]) ++ nonNil extra ->
                         types.inExcludes a excludes = true -> Some a ∈ extra).
  { intros a Ha Hex. apply elem_of_app in Ha. destruct Ha as [Ha|Ha].
    - apply elem_of_kept in Ha. destruct Ha as [_ Ha]. congruence.
    - apply elem_of_nonNil, Ha. }
  intros a. rewrite !elem_of_app. intros [H|[H|H]] Hex.
  - apply elem_of_kept in H. destruct H as [_ H]. congruence.
  - apply list_elem_of_In, List.filter_In in H. destruct H as [H _].
    apply Hg; [apply list_elem_of_In, H | exact Hex].
  - apply elem_of_take in H. destruct H as (i & H & _).
    apply list_elem_of_lookup_2 in H.
    apply list_elem_of_In, List.filter_In in H. destruct H as [H _].
    apply Hg; [apply list_elem_of_In, H | exact Hex].
Qed.

Lemma PartitionsByInstallOrder_excludes_witness :
  exists parts : list ptr,
    types.PartitionsByInstallOrder Examples.layout3 Examples.extraHeap [Some 3]
      [Some 2; Some 3] = Ok parts
    /\ parts
       = kept [Some 2; Some 3] (fixedSlots Examples.layout3)
         ++ List.filter (fun a => negb (zeroSize Examples.extraHeap a))
              (kept [Some 2; Some 3] (nonNil [Persistent Examples.layout3])
               ++ nonNil [Some 3])
         ++ take 1 (List.filter (zeroSize Examples.extraHeap)
                      (kept [Some 2; Some 3] (nonNil [Persistent Examples.layout3])
                       ++ nonNil [Some 3]))
    /\ (forall a, a ∈ parts -> types.inExcludes a [Some 2; Some 3] = true ->
                  Some a ∈ [Some 3]).
Proof.
  apply (PartitionsByInstallOrder_excludes Examples.layout3 Examples.extraHeap [Some 3]
           [Some 2; Some 3]).
  - simpl. lia.
  - repeat constructor. eexists. split; [reflexivity | simpl; lia].
Defined.

(** The code run on that input: the persistent partition is left out,
    the extra partition is returned although it is among the excludes. *)
Example PartitionsByInstallOrder_excluded_extra :
  types.PartitionsByInstallOrder Examples.layout3 Examples.extraHeap [Some 3]
    [Some 2; Some 3] = Ok [0; 1; 3].
Proof. reflexivity. Qed.


(** ** Partitions by mount point *)

(** The order of the bytes on strings is transitive, and a string comes
    before the strings it is a prefix of. *)
Lemma String_leb_trans (a b c : string) :
  String.leb a b = true -> String.leb b c = true -> String.leb a c = true.
Proof.
  unfold String.leb. revert b c.
  induction a as [|x a IH]; intros [|y b] [|z c]; simpl; try congruence.
  unfold Ascii.compare.
  destruct (N.compare_spec (N_of_ascii x) (N_of_ascii y)) as [Hxy|Hxy|Hxy];
    destruct (N.compare_spec (N_of_ascii y) (N_of_ascii z)) as [Hyz|Hyz|Hyz];
    try congruence.
  - rewrite Hxy, Hyz, N.compare_refl. apply IH.
  - rewrite Hxy. apply N.compare_lt_iff in Hyz. rewrite Hyz. reflexivity.
  - rewrite <- Hyz. apply N.compare_lt_iff in Hxy. rewrite Hxy. reflexivity.
  - assert (H : (N_of_ascii x < N_of_ascii z)%N) by lia.
    apply N.compare_lt_iff in H. rewrite H. reflexivity.
Qed.

Lemma String_leb_refl (a : string) : String.leb a a = true.
Proof. destruct (String.leb_total a a); assumption. Qed.

Lemma String_leb_append (a b : string) : String.leb a (a ++ b) = true.
Proof.
  unfold String.leb. induction a as [|x a IH]; simpl.
  - destruct b; reflexivity.
  - unfold Ascii.compare. rewrite N.compare_refl. exact IH.
Qed.

Lemma mountOrder_trans (descending : bool) (a b c : string) :
  mountOrder descending a b -> mountOrder descending b c -> mountOrder descending a c.
Proof.
  unfold mountOrder. destruct descending; intros H1 H2.
  - eapply String_leb_trans; eauto.
  - eapply String_leb_trans; eauto.
Qed.

Lemma ltb_leb (a b : string) : String.ltb a b = true -> String.leb a b = true.
Proof.
  unfold String.ltb, String.leb. destruct (String.compare a b); simpl; intros H;
    first [reflexivity | exact H | discriminate H].
Qed.

Lemma not_ltb_leb (a b : string) : String.ltb a b = false -> String.leb b a = true.
Proof.
  unfold String.ltb, String.leb. rewrite (String.compare_antisym a b).
  destruct (String.compare b a); simpl; intros H;
    first [reflexivity | exact H | discriminate H].
Qed.

(** The two sorts of PartitionsByMountPoint give a slice in the order asked for. *)
Lemma insertBy_mountOrder (descending : bool) (x : string) (l : list string) :
  StronglySorted (mountOrder descending) l ->
  StronglySorted (mountOrder descending)
    (MountSpec.insertBy (if descending then fun a b => String.ltb b a else String.ltb) x l).
Proof.
  induction 1 as [|y l Hs IH Hy]; simpl.
  - repeat constructor.
  - destruct ((if descending then fun a b => String.ltb b a else String.ltb) y x) eqn:E.
    + constructor; [exact IH|].
      rewrite List.Forall_forall in *. intros z Hz.
      apply (Permutation_in _ (insertBy_perm _ x l)) in Hz.
      destruct Hz as [<-|Hz]; [|auto].
      unfold mountOrder. destruct descending; apply ltb_leb, E.
    + assert (Hxy : mountOrder descending x y).
      { unfold mountOrder. destruct descending; apply not_ltb_leb, E. }
      constructor; [constructor; assumption|].
      constructor; [exact Hxy|].
      rewrite List.Forall_forall in *. intros z Hz.
      eapply mountOrder_trans; [exact Hxy | auto].
Qed.

Lemma sort_mountOrder (descending : bool) (l : list string) :
  StronglySorted (mountOrder descending)
    (if descending then sort_Reverse_Strings l else sort_Strings l).
Proof.
  assert (H : StronglySorted (mountOrder descending)
                (MountSpec.insertionSort
                   (if descending then fun a b => String.ltb b a else String.ltb) l)).
  { induction l as [|x l IH]; simpl; [constructor|]. apply insertBy_mountOrder, IH. }
  destruct descending; exact H.
Qed.

Lemma sort_perm (descending : bool) (l : list string) :
  Permutation (if descending then sort_Reverse_Strings l else sort_Strings l) l.
Proof. destruct descending; apply insertionSort_perm. Qed.

Lemma mountPointsLoop_spec (h : heap) (parts : list ptr) :
  Forall (fun a => a < length h) parts ->
  forall (keys : gmap string ptr) (mountPoints : list string),
    mountPointsLoop h parts keys mountPoints
    = Ok (foldl (fun k a => <[mountPointAt h a := a]> k) keys
            (List.filter (mounted h) parts),
          mountPoints ++ map (mountPointAt h) (List.filter (mounted h) parts)).
Proof.
  induction 1 as [|a parts Ha _ IH]; intros keys mountPoints.
  - simpl. rewrite app_nil_r. reflexivity.
  - destruct (valid_lookup h a Ha) as [v Hv].
    cbn [mountPointsLoop]. rewrite (load_Some _ _ _ Hv). cbn [mbind outcome_bind obind].
    assert (Hm : mountPointAt h a = Partition.MountPoint v)
      by (unfold mountPointAt, fieldAt; rewrite Hv; reflexivity).
    assert (Hmo : mounted h a = negb (Partition.MountPoint v =? ""))
      by (unfold mounted, fieldAt; rewrite Hv; reflexivity).
    cbn [List.filter]. rewrite Hmo.
    destruct (negb (Partition.MountPoint v =? "")).
    + rewrite IH. cbn [foldl map]. rewrite Hm, <- app_assoc. reflexivity.
    + apply IH.
Qed.

Lemma foldl_insert_lookup (h : heap) (l : list ptr) (mnt : string) :
  forall keys : gmap string ptr,
    foldl (fun k a => <[mountPointAt h a := a]> k) keys l !! mnt
    = match last (List.filter (fun a => mountPointAt h a =? mnt) l) with
      | Some a => Some a
      | None => keys !! mnt
      end.
Proof.
  induction l as [|a l IH]; intros keys; [reflexivity|].
  cbn [foldl List.filter]. rewrite IH.
  destruct (mountPointAt h a =? mnt) eqn:E.
  - apply String.eqb_eq in E. rewrite last_cons, E, lookup_insert_eq.
    destruct (last _); reflexivity.
  - apply String.eqb_neq in E. rewrite lookup_insert_ne by exact E. reflexivity.
Qed.

Lemma PartitionsByInstallOrder_kept (ep : ElementalPartitions.t) (h : heap)
    (excludes : PartitionList) :
  valid h (Persistent ep) ->
  types.PartitionsByInstallOrder ep h [] excludes = Ok (kept excludes (allSlots ep)).
Proof.
  intros Hp.
  rewrite (PartitionsByInstallOrder_excludes_spec ep h [] excludes Hp) by constructor.
  cbv zeta. change (nonNil []) with (@nil ptr). rewrite app_nil_r.
  unfold allSlots, kept. rewrite List.filter_app. do 2 f_equal.
  destruct (Persistent ep) as [a|]; [|reflexivity].
  change (nonNil [Some a]) with [a]. cbn [List.filter].
  destruct (negb (types.inExcludes a excludes)); [|reflexivity].
  cbn [List.filter]. destruct (zeroSize h a); reflexivity.
Qed.

(** What PartitionsByMountPoint returns: for each mount point of the
    sorted slice, the last partition in install order mounted there. *)
Lemma PartitionsByMountPoint_spec (ep : ElementalPartitions.t) (h : heap)
    (descending : bool) (excludes : PartitionList) :
  Forall (fun a => a < length h) (allSlots ep) ->
  let parts := kept excludes (allSlots ep) in
  PartitionsByMountPoint ep h descending excludes
  = Ok (map (lastMountedAt h parts)
          ((if descending then sort_Reverse_Strings else sort_Strings)
             (map (mountPointAt h) (List.filter (mounted h) parts)))).
Proof.
  intros Hall parts. unfold PartitionsByMountPoint.
  rewrite PartitionsByInstallOrder_kept by (apply allSlots_persistent_valid, Hall).
  cbn [mbind outcome_bind obind]. fold parts.
  rewrite mountPointsLoop_spec.
  2:{ rewrite List.Forall_forall in *. intros a Ha. apply Hall.
      apply list_elem_of_In, elem_of_kept in Ha. apply list_elem_of_In, Ha. }
  cbn [mbind outcome_bind obind app]. f_equal.
  assert (Hk : forall mnt,
             foldl (fun k a => <[mountPointAt h a := a]> k) (∅ : gmap string ptr)
               (List.filter (mounted h) parts) !! mnt
             = lastMountedAt h parts mnt).
  { intros mnt. rewrite foldl_insert_lookup. unfold lastMountedAt.
    destruct (last _); [reflexivity | apply lookup_empty]. }
  destruct descending; apply map_ext; intros mnt; apply Hk.
Qed.

Lemma lastMountedAt_Some (h : heap) (parts : list ptr) (mnt : string) (a : ptr) :
  lastMountedAt h parts mnt = Some a ->
  a ∈ parts /\ mounted h a = true /\ mountPointAt h a = mnt.
Proof.
  unfold lastMountedAt. intros H. apply last_Some_elem_of in H.
  apply list_elem_of_In, List.filter_In in H. destruct H as [H Hm].
  apply List.filter_In in H. destruct H as [H Hmo].
  apply String.eqb_eq in Hm. apply list_elem_of_In in H. auto.
Qed.

Lemma lastMountedAt_is_Some (h : heap) (parts : list ptr) (mnt : string) :
  mnt ∈ map (mountPointAt h) (List.filter (mounted h) parts) ->
  is_Some (lastMountedAt h parts mnt).
Proof.
  intros H. apply list_elem_of_In, in_map_iff in H. destruct H as (a & Hm & Ha).
  unfold lastMountedAt. apply last_is_Some. intros E.
  assert (Hin : In a (List.filter (fun a => mountPointAt h a =? mnt)
                        (List.filter (mounted h) parts))).
  { apply List.filter_In. split; [exact Ha | apply String.eqb_eq, Hm]. }
  rewrite E in Hin. destruct Hin.
Qed.

Lemma map_lastMountedAt (h : heap) (parts : list ptr) (ms : list string) :
  Forall (fun m => m ∈ map (mountPointAt h) (List.filter (mounted h) parts)) ms ->
  exists l : list ptr,
    map (lastMountedAt h parts) ms = map Some l /\ map (mountPointAt h) l = ms
    /\ Forall (fun a => lastMountedAt h parts (mountPointAt h a) = Some a) l.
Proof.
  induction 1 as [|m ms Hm _ (l & H1 & H2 & H3)]; [exists []; repeat split; constructor|].
  destruct (lastMountedAt_is_Some _ _ _ Hm) as [a Ha].
  destruct (lastMountedAt_Some _ _ _ _ Ha) as (_ & _ & Hmp).
  exists (a :: l). cbn [map]. rewrite H1, H2, Ha, Hmp. repeat split.
  constructor; [rewrite Hmp; exact Ha | exact H3].
Qed.

Lemma lastMountedAt_NoDup (h : heap) (parts : list ptr) :
  NoDup (map (mountPointAt h) (List.filter (mounted h) parts)) ->
  forall a, a ∈ List.filter (mounted h) parts ->
            lastMountedAt h parts (mountPointAt h a) = Some a.
Proof.
  unfold lastMountedAt. induction (List.filter (mounted h) parts) as [|b l IH];
    intros Hnd a Ha; [inversion Ha|].
  cbn [map] in Hnd. apply NoDup_cons in Hnd as [Hb Hnd].
  cbn [List.filter]. apply elem_of_cons in Ha as [->|Ha].
  - rewrite String.eqb_refl, last_cons.
    assert (E : List.filter (fun a => mountPointAt h a =? mountPointAt h b) l = []).
    { destruct (List.filter _ l) as [|c l'] eqn:E; [reflexivity|]. exfalso.
      assert (Hc : In c (List.filter (fun a => mountPointAt h a =? mountPointAt h b) l))
        by (rewrite E; left; reflexivity).
      apply List.filter_In in Hc. destruct Hc as [Hc Hm]. apply String.eqb_eq in Hm.
      apply Hb. rewrite <- Hm. apply list_elem_of_In, in_map, Hc. }
    rewrite E. reflexivity.
  - assert (Hne : (mountPointAt h b =? mountPointAt h a) = false).
    { apply String.eqb_neq. intros E. apply Hb. rewrite E.
      apply list_elem_of_In, in_map, list_elem_of_In, Ha. }
    rewrite Hne. apply IH; assumption.
Qed.

Lemma StronglySorted_map {A B : Type} (R : B -> B -> Prop) (f : A -> B) (l : list A) :
  StronglySorted R (map f l) -> StronglySorted (fun a b => R (f a) (f b)) l.
Proof.
  induction l as [|x l IH]; intros H; [constructor|].
  cbn [map] in H. apply StronglySorted_inv in H as [H1 H2].
  constructor; [apply IH, H1|].
  rewrite List.Forall_forall in *. intros y Hy. apply H2, in_map, Hy.
Qed.

(** X5.  PartitionsByMountPoint returns partitions of the layout that are not
    excluded and have a mount point, in the order of their mount points,
    increasing or decreasing as asked; the mount points of the result are
    those of the mounted partitions, each as often; an element of the
    result is the last partition in install order mounted at its mount
    point, so that of two partitions that share a mount point only the
    later one is returned (twice); when the mount points are pairwise
    distinct the result is a permutation of the mounted partitions. *)
Theorem PartitionsByMountPoint_sorted (ep : ElementalPartitions.t) (h : heap)
    (descending : bool) (excludes : PartitionList) :
  Forall (fun a => a < length h) (allSlots ep) ->
  let parts := kept excludes (allSlots ep) in
  exists l : list ptr,
    PartitionsByMountPoint ep h descending excludes = Ok (map Some l)
    /\ StronglySorted
         (fun a b => mountOrder descending (mountPointAt h a) (mountPointAt h b)) l
    /\ Permutation (map (mountPointAt h) l)
         (map (mountPointAt h) (List.filter (mounted h) parts))
    /\ Forall (fun a => lastMountedAt h parts (mountPointAt h a) = Some a) l
    /\ (NoDup (map (mountPointAt h) (List.filter (mounted h) parts)) ->
        Permutation l (List.filter (mounted h) parts)).
Proof.
  intros Hall parts.
  rewrite (PartitionsByMountPoint_spec ep h descending excludes Hall). fold parts.
  set (ms := map (mountPointAt h) (List.filter (mounted h) parts)).
  assert (Hs : StronglySorted (mountOrder descending)
                 ((if descending then sort_Reverse_Strings else sort_Strings) ms))
    by (pose proof (sort_mountOrder descending ms) as H; destruct descending; exact H).
  assert (Hp : Permutation ((if descending then sort_Reverse_Strings else sort_Strings) ms) ms)
    by (pose proof (sort_perm descending ms) as H; destruct descending; exact H).
  set (sorted := (if descending then sort_Reverse_Strings else sort_Strings) ms) in *.
  destruct (map_lastMountedAt h parts sorted) as (l & H1 & H2 & H3).
  { rewrite List.Forall_forall. intros m Hm. apply list_elem_of_In.
    eapply Permutation_in; [exact Hp | exact Hm]. }
  exists l. rewrite H1. split; [reflexivity|].
  split; [apply StronglySorted_map; rewrite H2; exact Hs|].
  split; [rewrite H2; exact Hp|]. split; [exact H3|].
  intros Hnd.
  assert (Hmap : map (lastMountedAt h parts) ms = map Some (List.filter (mounted h) parts)).
  { subst ms. rewrite List.map_map. apply map_ext_in. intros a Ha.
    apply lastMountedAt_NoDup; [exact Hnd | apply list_elem_of_In, Ha]. }
  rewrite <- (nonNil_Some l), <- (nonNil_Some (List.filter (mounted h) parts)).
  rewrite <- H1, <- Hmap. unfold nonNil. apply omap_Permutation.
  apply Permutation_map, Hp.
Qed.

Lemma PartitionsByMountPoint_sorted_witness :
  exists l : list ptr,
    PartitionsByMountPoint Examples.defaultLayout Examples.defaultHeap true [Some 1]
    = Ok (map Some l)
    /\ StronglySorted
         (fun a b => mountOrder true (mountPointAt Examples.defaultHeap a)
                       (mountPointAt Examples.defaultHeap b)) l
    /\ Permutation (map (mountPointAt Examples.defaultHeap) l)
         (map (mountPointAt Examples.defaultHeap)
            (List.filter (mounted Examples.defaultHeap)
               (kept [Some 1] (allSlots Examples.defaultLayout))))
    /\ Forall (fun a => lastMountedAt Examples.defaultHeap
                          (kept [Some 1] (allSlots Examples.defaultLayout))
                          (mountPointAt Examples.defaultHeap a) = Some a) l
    /\ (NoDup (map (mountPointAt Examples.defaultHeap)
                 (List.filter (mounted Examples.defaultHeap)
                    (kept [Some 1] (allSlots Examples.defaultLayout)))) ->
        Permutation l (List.filter (mounted Examples.defaultHeap)
                         (kept [Some 1] (allSlots Examples.defaultLayout)))).
Proof.
  apply (PartitionsByMountPoint_sorted Examples.defaultLayout Examples.defaultHeap true
           [Some 1]).
  vm_compute. repeat constructor.
Defined.

(** The code run on the default layout, whose recovery partition has no
    mount point, and on a layout whose OEM and state partitions share a
    mount point: the state partition is returned twice, the OEM partition
    not at all. *)
Example PartitionsByMountPoint_examples :
  PartitionsByMountPoint Examples.defaultLayout Examples.defaultHeap false []
  = Ok [Some 0; Some 1; Some 3; Some 4]
  /\ PartitionsByMountPoint Examples.defaultLayout Examples.defaultHeap true [Some 1]
     = Ok [Some 4; Some 3; Some 0]
  /\ PartitionsByMountPoint Examples.layout3
       [Examples.part constants.OEMPartName 64 "/mnt";
        Examples.part constants.StatePartName 1024 "/mnt";
        Examples.part constants.PersistentPartName 0 "/data"] false []
     = Ok [Some 2; Some 1; Some 1].
Proof. vm_compute. repeat split. Qed.

(** X6.  Mount order.  In the result of PartitionsByMountPoint a partition
    mounted at a directory comes before every partition mounted below
    that directory when the order is increasing, and after it when the
    order is decreasing: the partitions can be mounted in the first order
    and unmounted in the second. *)
Theorem PartitionsByMountPoint_parent_first (ep : ElementalPartitions.t) (h : heap)
    (descending : bool) (excludes l : PartitionList) (i j : nat) (a b : ptr)
    (rest : string) :
  Forall (fun a => a < length h) (allSlots ep) ->
  PartitionsByMountPoint ep h descending excludes = Ok l ->
  l !! i = Some (Some a) -> l !! j = Some (Some b) ->
  mountPointAt h b = (mountPointAt h a ++ "/" ++ rest)%string ->
  if descending then j < i else i < j.
Proof.
  intros Hall Hl Hi Hj Hab.
  rewrite (PartitionsByMountPoint_spec ep h descending excludes Hall) in Hl.
  injection Hl as <-.
  set (parts := kept excludes (allSlots ep)) in *.
  set (ms := map (mountPointAt h) (List.filter (mounted h) parts)) in *.
  assert (Hs : StronglySorted (mountOrder descending)
                 ((if descending then sort_Reverse_Strings else sort_Strings) ms))
    by (pose proof (sort_mountOrder descending ms) as H; destruct descending; exact H).
  set (sorted := (if descending then sort_Reverse_Strings else sort_Strings) ms) in *.
  rewrite list_lookup_fmap in Hi, Hj.
  destruct (sorted !! i) as [mi|] eqn:Ei; [|discriminate].
  destruct (sorted !! j) as [mj|] eqn:Ej; [|discriminate].
  cbn in Hi, Hj. injection Hi as Hi. injection Hj as Hj.
  apply lastMountedAt_Some in Hi as (_ & _ & Hi).
  apply lastMountedAt_Some in Hj as (_ & _ & Hj).
  subst mi mj.
  assert (Hle : String.leb (mountPointAt h a) (mountPointAt h b) = true)
    by (rewrite Hab; apply String_leb_append).
  assert (Hne : mountPointAt h a <> mountPointAt h b)
    by (rewrite Hab; intros E; exact (append_longer _ _ E)).
  assert (Hij : i <> j) by (intros ->; rewrite Ei in Ej; injection Ej as E; auto).
  destruct descending.
  - destruct (Nat.lt_trichotomy i j) as [Hlt|[Heq|Hgt]]; [|contradiction|exact Hgt].
    exfalso. apply Hne.
    pose proof (StronglySorted_lookup _ _ Hs i j _ _ Ei Ej Hlt) as H.
    unfold mountOrder in H. apply String.leb_antisym; assumption.
  - destruct (Nat.lt_trichotomy i j) as [Hlt|[Heq|Hgt]]; [exact Hlt|contradiction|].
    exfalso. apply Hne.
    pose proof (StronglySorted_lookup _ _ Hs j i _ _ Ej Ei Hgt) as H.
    unfold mountOrder in H. apply String.leb_antisym; assumption.
Qed.

Lemma PartitionsByMountPoint_parent_first_witness :
  PartitionsByMountPoint Examples.defaultLayout Examples.defaultHeap false []
  = Ok [Some 0; Some 1; Some 3; Some 4]
  /\ 2 < 3.
Proof.
  split; [vm_compute; reflexivity|].
  apply (PartitionsByMountPoint_parent_first Examples.defaultLayout Examples.defaultHeap
           false [] [Some 0; Some 1; Some 3; Some 4] 2 3 3 4 "persistent").
  - vm_compute. repeat constructor.
  - vm_compute. reflexivity.
  - reflexivity.
  - reflexivity.
  - reflexivity.
Defined.


(** ** More on the Sanitize methods *)

Lemma defaultRecoveryLabel_consistent (r : Image.t) :
  labelConsistent (defaultRecoveryLabel r)
  /\ Image.Source (defaultRecoveryLabel r) = Image.Source r.
Proof.
  unfold labelConsistent, defaultRecoveryLabel.
  destruct (Image.FS r =? constants.SquashFs) eqn:Efs; cbn [negb andb].
  - cbn [Image.setLabel Image.FS Image.Label Image.Source]. rewrite Efs. auto.
  - destruct (Image.Label r =? "") eqn:El;
      cbn [Image.setLabel Image.FS Image.Label Image.Source]; rewrite Efs;
      (split; [|reflexivity]).
    + discriminate.
    + apply String.eqb_neq, El.
Qed.

Lemma defaultRecoveryLabel_idempotent (r : Image.t) :
  defaultRecoveryLabel (defaultRecoveryLabel r) = defaultRecoveryLabel r.
Proof.
  unfold defaultRecoveryLabel.
  destruct (Image.FS r =? constants.SquashFs) eqn:Efs; cbn [negb andb].
  - cbn [Image.setLabel Image.FS Image.Label Image.Source]. rewrite Efs. reflexivity.
  - destruct (Image.Label r =? "") eqn:El;
      cbn [Image.setLabel Image.FS Image.Label Image.Source]; rewrite Efs; cbn [negb andb].
    + reflexivity.
    + rewrite El. reflexivity.
Qed.


(** X7.  What every Sanitize that accepts a spec leaves in its recovery image:
    a label that agrees with the file system (none on squashfs, one on
    any other), and a source that is not empty whenever the recovery
    image is to be deployed: for an install without ISO, for an upgrade
    of the recovery system, and for a disk. *)
Theorem Sanitize_recovery_label (h : heap) :
  (forall (i i' : InstallSpec.t) (h' : heap),
      InstallSpec.Sanitize i h = Ok (i', h', None) ->
      labelConsistent (InstallSpec.RecoverySystem i')
      /\ (InstallSpec.Iso i = "" ->
          IsEmpty (Image.Source (InstallSpec.RecoverySystem i')) = false))
  /\ (forall u u' : UpgradeSpec.t,
        UpgradeSpec.Sanitize u h = Ok (u', None) ->
        labelConsistent (UpgradeSpec.RecoverySystem u')
        /\ (UpgradeSpec.RecoveryUpgrade u = true ->
            IsEmpty (Image.Source (UpgradeSpec.RecoverySystem u')) = false))
  /\ (forall u u' : UpgradeSpec.t,
        UpgradeSpec.SanitizeForRecoveryOnly u h = Ok (u', None) ->
        labelConsistent (UpgradeSpec.RecoverySystem u')
        /\ IsEmpty (Image.Source (UpgradeSpec.RecoverySystem u')) = false)
  /\ (forall (MinPartSize : N) (d d' : DiskSpec.t),
        DiskSpec.Sanitize MinPartSize d h = Ok (d', None) ->
        labelConsistent (DiskSpec.RecoverySystem d')
        /\ IsEmpty (Image.Source (DiskSpec.RecoverySystem d')) = false).
Proof.
  repeat split.
  - revert H. unfold InstallSpec.Sanitize.
    destruct (IsEmpty (InstallSpec.System i) && (InstallSpec.Iso i =? "")); [discriminate|].
    destruct (nilOrNoMountPoint h _) as [[|]|]; cbn [mbind outcome_bind obind];
      try discriminate.
    cbv zeta.
    set (i1 := if IsEmpty _ then _ else i).
    set (i2 := InstallSpec.setRecoverySystem _ i1).
    assert (Hr : labelConsistent (InstallSpec.RecoverySystem i2))
      by (subst i2; apply defaultRecoveryLabel_consistent).
    clearbody i2.
    destruct (InstallSpec.countZeroSize h _ 0) as [n|]; [|discriminate].
    cbn [mbind outcome_bind obind].
    destruct (1 <? n)%Z; [discriminate|].
    destruct (if (n =? 1)%Z then _ else _) as [[|]|]; cbn [mbind outcome_bind obind];
      try discriminate.
    destruct (types.SetFirmwarePartitions _ _ _ h) as [[[ep1 h1] e1]|]; [|discriminate].
    cbn [mbind outcome_bind obind]. intros [= <- <- ->]. exact Hr.
  - revert H. unfold InstallSpec.Sanitize. intros H Hiso. revert H.
    rewrite Hiso. change ("" =? "") with true. rewrite andb_true_r.
    destruct (IsEmpty (InstallSpec.System i)) eqn:Esys; [discriminate|].
    destruct (nilOrNoMountPoint h _) as [[|]|]; cbn [mbind outcome_bind obind];
      try discriminate.
    cbv zeta.
    set (i1 := if IsEmpty _ then _ else i).
    set (i2 := InstallSpec.setRecoverySystem _ i1).
    assert (Hr : IsEmpty (Image.Source (InstallSpec.RecoverySystem i2)) = false).
    { subst i2. cbn. rewrite (proj2 (defaultRecoveryLabel_consistent _)).
      subst i1. destruct (IsEmpty (Image.Source (InstallSpec.RecoverySystem i))) eqn:E;
        [exact Esys | exact E]. }
    clearbody i2.
    destruct (InstallSpec.countZeroSize h _ 0) as [n|]; [|discriminate].
    cbn [mbind outcome_bind obind].
    destruct (1 <? n)%Z; [discriminate|].
    destruct (if (n =? 1)%Z then _ else _) as [[|]|]; cbn [mbind outcome_bind obind];
      try discriminate.
    destruct (types.SetFirmwarePartitions _ _ _ h) as [[[ep1 h1] e1]|]; [|discriminate].
    cbn [mbind outcome_bind obind]. intros [= <- <- ->]. exact Hr.
  - revert H. unfold UpgradeSpec.Sanitize.
    destruct (nilOrNoMountPoint h (State (UpgradeSpec.Partitions u))) as [[|]|];
      cbn [mbind outcome_bind obind]; try discriminate.
    destruct (IsEmpty (UpgradeSpec.System u)); [discriminate|].
    destruct (if UpgradeSpec.RecoveryUpgrade u then _ else _) as [[|]|];
      cbn [mbind outcome_bind obind]; try discriminate.
    cbv zeta. set (u1 := if _ && _ then _ else u).
    destruct (if UpgradeSpec.BootloaderUpgrade u1 then _ else _) as [[|]|];
      cbn [mbind outcome_bind obind]; try discriminate.
    intros [= <-]. apply defaultRecoveryLabel_consistent.
  - revert H. unfold UpgradeSpec.Sanitize. intros H Hru. revert H. rewrite Hru.
    destruct (nilOrNoMountPoint h (State (UpgradeSpec.Partitions u))) as [[|]|];
      cbn [mbind outcome_bind obind]; try discriminate.
    destruct (IsEmpty (UpgradeSpec.System u)) eqn:Esys; [discriminate|].
    destruct (nilOrNoMountPoint h (Recovery (UpgradeSpec.Partitions u))) as [[|]|];
      cbn [mbind outcome_bind obind]; try discriminate.
    cbv zeta. cbn [andb]. set (u1 := if IsEmpty _ then _ else u).
    assert (Hr : IsEmpty (Image.Source (UpgradeSpec.RecoverySystem u1)) = false).
    { subst u1. destruct (IsEmpty (Image.Source (UpgradeSpec.RecoverySystem u))) eqn:E;
        [exact Esys | exact E]. }
    clearbody u1.
    destruct (if UpgradeSpec.BootloaderUpgrade u1 then _ else _) as [[|]|];
      cbn [mbind outcome_bind obind]; try discriminate.
    intros [= <-]. cbn. rewrite (proj2 (defaultRecoveryLabel_consistent _)). exact Hr.
  - revert H. unfold UpgradeSpec.SanitizeForRecoveryOnly.
    destruct (nilOrNoMountPoint h (State (UpgradeSpec.Partitions u))) as [[|]|];
      cbn [mbind outcome_bind obind]; try discriminate.
    destruct (nilOrNoMountPoint h (Recovery (UpgradeSpec.Partitions u))) as [[|]|];
      cbn [mbind outcome_bind obind]; try discriminate.
    destruct (IsEmpty _); [discriminate|].
    intros [= <-]. apply defaultRecoveryLabel_consistent.
  - revert H. unfold UpgradeSpec.SanitizeForRecoveryOnly.
    destruct (nilOrNoMountPoint h (State (UpgradeSpec.Partitions u))) as [[|]|];
      cbn [mbind outcome_bind obind]; try discriminate.
    destruct (nilOrNoMountPoint h (Recovery (UpgradeSpec.Partitions u))) as [[|]|];
      cbn [mbind outcome_bind obind]; try discriminate.
    destruct (IsEmpty _) eqn:E; [discriminate|].
    intros [= <-]. cbn. rewrite (proj2 (defaultRecoveryLabel_consistent _)). exact E.
  - revert H. unfold DiskSpec.Sanitize.
    destruct (IsEmpty (DiskSpec.System d)); [discriminate|]. cbv zeta.
    set (d1 := if IsEmpty _ then _ else d).
    set (d2 := if Image.FS (DiskSpec.RecoverySystem d1) =? _ then _ else _).
    assert (Hr : labelConsistent (DiskSpec.RecoverySystem d2)).
    { subst d2. unfold labelConsistent.
      destruct (Image.FS (DiskSpec.RecoverySystem d1) =? constants.SquashFs) eqn:Efs.
      - cbn. rewrite Efs. reflexivity.
      - destruct (Image.Label (DiskSpec.RecoverySystem d1) =? "") eqn:El.
        + cbn. rewrite Efs. discriminate.
        + rewrite Efs. apply String.eqb_neq, El. }
    clearbody d2.
    destruct (DiskSpec.MinDiskSize _ d2 h) as [m|]; [|discriminate].
    cbn [mbind outcome_bind obind].
    destruct (_ && _); [discriminate|]. intros [= <-]. exact Hr.
  - revert H. unfold DiskSpec.Sanitize.
    destruct (IsEmpty (DiskSpec.System d)) eqn:Esys; [discriminate|]. cbv zeta.
    set (d1 := if IsEmpty _ then _ else d).
    set (d2 := if Image.FS (DiskSpec.RecoverySystem d1) =? _ then _ else _).
    assert (Hr : IsEmpty (Image.Source (DiskSpec.RecoverySystem d2)) = false).
    { assert (H1 : IsEmpty (Image.Source (DiskSpec.RecoverySystem d1)) = false).
      { subst d1. destruct (IsEmpty (Image.Source (DiskSpec.RecoverySystem d))) eqn:E;
          [exact Esys | exact E]. }
      subst d2. destruct (Image.FS (DiskSpec.RecoverySystem d1) =? constants.SquashFs);
        [exact H1|].
      destruct (Image.Label (DiskSpec.RecoverySystem d1) =? ""); exact H1. }
    clearbody d2.
    destruct (DiskSpec.MinDiskSize _ d2 h) as [m|]; [|discriminate].
    cbn [mbind outcome_bind obind].
    destruct (_ && _); [discriminate|]. intros [= <-]. exact Hr.
Qed.

Lemma Sanitize_recovery_label_witness :
  let i' := fst (fst (Examples.returned (Examples.extraSpec, Examples.extraHeap, None)
                        (InstallSpec.Sanitize Examples.extraSpec Examples.extraHeap))) in
  let d' := fst (Examples.returned (Examples.disk 0 true, None)
                   (DiskSpec.Sanitize 64 (Examples.disk 0 true) Examples.biosHeap)) in
  (labelConsistent (InstallSpec.RecoverySystem i')
   /\ (InstallSpec.Iso Examples.extraSpec = "" ->
       IsEmpty (Image.Source (InstallSpec.RecoverySystem i')) = false))
  /\ (labelConsistent (DiskSpec.RecoverySystem d')
      /\ IsEmpty (Image.Source (DiskSpec.RecoverySystem d')) = false).
Proof.
  split.
  - apply (proj1 (Sanitize_recovery_label Examples.extraHeap) Examples.extraSpec _
             (snd (fst (Examples.returned (Examples.extraSpec, Examples.extraHeap, None)
                          (InstallSpec.Sanitize Examples.extraSpec Examples.extraHeap))))).
    vm_compute. reflexivity.
  - apply (proj2 (proj2 (proj2 (Sanitize_recovery_label Examples.biosHeap))) 64%N
             (Examples.disk 0 true)).
    vm_compute. reflexivity.
Defined.



Lemma setRecoverySystem_twice (x y : Image.t) (u : UpgradeSpec.t) :
  UpgradeSpec.setRecoverySystem x (UpgradeSpec.setRecoverySystem y u)
  = UpgradeSpec.setRecoverySystem x u.
Proof. reflexivity. Qed.

Ltac upg_simpl :=
  cbn [UpgradeSpec.RecoveryUpgrade UpgradeSpec.System UpgradeSpec.RecoverySystem
       UpgradeSpec.BootloaderUpgrade UpgradeSpec.Partitions UpgradeSpec.setRecoverySystem
       mbind outcome_bind obind Image.Source Image.setSource].

Ltac disk_proj :=
  cbn [DiskSpec.Size DiskSpec.Partitions DiskSpec.Expandable DiskSpec.System
       DiskSpec.RecoverySystem DiskSpec.setRecoverySystem mbind outcome_bind obind].

Ltac disk_simpl :=
  cbn [DiskSpec.Size DiskSpec.Partitions DiskSpec.Expandable DiskSpec.System
       DiskSpec.RecoverySystem DiskSpec.setRecoverySystem mbind outcome_bind obind
       Image.Source Image.setSource Image.FS Image.Label Image.setLabel].

(** X9.  Sanitize is idempotent on what it accepts: an upgrade spec or a
    disk spec that comes out of a successful Sanitize is accepted again
    and is not changed again. *)
Theorem Sanitize_idempotent (h : heap) :
  (forall u u' : UpgradeSpec.t,
      UpgradeSpec.Sanitize u h = Ok (u', None) ->
      UpgradeSpec.Sanitize u' h = Ok (u', None))
  /\ (forall u u' : UpgradeSpec.t,
        UpgradeSpec.SanitizeForRecoveryOnly u h = Ok (u', None) ->
        UpgradeSpec.SanitizeForRecoveryOnly u' h = Ok (u', None))
  /\ (forall (MinPartSize : N) (d d' : DiskSpec.t),
        DiskSpec.Sanitize MinPartSize d h = Ok (d', None) ->
        DiskSpec.Sanitize MinPartSize d' h = Ok (d', None)).
Proof.
  repeat split.
  - intros [ru sys rs gde bu sl parts st] u'. unfold UpgradeSpec.Sanitize. upg_simpl.
    destruct (nilOrNoMountPoint h (State parts)) as [[|]|] eqn:Es; upg_simpl;
      try discriminate.
    destruct (IsEmpty sys) eqn:Esys; [discriminate|].
    assert (Hdone : forall rs1,
               IsEmpty (Image.Source rs1) = false \/ ru = false ->
               (if ru then nilOrNoMountPoint h (Recovery parts) else Ok false) = Ok false ->
               (if bu then nilOrNoMountPoint h (Boot parts) else Ok false) = Ok false ->
               UpgradeSpec.Sanitize
                 (UpgradeSpec.mk ru sys (defaultRecoveryLabel rs1) gde bu sl parts st) h
               = Ok (UpgradeSpec.mk ru sys (defaultRecoveryLabel rs1) gde bu sl parts st,
                     None)).
    { intros rs1 Hsrc Hr Hb. unfold UpgradeSpec.Sanitize. upg_simpl.
      rewrite Es. upg_simpl. rewrite Esys, Hr. upg_simpl.
      rewrite (proj2 (defaultRecoveryLabel_consistent rs1)).
      assert (E : ru && IsEmpty (Image.Source rs1) = false)
        by (destruct Hsrc as [->| ->]; [apply andb_false_r | reflexivity]).
      rewrite E. upg_simpl. rewrite Hb. upg_simpl.
      rewrite defaultRecoveryLabel_idempotent. reflexivity. }
    destruct (if ru then nilOrNoMountPoint h (Recovery parts) else Ok false)
      as [[|]|] eqn:Er; upg_simpl; try discriminate.
    destruct (ru && IsEmpty (Image.Source rs)) eqn:Esrc; upg_simpl;
      (destruct (if bu then nilOrNoMountPoint h (Boot parts) else Ok false)
         as [[|]|] eqn:Eb; upg_simpl; try discriminate);
      intros [= <-]; apply Hdone; auto.
    apply andb_false_iff in Esrc. tauto.
  - intros u u'. unfold UpgradeSpec.SanitizeForRecoveryOnly.
    destruct (nilOrNoMountPoint h (State (UpgradeSpec.Partitions u))) as [[|]|] eqn:Es;
      cbn [mbind outcome_bind obind]; try discriminate.
    destruct (nilOrNoMountPoint h (Recovery (UpgradeSpec.Partitions u))) as [[|]|] eqn:Er;
      cbn [mbind outcome_bind obind]; try discriminate.
    destruct (IsEmpty (Image.Source (UpgradeSpec.RecoverySystem u))) eqn:Esrc; [discriminate|].
    intros [= <-].
    cbn [UpgradeSpec.setRecoverySystem UpgradeSpec.Partitions UpgradeSpec.RecoverySystem].
    rewrite Es, Er, (proj2 (defaultRecoveryLabel_consistent _)), Esrc.
    cbn [mbind outcome_bind obind].
    rewrite defaultRecoveryLabel_idempotent. reflexivity.
  - intros MinPartSize [size parts ex sys rs gc ci gde ty dc] d'.
    assert (Hdone : forall (rs1 : Image.t) (m : N),
               IsEmpty sys = false -> IsEmpty (Image.Source rs1) = false ->
               labelConsistent rs1 ->
               DiskSpec.MinDiskSize MinPartSize
                 (DiskSpec.mk size parts ex sys rs1 gc ci gde ty dc) h = Ok m ->
               negb (size =? 0)%N && negb ex && (size <=? m)%N = false ->
               DiskSpec.Sanitize MinPartSize
                 (DiskSpec.mk size parts ex sys rs1 gc ci gde ty dc) h
               = Ok (DiskSpec.mk size parts ex sys rs1 gc ci gde ty dc, None)).
    { intros rs1 m Hsys Hsrc Hlab Hm Hsz.
      unfold DiskSpec.Sanitize, DiskSpec.MinDiskSize in *.
      cbn [DiskSpec.Partitions] in Hm.
      cbn [DiskSpec.Size DiskSpec.Expandable DiskSpec.System DiskSpec.RecoverySystem].
      rewrite Hsys, Hsrc. cbv zeta.
      cbn [DiskSpec.Size DiskSpec.Expandable DiskSpec.System DiskSpec.RecoverySystem].
      unfold labelConsistent in Hlab.
      destruct (Image.FS rs1 =? constants.SquashFs) eqn:Efs.
      - assert (E : Image.setLabel "" rs1 = rs1)
          by (destruct rs1; cbn in Hlab |- *; subst; reflexivity).
        rewrite E. cbn [DiskSpec.setRecoverySystem DiskSpec.Partitions DiskSpec.Size
                        DiskSpec.Expandable DiskSpec.System DiskSpec.RecoverySystem].
        rewrite Hm. cbn [mbind outcome_bind obind]. rewrite Hsz. reflexivity.
      - apply String.eqb_neq in Hlab. rewrite Hlab.
        cbn [DiskSpec.setRecoverySystem DiskSpec.Partitions DiskSpec.Size
             DiskSpec.Expandable DiskSpec.System DiskSpec.RecoverySystem].
        rewrite Hm. cbn [mbind outcome_bind obind]. rewrite Hsz. reflexivity. }
    intros H. unfold DiskSpec.Sanitize in H. revert H. disk_simpl.
    destruct (IsEmpty sys) eqn:Esys; [discriminate|]. cbv zeta.
    destruct (IsEmpty (Image.Source rs)) eqn:Esrc; disk_simpl;
      (destruct (Image.FS rs =? constants.SquashFs) eqn:Efs; disk_simpl;
       [|destruct (Image.Label rs =? "") eqn:El; disk_simpl]);
      (destruct (DiskSpec.MinDiskSize _ _ h) as [m|] eqn:Em; disk_simpl; [|discriminate]);
      (destruct (negb (size =? 0)%N && negb ex && (size <=? m)%N) eqn:Esz; [discriminate|]);
      intros [= <-];
      apply (Hdone _ m); try assumption; try reflexivity;
      unfold labelConsistent; disk_simpl; rewrite ?Efs; try reflexivity;
      try discriminate; apply String.eqb_neq, El.
Qed.

Lemma Sanitize_idempotent_witness :
  let u' := UpgradeSpec.setRecoverySystem (Image.setLabel "" Examples.squashImage)
              (Examples.upgrade false (OCI "registry.example/os:latest")
                 Examples.squashImage) in
  UpgradeSpec.Sanitize u' Examples.defaultHeap = Ok (u', None).
Proof.
  apply (proj1 (Sanitize_idempotent Examples.defaultHeap)
           (Examples.upgrade false (OCI "registry.example/os:latest") Examples.squashImage)).
  vm_compute. reflexivity.
Defined.







(** ** More on the install state *)


Section InstallStateFiles.
Variable bytes : Type.
Variable yaml_Marshal : InstallState.t -> bytes * error.
Variable yaml_Unmarshal : bytes -> InstallState.t -> InstallState.t * error.
Variable withComment : string -> bytes -> bytes.
Variable LegacyStateDir : string.

(** X12.  A successful WriteInstallState leaves the same document, the header
    followed by the marshalled state, at each of the two paths that is
    not empty, touches no other file, and writes nothing at all when both
    paths are empty. *)
Theorem WriteInstallState_copies (s : InstallState.t) (statePath recoveryPath : string)
    (fs fs' : Config.FS bytes) :
  Config.WriteInstallState bytes yaml_Marshal withComment s statePath recoveryPath fs
  = (fs', None) ->
  exists data : bytes,
    yaml_Marshal s = (data, None)
    /\ (statePath <> "" ->
        Config.files bytes fs' !! statePath = Some (withComment Config.header data))
    /\ (recoveryPath <> "" ->
        Config.files bytes fs' !! recoveryPath = Some (withComment Config.header data))
    /\ (forall path, path <> statePath -> path <> recoveryPath ->
                     Config.files bytes fs' !! path = Config.files bytes fs !! path)
    /\ (statePath = "" -> recoveryPath = "" -> fs' = fs).
Proof.
  unfold Config.WriteInstallState.
  destruct (yaml_Marshal s) as [data [e|]]; [discriminate|].
  cbv zeta. unfold Config.WriteFile.
  destruct (statePath =? "") eqn:Es; destruct (recoveryPath =? "") eqn:Er; cbn [negb];
    destruct (Config.readOnly bytes fs) eqn:Ero; cbn [Config.readOnly];
    rewrite ?Ero; try discriminate; intros [= <-]; exists data;
    apply String.eqb_eq in Es || apply String.eqb_neq in Es;
    apply String.eqb_eq in Er || apply String.eqb_neq in Er;
    cbn [Config.files]; (split; [reflexivity|]);
    repeat split; try (intros; congruence); intros.
  all: try (rewrite lookup_insert_eq; reflexivity).
  all: try (rewrite lookup_insert_ne by congruence; reflexivity).
  all: try (rewrite !lookup_insert_ne by congruence; reflexivity).
  destruct (decide (recoveryPath = statePath)) as [->|Hne].
  - rewrite lookup_insert_eq. reflexivity.
  - rewrite lookup_insert_ne by exact Hne. rewrite lookup_insert_eq. reflexivity.
Qed.

End InstallStateFiles.

Lemma WriteInstallState_copies_witness :
  let fs' := fst (Config.WriteInstallState _ Config.marshalDocument Config.commentDocument
                    (Examples.installState "") Examples.stateFile
                    "/run/cos/recovery/state.yaml" Examples.noFiles) in
  exists data : Config.document,
    Config.marshalDocument (Examples.installState "") = (data, None)
    /\ (Examples.stateFile <> "" ->
        Config.files _ fs' !! Examples.stateFile
        = Some (Config.commentDocument Config.header data))
    /\ ("/run/cos/recovery/state.yaml" <> "" ->
        Config.files _ fs' !! "/run/cos/recovery/state.yaml"
        = Some (Config.commentDocument Config.header data))
    /\ (forall path, path <> Examples.stateFile -> path <> "/run/cos/recovery/state.yaml" ->
                     Config.files _ fs' !! path = Config.files _ Examples.noFiles !! path)
    /\ (Examples.stateFile = "" -> "/run/cos/recovery/state.yaml" = "" ->
        fs' = Examples.noFiles).
Proof.
  apply (WriteInstallState_copies _ Config.marshalDocument Config.commentDocument
           (Examples.installState "") Examples.stateFile "/run/cos/recovery/state.yaml"
           Examples.noFiles).
  vm_compute. reflexivity.
Defined.



(** ** More on the btrfs snapshotter *)

Lemma call_works (o : Op) (a : list string) (effect : World -> World) (s : Sys) :
  works o s ->
  call o a effect s = (None, (fst s, effect (addLog (mkCall o a) (snd s)))).
Proof.
  unfold works, call. intros H. cbn [failing addLog].
  rewrite bool_decide_eq_false_2 by exact H. reflexivity.
Qed.

(** X14.  Before InitSnapshotter has set the root directory, the snapshotter
    refuses to start a transaction, to list or delete snapshots and to
    set the bootloader: each returns an error and calls no collaborator,
    the system is as it was. *)
Theorem uninitialised_snapshotter_refuses (WorkingImgDir : string) (s : Sys) :
  Btrfs.rootDir (fst s) = "" ->
  (exists e, StartTransaction WorkingImgDir s = ((None, Some e), s))
  /\ (exists e, GetSnapshots s = (([], Some e), s))
  /\ (forall id, exists e, DeleteSnapshot id s = (Some e, s))
  /\ (exists e, getPassiveSnapshots s = (([], Some e), s))
  /\ (exists e, setBootloader s = (Some e, s)).
Proof.
  intros Hroot.
  assert (Hget : GetSnapshots s
                 = (([], Some "snapshotter not initiated yet, run 'InitSnapshotter' before calling this method"), s)).
  { unfold GetSnapshots, mbind, M_bind, getBtrfs. rewrite Hroot. reflexivity. }
  repeat split.
  - unfold StartTransaction, mbind, M_bind, getBtrfs. rewrite Hroot. eauto.
  - eauto.
  - intros id. unfold DeleteSnapshot, mbind, M_bind. rewrite Hget. eauto.
  - unfold getPassiveSnapshots, mbind, M_bind. rewrite Hget. eauto.
  - unfold setBootloader, getPassiveSnapshots, mbind, M_bind. rewrite Hget. eauto.
Qed.

Lemma uninitialised_snapshotter_refuses_witness :
  (exists e, StartTransaction Examples.workingImgDir (Examples.btrfsNew, Examples.world0)
             = ((None, Some e), (Examples.btrfsNew, Examples.world0)))
  /\ (exists e, GetSnapshots (Examples.btrfsNew, Examples.world0)
                = (([], Some e), (Examples.btrfsNew, Examples.world0)))
  /\ (forall id, exists e, DeleteSnapshot id (Examples.btrfsNew, Examples.world0)
                           = (Some e, (Examples.btrfsNew, Examples.world0)))
  /\ (exists e, getPassiveSnapshots (Examples.btrfsNew, Examples.world0)
                = (([], Some e), (Examples.btrfsNew, Examples.world0)))
  /\ (exists e, setBootloader (Examples.btrfsNew, Examples.world0)
                = (Some e, (Examples.btrfsNew, Examples.world0))).
Proof.
  apply (uninitialised_snapshotter_refuses Examples.workingImgDir
           (Examples.btrfsNew, Examples.world0)).
  reflexivity.
Defined.

Lemma GetSnapshots_no_active (s : Sys) :
  Btrfs.rootDir (fst s) <> "" -> (Btrfs.activeSnapshotID (fst s) <= 0)%Z ->
  GetSnapshots s = (([], None), s).
Proof.
  intros Hroot Hact. apply String.eqb_neq in Hroot. apply Z.ltb_ge in Hact.
  unfold GetSnapshots, mbind, M_bind, getBtrfs. rewrite Hroot, Hact. reflexivity.
Qed.

Lemma DeleteSnapshot_no_active (id : Z) (s : Sys) :
  Btrfs.rootDir (fst s) <> "" -> (Btrfs.activeSnapshotID (fst s) <= 0)%Z ->
  DeleteSnapshot id s = (None, s).
Proof.
  intros Hroot Hact. unfold DeleteSnapshot, mbind, M_bind.
  rewrite (GetSnapshots_no_active s Hroot Hact). reflexivity.
Qed.

(** X15.  While the snapshotter has no active snapshot, as on the state
    partition of a first installation, GetSnapshots returns the empty
    list without asking the backend, whatever the partition holds.  Hence
    DeleteSnapshot deletes nothing, and CloseTransactionOnError leaves on
    the partition the snapshot StartTransaction has created. *)
Theorem no_active_snapshot_nothing_deleted (snapshot : Snapshot.t) (s : Sys) :
  Btrfs.rootDir (fst s) <> "" -> (Btrfs.activeSnapshotID (fst s) <= 0)%Z ->
  GetSnapshots s = (([], None), s)
  /\ (forall id, DeleteSnapshot id s = (None, s))
  /\ getPassiveSnapshots s = (([], None), s)
  /\ snapshotStore (snd (CloseTransactionOnError snapshot s)) = snapshotStore s
  /\ backendDeletes (snd (CloseTransactionOnError snapshot s)) = backendDeletes s.
Proof.
  intros Hroot Hact.
  pose proof (GetSnapshots_no_active s Hroot Hact) as Hget.
  split; [exact Hget|]. split; [intros id; apply DeleteSnapshot_no_active; assumption|].
  split; [unfold getPassiveSnapshots, mbind, M_bind; rewrite Hget; reflexivity|].
  destruct (CloseTransactionOnError snapshot s) as [r s'] eqn:E. cbn [snd].
  unfold CloseTransactionOnError, mbind, M_bind in E.
  set (m0 := if Snapshot.InProgress snapshot then _ else _) in E.
  assert (H0 : keeps m0 /\ fst (snd (m0 s)) = fst s).
  { subst m0. destruct (Snapshot.InProgress snapshot).
    - split; [|apply call_fst]. apply keeps_call; [discriminate|].
      intros w; repeat split; reflexivity.
    - split; [apply keeps_ret | reflexivity]. }
  destruct H0 as [Hk0 Hb0]. destruct (Hk0 s) as (Hst0 & Hdel0 & _ & _).
  destruct (m0 s) as [r0 s0]. cbn [snd] in *. clear Hk0 m0.
  rewrite DeleteSnapshot_no_active in E by (rewrite Hb0; assumption).
  unfold getBtrfs in E.
  pose proof (keeps_runSnapshotsUmount (Btrfs.snapshotsUmount (fst s0)) s0)
    as (Hst2 & Hdel2 & _ & _).
  destruct (runSnapshotsUmount _ s0) as [r2 s2]. cbn [fst snd] in *.
  injection E as _ <-. split; congruence.
Qed.

Lemma no_active_snapshot_nothing_deleted_witness :
  let s := snd (StartTransaction Examples.workingImgDir (Examples.btrfs0, Examples.world0)) in
  let snapshot :=
    Snapshot.mk 1 Examples.workingImgDir "/run/elemental/state/.snapshots/1/snapshot"
      "/run/elemental/state/.snapshots/1/snapshot.workDir" ∅ true in
  fst (snapshotStore s) = [1%Z]
  /\ GetSnapshots s = (([], None), s)
  /\ (forall id, DeleteSnapshot id s = (None, s))
  /\ getPassiveSnapshots s = (([], None), s)
  /\ snapshotStore (snd (CloseTransactionOnError snapshot s)) = snapshotStore s
  /\ backendDeletes (snd (CloseTransactionOnError snapshot s)) = backendDeletes s.
Proof.
  split; [reflexivity|].
  apply (no_active_snapshot_nothing_deleted
           (Snapshot.mk 1 Examples.workingImgDir "/run/elemental/state/.snapshots/1/snapshot"
              "/run/elemental/state/.snapshots/1/snapshot.workDir" ∅ true)
           (snd (StartTransaction Examples.workingImgDir (Examples.btrfs0, Examples.world0)))).
  - discriminate.
  - vm_compute. discriminate.
Defined.

Lemma preserves_ret {A X : Type} (f : Sys -> X) (a : A) : preserves f (mret a : M A).
Proof. intros s. reflexivity. Qed.

Lemma preserves_bind {A B X : Type} (f : Sys -> X) (m : M A) (k : A -> M B) :
  preserves f m -> (forall a, preserves f (k a)) -> preserves f (m ≫= k).
Proof.
  intros Hm Hk s. unfold mbind, M_bind.
  destruct (m s) as [a s1] eqn:E. specialize (Hm s). rewrite E in Hm.
  rewrite (Hk a s1). exact Hm.
Qed.

Lemma preserves_call {X : Type} (f : Sys -> X) (o : Op) (a : list string)
    (effect : World -> World) :
  (forall b w, f (b, addLog (mkCall o a) w) = f (b, w)
               /\ f (b, effect (addLog (mkCall o a) w)) = f (b, w)) ->
  preserves f (call o a effect).
Proof.
  intros H [b w]. unfold call. cbn [fst snd].
  destruct (bool_decide _); cbn [snd]; apply H.
Qed.

Lemma preserves_keeps {A : Type} (m : M A) :
  keeps m -> preserves (fun s => defaultSnapshot (snd s)) m.
Proof.
  intros H s. destruct (H s) as (Hst & _). unfold snapshotStore in Hst.
  injection Hst as _ Hd. exact Hd.
Qed.

Lemma listSnapshots_inv (s s' : Sys) (ids : list Z) :
  listSnapshots s = ((ids, None), s') ->
  ids = snapshots (snd s) /\ Btrfs.activeSnapshotID (fst s') = defaultSnapshot (snd s).
Proof.
  unfold listSnapshots, backend_ListSnapshots, mbind, M_bind, getBtrfs, getWorld.
  destruct (call_cases OpListSnapshots [Btrfs.rootDir (fst s)] (fun w => w) s)
    as [E|[e E]]; rewrite E; cbn; [|discriminate].
  intros [= <- <-]. split; reflexivity.
Qed.

(** The ids GetSnapshots returns are ids of the store. *)
Lemma GetSnapshots_inv (s s' : Sys) (ids : list Z) :
  GetSnapshots s = ((ids, None), s') ->
  ids = [] \/ ids = snapshots (snd s).
Proof.
  unfold GetSnapshots. unfold mbind at 1, M_bind at 1, getBtrfs.
  destruct (Btrfs.rootDir (fst s) =? ""); [discriminate|].
  destruct (0 <? Btrfs.activeSnapshotID (fst s))%Z; [|intros [= <- <-]; auto].
  unfold mbind at 1, M_bind at 1.
  destruct (Mounter_IsLikelyNotMountPoint _ s) as [notMnt s0] eqn:Em.
  assert (Hs0 : s0 = s) by (injection Em as _ <-; reflexivity).
  subst s0. clear Em. destruct notMnt.
  2:{ intros H. apply listSnapshots_inv in H as [-> _]. auto. }
  unfold mbind at 1, M_bind at 1.
  pose proof (keeps_runSnapshotsMount (Btrfs.snapshotsMount (fst s)) s) as (Hst & _).
  destruct (runSnapshotsMount _ s) as [[e|] s1]; [discriminate|]. cbn [snd] in Hst.
  unfold mbind, M_bind.
  destruct (listSnapshots s1) as [[ids1 err] s2] eqn:El.
  unfold getBtrfs. destruct (runSnapshotsUmount _ s2) as [nErr s3].
  destruct err as [e|]; [discriminate|]. destruct nErr; [discriminate|].
  intros [= <- <-]. apply listSnapshots_inv in El as [-> _].
  unfold snapshotStore in Hst. injection Hst as -> _. auto.
Qed.

(** X16.  The passive snapshots getPassiveSnapshots returns are snapshots of
    the store, none of them is the active snapshot as the snapshotter
    knows it after the listing, and the store is as it was. *)
Theorem getPassiveSnapshots_excludes_active (s s' : Sys) (ids : list Z) :
  getPassiveSnapshots s = ((ids, None), s') ->
  (Btrfs.activeSnapshotID (fst s') ∉ ids)
  /\ (forall id, id ∈ ids -> id ∈ snapshots (snd s))
  /\ snapshotStore s' = snapshotStore s.
Proof.
  unfold getPassiveSnapshots, mbind, M_bind.
  pose proof (keeps_GetSnapshots s) as (Hst & _).
  destruct (GetSnapshots s) as [[all err] s1] eqn:Hget. cbn [snd] in Hst.
  destruct err as [e|]; [discriminate|]. unfold getBtrfs. intros [= <- <-].
  split; [|split; [|exact Hst]].
  - intros Hin. apply list_elem_of_In, List.filter_In in Hin. destruct Hin as [_ Hne].
    rewrite Z.eqb_refl in Hne. discriminate.
  - intros id Hin. apply list_elem_of_In, List.filter_In in Hin. destruct Hin as [Hin _].
    destruct (GetSnapshots_inv _ _ _ Hget) as [->| ->]; [destruct Hin|].
    apply list_elem_of_In, Hin.
Qed.

Lemma getPassiveSnapshots_excludes_active_witness :
  (Btrfs.activeSnapshotID (fst (snd (getPassiveSnapshots Examples.started))) ∉ [2%Z])
  /\ (forall id, id ∈ [2%Z] -> id ∈ snapshots (snd Examples.started))
  /\ snapshotStore (snd (getPassiveSnapshots Examples.started))
     = snapshotStore Examples.started.
Proof.
  apply (getPassiveSnapshots_excludes_active Examples.started
           (snd (getPassiveSnapshots Examples.started)) [2%Z]).
  vm_compute. reflexivity.
Defined.

Lemma preserves_default_setBootloader :
  preserves (fun s => defaultSnapshot (snd s)) setBootloader.
Proof.
  unfold setBootloader, getPassiveSnapshots.
  apply preserves_bind.
  - apply preserves_bind; [apply preserves_keeps, keeps_GetSnapshots|].
    intros [all [e|]]; [apply preserves_ret|].
    apply preserves_bind; [intros s; reflexivity | intros b; apply preserves_ret].
  - intros [ids [e|]]; [apply preserves_ret|].
    apply preserves_bind; [intros s; reflexivity|]. intros b.
    apply preserves_call. intros b' w. split; reflexivity.
Qed.

Lemma call_Some (o : Op) (a : list string) (effect : World -> World) (s s' : Sys)
    (e : string) :
  call o a effect s = (Some e, s') -> s' = (fst s, addLog (mkCall o a) (snd s)).
Proof. unfold call. destruct (bool_decide _); [|discriminate]. intros [= _ <-]. reflexivity. Qed.

(** X17.  CloseTransaction returns nil only for a snapshot in progress that
    the backend has committed: the snapshot is then the default one of
    the state partition, whatever the bootloader, the cleanup and every
    other collaborator did. *)
Theorem CloseTransaction_success_commits (snapshot : Snapshot.t) (s s' : Sys) :
  CloseTransaction snapshot s = (None, s') ->
  Snapshot.InProgress snapshot = true
  /\ defaultSnapshot (snd s') = Snapshot.ID snapshot.
Proof.
  unfold CloseTransaction.
  destruct (Snapshot.InProgress snapshot); [|discriminate]. cbn [negb].
  unfold mbind, M_bind. intros H. split; [reflexivity|].
  destruct (closeTransaction snapshot s) as [err sc] eqn:Hc.
  destruct err as [e|].
  { exfalso. destruct (DeleteSnapshot _ sc) as [r1 s1]. unfold getBtrfs in H.
    destruct (runSnapshotsUmount _ s1) as [r2 s2]. discriminate. }
  unfold mret, M_ret, getBtrfs in H.
  pose proof (preserves_keeps _ (keeps_runSnapshotsUmount (Btrfs.snapshotsUmount (fst sc))) sc)
    as Hu. cbn beta in Hu.
  destruct (runSnapshotsUmount (Btrfs.snapshotsUmount (fst sc)) sc) as [r2 s2].
  injection H as _ <-. cbn [snd] in Hu. rewrite Hu. clear Hu.
  unfold closeTransaction in Hc.
  apply check_inv in Hc. destruct Hc as [(e & _ & [=])|(s1 & _ & Hc)].
  apply check_inv in Hc. destruct Hc as [(e & _ & [=])|(s2' & _ & Hc)].
  apply check_inv in Hc. destruct Hc as [(e & _ & [=])|(s3 & _ & Hc)].
  apply check_inv in Hc. destruct Hc as [(e & _ & [=])|(s4 & _ & Hc)].
  unfold mbind at 1, M_bind at 1, getBtrfs in Hc.
  apply check_inv in Hc. destruct Hc as [(e & _ & [=])|(s5 & H5 & Hc)].
  apply call_None in H5. subst s5.
  unfold mbind, M_bind in Hc.
  pose proof (preserves_default_setBootloader
                (fst s4,
                 setStore (snapshots (addLog (mkCall OpCommitSnapshot
                                                [Btrfs.rootDir (fst s4);
                                                 Itoa (Snapshot.ID snapshot)]) (snd s4)))
                   (Snapshot.ID snapshot)
                   (lastID (addLog (mkCall OpCommitSnapshot
                                      [Btrfs.rootDir (fst s4);
                                       Itoa (Snapshot.ID snapshot)]) (snd s4)))
                   (addLog (mkCall OpCommitSnapshot
                              [Btrfs.rootDir (fst s4); Itoa (Snapshot.ID snapshot)])
                      (snd s4)))) as Hb.
  cbn [fst snd] in Hc, Hb.
  destruct (setBootloader _) as [r6 s6]. cbn [snd] in Hb.
  assert (Hcl : preserves (fun s => defaultSnapshot (snd s))
                  (backend_SnapshotsCleanup (Btrfs.rootDir (fst s4)))).
  { apply preserves_call. intros b w. split; reflexivity. }
  specialize (Hcl s6). destruct (backend_SnapshotsCleanup _ s6) as [r7 s7].
  injection Hc as <-. cbn [snd] in Hcl. rewrite Hcl, Hb. reflexivity.
Qed.

Lemma CloseTransaction_success_commits_witness :
  Snapshot.InProgress Examples.snapshot2 = true
  /\ defaultSnapshot
       (snd (snd (CloseTransaction Examples.snapshot2
                    (Examples.startedWith [OpSetPersistentVariables; OpSnapshotsCleanup]))))
     = Snapshot.ID Examples.snapshot2.
Proof.
  apply (CloseTransaction_success_commits Examples.snapshot2
           (Examples.startedWith [OpSetPersistentVariables; OpSnapshotsCleanup])).
  vm_compute. reflexivity.
Defined.

(** What GetSnapshots returns when the mounter and the listing work. *)
Lemma GetSnapshots_works (s : Sys) :
  works OpMount s -> works OpUnmount s -> works OpListSnapshots s ->
  Btrfs.rootDir (fst s) <> "" ->
  exists s' : Sys,
    GetSnapshots s
    = ((if (0 <? Btrfs.activeSnapshotID (fst s))%Z then snapshots (snd s) else [], None), s')
    /\ Btrfs.rootDir (fst s') = Btrfs.rootDir (fst s)
    /\ failing (snd s') = failing (snd s).
Proof.
  destruct s as [[cfg root efi act hu hm] [ids def last mx mnts envs fl lg]].
  unfold works. cbn [fst snd failing Btrfs.rootDir Btrfs.activeSnapshotID].
  intros Hm Hu Hl Hroot. apply String.eqb_neq in Hroot.
  unfold GetSnapshots, mbind, M_bind, getBtrfs. cbn [fst Btrfs.rootDir Btrfs.activeSnapshotID].
  rewrite Hroot.
  destruct (0 <? act)%Z; [|eauto].
  unfold Mounter_IsLikelyNotMountPoint, mbind, M_bind, getWorld, mret, M_ret.
  cbn [fst snd mounts Btrfs.snapshotsMount].
  assert (Hlist : forall b w, failing w = fl -> Btrfs.rootDir b = root ->
                              snapshots w = ids ->
                              exists s', listSnapshots (b, w) = ((ids, None), s')
                                         /\ Btrfs.rootDir (fst s') = root
                                         /\ failing (snd s') = fl
                                         /\ Btrfs.snapshotsUmount (fst s')
                                            = Btrfs.snapshotsUmount b).
  { intros b w Hf Hr Hs.
    unfold listSnapshots, backend_ListSnapshots, mbind, M_bind, getBtrfs, getWorld.
    rewrite call_works by (unfold works; cbn [snd]; rewrite Hf; exact Hl).
    cbn. rewrite Hs. eexists. split; [reflexivity|]. cbn. auto. }
  destruct (negb (existsb _ mnts)).
  - destruct hm as [|r d i].
    + cbn [runSnapshotsMount mret M_ret].
      match goal with
      | |- context [listSnapshots (?b, ?w)] =>
          destruct (Hlist b w eq_refl eq_refl eq_refl) as (s' & -> & Hr & Hf & Hh)
      end.
      cbn [Btrfs.snapshotsUmount] in Hh. rewrite Hh.
      destruct hu as [|r' d' i'].
      * cbn [runSnapshotsUmount mret M_ret]. eauto.
      * cbn [runSnapshotsUmount]. unfold Mounter_Unmount.
        rewrite call_works by (unfold works; rewrite Hf; exact Hu).
        eexists. split; [reflexivity|]. cbn. auto.
    + cbn [runSnapshotsMount]. unfold Mounter_Mount.
      rewrite call_works by exact Hm. cbn [fst snd].
      match goal with
      | |- context [listSnapshots (?b, ?w)] =>
          destruct (Hlist b w eq_refl eq_refl eq_refl) as (s' & -> & Hr & Hf & Hh)
      end.
      cbn [Btrfs.snapshotsUmount] in Hh. rewrite Hh.
      destruct hu as [|r' d' i'].
      * cbn [runSnapshotsUmount mret M_ret]. eauto.
      * cbn [runSnapshotsUmount]. unfold Mounter_Unmount.
        rewrite call_works by (unfold works; rewrite Hf; exact Hu).
        eexists. split; [reflexivity|]. cbn. auto.
  - match goal with
    | |- context [listSnapshots (?b, ?w)] =>
        destruct (Hlist b w eq_refl eq_refl eq_refl) as (s' & -> & Hr & Hf & Hh)
    end.
    eauto.
Qed.

Lemma check_error {X : Type} (f : Sys -> X) (m k : M error) (s s' : Sys) (e : string) :
  preserves f m ->
  (forall s1, k s1 = (Some e, s') -> f s' = f s1) ->
  check m k s = (Some e, s') -> f s' = f s.
Proof.
  intros Hm Hk H. apply check_inv in H. specialize (Hm s).
  destruct H as [(e' & H & _)|(s1 & H & H')]; rewrite H in Hm; cbn [snd] in Hm.
  - exact Hm.
  - rewrite <- Hm. apply Hk, H'.
Qed.

Lemma preserves_check {X : Type} (f : Sys -> X) (m k : M error) :
  preserves f m -> preserves f k -> preserves f (check m k).
Proof.
  intros Hm Hk. unfold check. apply preserves_bind; [exact Hm|].
  intros [e|]; [apply preserves_ret | exact Hk].
Qed.

Lemma preserves_untouched_call (o : Op) (a : list string) (effect : World -> World) :
  (forall w, snapshots (effect w) = snapshots w
             /\ defaultSnapshot (effect w) = defaultSnapshot w
             /\ envFiles (effect w) = envFiles w
             /\ failing (effect w) = failing w) ->
  preserves untouched (call o a effect).
Proof.
  intros He. apply preserves_call. intros b w. unfold untouched, snapshotStore.
  cbn [fst snd]. destruct (He (addLog (mkCall o a) w)) as (-> & -> & -> & ->).
  split; reflexivity.
Qed.

(** A failure of the body of CloseTransaction happens before the commit
    has had an effect. *)
Lemma closeTransaction_error (snapshot : Snapshot.t) (s s1 : Sys) (e : string) :
  closeTransaction snapshot s = (Some e, s1) -> untouched s1 = untouched s.
Proof.
  unfold closeTransaction. intros H.
  eapply check_error; [| |exact H].
  { apply preserves_untouched_call. intros w; repeat split. }
  clear H. intros s2 H. eapply check_error; [| |exact H].
  { apply preserves_untouched_call. intros w; repeat split. }
  clear H. intros s3 H. eapply check_error; [| |exact H].
  { destruct (1 <? Snapshot.ID snapshot)%Z; [|apply preserves_ret].
    apply preserves_check; apply preserves_untouched_call; intros w; repeat split. }
  clear H. intros s4 H. eapply check_error; [| |exact H].
  { apply preserves_untouched_call. intros w; repeat split. }
  clear H. intros s5 H.
  unfold mbind at 1, M_bind at 1, getBtrfs in H.
  apply check_inv in H. destruct H as [(e' & H & _)|(s6 & _ & H)].
  - apply call_Some in H. subst s1. reflexivity.
  - exfalso. unfold mbind, M_bind in H.
    destruct (setBootloader s6) as [r7 s7].
    destruct (backend_SnapshotsCleanup _ s7) as [r8 s8]. discriminate.
Qed.

(** X18.  When the body of CloseTransaction fails (creating the snapshots
    folder, mirroring the work directory, removing it, relabelling or
    committing), CloseTransaction returns that error and, provided the
    mounter and the listing and deletion of the backend work and a
    snapshot is active, the snapshot of the transaction is gone from the
    store, while the default snapshot and the bootloader environment are
    as before the call. *)
Theorem CloseTransaction_failure_deletes_snapshot (snapshot : Snapshot.t) (s s1 : Sys)
    (e : string) :
  Snapshot.InProgress snapshot = true ->
  Btrfs.rootDir (fst s) <> "" -> (0 < Btrfs.activeSnapshotID (fst s))%Z ->
  works OpMount s -> works OpUnmount s -> works OpListSnapshots s ->
  works OpDeleteSnapshot s ->
  closeTransaction snapshot s = (Some e, s1) ->
  exists s' : Sys,
    CloseTransaction snapshot s = (Some e, s')
    /\ snapshots (snd s')
       = List.filter (fun x => negb (x =? Snapshot.ID snapshot)%Z) (snapshots (snd s))
    /\ defaultSnapshot (snd s') = defaultSnapshot (snd s)
    /\ envFiles (snd s') = envFiles (snd s).
Proof.
  intros Hin Hroot Hact Hm Hu Hl Hd Hc.
  pose proof (closeTransaction_error _ _ _ _ Hc) as Hun.
  unfold untouched, snapshotStore in Hun. injection Hun as Hb Hsn Hdef Henv Hf.
  unfold CloseTransaction. rewrite Hin. cbn [negb]. unfold mbind, M_bind. rewrite Hc.
  unfold works in *.
  destruct (GetSnapshots_works s1) as (s2 & Hget & Hroot2 & Hf2);
    try (unfold works; rewrite Hf; assumption).
  { rewrite Hb. exact Hroot. }
  pose proof (keeps_GetSnapshots s1) as (Hst2 & _ & Henv2 & _).
  rewrite Hget in Hst2, Henv2. cbn [snd] in Hst2, Henv2.
  unfold snapshotStore in Hst2. injection Hst2 as Hsn2 Hdef2.
  rewrite Hb in Hget. apply Z.ltb_lt in Hact. rewrite Hact in Hget.
  unfold DeleteSnapshot, mbind, M_bind. rewrite Hget.
  assert (Hum : forall s3 : Sys,
             snapshots (snd s3)
             = List.filter (fun x => negb (x =? Snapshot.ID snapshot)%Z) (snapshots (snd s)) ->
             defaultSnapshot (snd s3) = defaultSnapshot (snd s) ->
             envFiles (snd s3) = envFiles (snd s) ->
             exists s' : Sys,
               snd (runSnapshotsUmount (Btrfs.snapshotsUmount (fst s3)) s3) = s'
               /\ snapshots (snd s')
                  = List.filter (fun x => negb (x =? Snapshot.ID snapshot)%Z)
                      (snapshots (snd s))
               /\ defaultSnapshot (snd s') = defaultSnapshot (snd s)
               /\ envFiles (snd s') = envFiles (snd s)).
  { intros s3 H1 H2 H3.
    pose proof (keeps_runSnapshotsUmount (Btrfs.snapshotsUmount (fst s3)) s3)
      as (Hst & _ & Hen & _).
    destruct (runSnapshotsUmount _ s3) as [r4 s4]. cbn [snd] in *.
    unfold snapshotStore in Hst. injection Hst as Hs4 Hd4.
    eexists. split; [reflexivity|]. repeat split; congruence. }
  destruct (existsb _ (snapshots (snd s1))) eqn:Hex; cbn [negb].
  - unfold getBtrfs, backend_DeleteSnapshot.
    rewrite call_works by (unfold works; rewrite Hf2, Hf; exact Hd).
    match goal with
    | |- context [runSnapshotsUmount (Btrfs.snapshotsUmount (fst ?s3)) ?s3] =>
        destruct (Hum s3) as (s' & Hs' & Hres);
        [cbn [snd snapshots defaultSnapshot envFiles setStore addLog]; congruence ..|]
    end.
    exists s'. split; [|exact Hres].
    destruct (runSnapshotsUmount _ _) as [r4 s4]. cbn [snd] in Hs'. subst s4. reflexivity.
  - unfold mret at 1, M_ret at 1, getBtrfs.
    destruct (Hum s2) as (s' & Hs' & Hres); try congruence.
    { rewrite Hsn2, Hsn. symmetry. apply filter_absent. rewrite <- Hsn. exact Hex. }
    exists s'. split; [|exact Hres].
    destruct (runSnapshotsUmount _ _) as [r4 s4]. cbn [snd] in Hs'. subst s4. reflexivity.
Qed.

Lemma CloseTransaction_failure_deletes_snapshot_witness :
  let s := Examples.startedWith [OpCommitSnapshot] in
  fst (snapshotStore s) = [1%Z; 2%Z]
  /\ exists s' : Sys,
       CloseTransaction Examples.snapshot2 s = (Some "collaborator failed", s')
       /\ snapshots (snd s')
          = List.filter (fun x => negb (x =? Snapshot.ID Examples.snapshot2)%Z)
              (snapshots (snd s))
       /\ defaultSnapshot (snd s') = defaultSnapshot (snd s)
       /\ envFiles (snd s') = envFiles (snd s).
Proof.
  split; [reflexivity|].
  apply (CloseTransaction_failure_deletes_snapshot Examples.snapshot2
           (Examples.startedWith [OpCommitSnapshot])
           (snd (closeTransaction Examples.snapshot2
                   (Examples.startedWith [OpCommitSnapshot])))).
  - reflexivity.
  - discriminate.
  - vm_compute. reflexivity.
  - unfold works. vm_compute. intros H. apply list_elem_of_In in H. destruct H as [H|[]].
    discriminate.
  - unfold works. vm_compute. intros H. apply list_elem_of_In in H. destruct H as [H|[]].
    discriminate.
  - unfold works. vm_compute. intros H. apply list_elem_of_In in H. destruct H as [H|[]].
    discriminate.
  - unfold works. vm_compute. intros H. apply list_elem_of_In in H. destruct H as [H|[]].
    discriminate.
  - vm_compute. reflexivity.
Defined.

Lemma CloseTransactionOnError_restores_witness :
  fst (CloseTransactionOnError Examples.snapshot2 Examples.started) = None
  /\ fst (GetSnapshots (snd (CloseTransactionOnError Examples.snapshot2 Examples.started)))
     = fst (GetSnapshots (Examples.btrfs1, Examples.world1 []))
  /\ Btrfs.activeSnapshotID
       (fst (snd (CloseTransactionOnError Examples.snapshot2 Examples.started)))
     = Btrfs.activeSnapshotID (fst (Examples.btrfs1, Examples.world1 [])).
Proof.
  apply (CloseTransactionOnError_restores Examples.workingImgDir
           (Examples.btrfs1, Examples.world1 []) Examples.started
           (snd (CloseTransactionOnError Examples.snapshot2 Examples.started))
           Examples.snapshot2).
  - reflexivity.
  - discriminate.
  - reflexivity.
  - repeat constructor. simpl. lia.
  - vm_compute. reflexivity.
  - vm_compute. reflexivity.
Defined.

Lemma mountSnapshotsSubvolumeInSnapshot_inv (root device : string) (snapshotID : Z)
    (s s' : Sys) (r : error) :
  mountSnapshotsSubvolumeInSnapshot root device snapshotID s = (r, s') ->
  Btrfs.snapshotsMount (fst s') = SnapshotsSubvolume root device snapshotID
  /\ Btrfs.activeSnapshotID (fst s') = Btrfs.activeSnapshotID (fst s)
  /\ match r with
     | None =>
         Btrfs.snapshotsUmount (fst s') = SnapshotsSubvolume root device snapshotID
         /\ mounts (snd s') = mounts (snd s) ++ [subvolumeMountPoint root snapshotID]
     | Some _ =>
         Btrfs.snapshotsUmount (fst s') = Btrfs.snapshotsUmount (fst s)
         /\ mounts (snd s') = mounts (snd s)
     end.
Proof.
  unfold mountSnapshotsSubvolumeInSnapshot, mbind, M_bind, modifyBtrfs. intros H.
  apply check_inv in H. destruct H as [(e & H & ->)|(s1 & H & H')].
  - unfold runSnapshotsMount, Mounter_Mount in H. apply call_Some in H. subst s'.
    repeat split.
  - unfold runSnapshotsMount, Mounter_Mount in H. apply call_None in H. subst s1.
    injection H' as <- <-. repeat split.
Qed.

(** X20.  The two closures of the snapshotter after remountStatePartition.
    On success the state partition is mounted and, when a snapshot is
    active, both closures are those of the snapshots subvolume of the
    active snapshot, which is mounted; without active snapshot the struct
    is unchanged.  On failure the closure that unmounts is never the one
    that was replaced. *)
Theorem remountStatePartition_hooks (state : Partition.t) (s s' : Sys) (r : error) :
  remountStatePartition state s = (r, s') ->
  let installed := SnapshotsSubvolume (Partition.MountPoint state) (Partition.Path state)
                (Btrfs.activeSnapshotID (fst s)) in
  match r with
  | None =>
      Partition.MountPoint state ∈ mounts (snd s')
      /\ if (0 <? Btrfs.activeSnapshotID (fst s))%Z
         then Btrfs.snapshotsMount (fst s') = installed
              /\ Btrfs.snapshotsUmount (fst s') = installed
              /\ subvolumeMountPoint (Partition.MountPoint state)
                   (Btrfs.activeSnapshotID (fst s)) ∈ mounts (snd s')
         else fst s' = fst s
  | Some _ => Btrfs.snapshotsUmount (fst s') = Btrfs.snapshotsUmount (fst s)
  end.
Proof.
  unfold remountStatePartition. intros H.
  apply check_inv in H. destruct H as [(e & H & ->)|(s1 & H1 & H)].
  { apply call_Some in H. subst s'. reflexivity. }
  apply call_None in H1. subst s1.
  apply check_inv in H. destruct H as [(e & H & ->)|(s2 & H2 & H)].
  { apply call_Some in H. subst s'. reflexivity. }
  apply call_None in H2. subst s2.
  unfold mbind, M_bind, getBtrfs in H. cbn [fst snd] in H.
  destruct (0 <? Btrfs.activeSnapshotID (fst s))%Z.
  - apply mountSnapshotsSubvolumeInSnapshot_inv in H.
    cbn [fst snd mounts setMounts addLog] in H.
    destruct H as (Hm & _ & H). destruct r as [e|].
    + destruct H as [H _]. exact H.
    + destruct H as [Hu Hmn]. rewrite Hmn. repeat split; try assumption.
      * rewrite !elem_of_app. left. right. apply list_elem_of_here.
      * rewrite !elem_of_app. right. apply list_elem_of_here.
  - injection H as <- <-. cbn [fst snd mounts setMounts addLog]. split; [|reflexivity].
    rewrite elem_of_app. right. apply list_elem_of_here.
Qed.

Lemma remountStatePartition_hooks_witness :
  let state := Partition.mk constants.StatePartName constants.StateLabel 15360 "ext4" []
                 Examples.stateDir "/dev/sda4" "" in
  let s : Sys := (Btrfs.setActiveSnapshotID 1 Examples.btrfs0, Examples.world0) in
  let s' := snd (remountStatePartition state s) in
  Partition.MountPoint state ∈ mounts (snd s')
  /\ if (0 <? Btrfs.activeSnapshotID (fst s))%Z
     then Btrfs.snapshotsMount (fst s')
          = SnapshotsSubvolume (Partition.MountPoint state) (Partition.Path state)
              (Btrfs.activeSnapshotID (fst s))
          /\ Btrfs.snapshotsUmount (fst s')
             = SnapshotsSubvolume (Partition.MountPoint state) (Partition.Path state)
                 (Btrfs.activeSnapshotID (fst s))
          /\ subvolumeMountPoint (Partition.MountPoint state)
               (Btrfs.activeSnapshotID (fst s)) ∈ mounts (snd s')
     else fst s' = fst s.
Proof.
  apply (remountStatePartition_hooks
           (Partition.mk constants.StatePartName constants.StateLabel 15360 "ext4" []
              Examples.stateDir "/dev/sda4" "")
           (Btrfs.setActiveSnapshotID 1 Examples.btrfs0, Examples.world0)
           (snd (remountStatePartition
                   (Partition.mk constants.StatePartName constants.StateLabel 15360 "ext4" []
                      Examples.stateDir "/dev/sda4" "")
                   (Btrfs.setActiveSnapshotID 1 Examples.btrfs0, Examples.world0)))
           None).
  vm_compute. reflexivity.
Defined.

(** ** Sanitize of the run and build configurations *)

Section ConfigSanitize.
Variable PlatformData : Type.
Variable NewPlatformFromArch : string -> option PlatformData * error.
Variable GOARCH : string.
Variable GetSquashfsNoCompressionOptions : list string.

Let sanitizeConfig := Config.Sanitize PlatformData NewPlatformFromArch GOARCH
                        GetSquashfsNoCompressionOptions.
Let sanitizeRun := RunConfig.Sanitize NewPlatformFromArch GOARCH
                     GetSquashfsNoCompressionOptions.
Let sanitizeBuild := BuildConfig.Sanitize NewPlatformFromArch GOARCH
                       GetSquashfsNoCompressionOptions.

Lemma Config_Sanitize_frame (c : Config.t PlatformData) :
  Config.CloudInitPaths _ (fst (sanitizeConfig c)) = Config.CloudInitPaths _ c
  /\ Config.Arch _ (fst (sanitizeConfig c)) = Config.Arch _ c
  /\ Config.SquashFsNoCompression _ (fst (sanitizeConfig c))
     = Config.SquashFsNoCompression _ c
  /\ (Config.SquashFsNoCompression _ c = true ->
      Config.SquashFsCompressionConfig _ (fst (sanitizeConfig c))
      = GetSquashfsNoCompressionOptions)
  /\ (snd (sanitizeConfig c) = None ->
      Config.Platform _ (fst (sanitizeConfig c)) = None ->
      NewPlatformFromArch GOARCH = (None, None)).
Proof.
  unfold sanitizeConfig, Config.Sanitize.
  destruct c as [pf co ve tl ck li ar sc nc ci st]; simpl.
  destruct nc; simpl;
    (destruct (negb (ar =? "")); simpl;
     [destruct (NewPlatformFromArch ar) as [[p|] [e|]]; simpl|];
     try (destruct pf; simpl);
     try (destruct (NewPlatformFromArch GOARCH) as [[q|] [e'|]]; simpl);
     repeat split; intros; congruence).
Qed.

(** X21.  Whether it returns an error or not, Sanitize of a run configuration and
    of a build configuration puts the three default cloud-init paths in
    front of the paths of the configuration and leaves these as they are,
    so a second call puts a second copy of the defaults in front; with
    SquashFsNoCompression set, the compression options are those of
    GetSquashfsNoCompressionOptions; and when no error is returned the
    platform is set, unless NewPlatformFromArch of GOARCH returns nil
    without an error. *)
Theorem Sanitize_cloud_init_paths
    (r : RunConfig.t PlatformData) (b : BuildConfig.t PlatformData) :
  Config.CloudInitPaths _ (RunConfig.Config (fst (sanitizeRun r)))
  = constants.GetCloudInitPaths ++ Config.CloudInitPaths _ (RunConfig.Config r)
  /\ Config.CloudInitPaths _
       (RunConfig.Config (fst (sanitizeRun (fst (sanitizeRun r)))))
     = constants.GetCloudInitPaths ++ constants.GetCloudInitPaths
       ++ Config.CloudInitPaths _ (RunConfig.Config r)
  /\ Config.CloudInitPaths _ (BuildConfig.Config (fst (sanitizeBuild b)))
     = constants.GetCloudInitPaths ++ Config.CloudInitPaths _ (BuildConfig.Config b)
  /\ Config.CloudInitPaths _
       (BuildConfig.Config (fst (sanitizeBuild (fst (sanitizeBuild b)))))
     = constants.GetCloudInitPaths ++ constants.GetCloudInitPaths
       ++ Config.CloudInitPaths _ (BuildConfig.Config b)
  /\ (Config.SquashFsNoCompression _ (RunConfig.Config r) = true ->
      Config.SquashFsCompressionConfig _ (RunConfig.Config (fst (sanitizeRun r)))
      = GetSquashfsNoCompressionOptions)
  /\ (snd (sanitizeRun r) = None ->
      Config.Platform _ (RunConfig.Config (fst (sanitizeRun r))) = None ->
      NewPlatformFromArch GOARCH = (None, None)).
Proof.
  assert (Hrun : forall x : RunConfig.t PlatformData,
            sanitizeRun x
            = (RunConfig.mk (RunConfig.Reboot x) (RunConfig.PowerOff x)
                 (RunConfig.EjectCD x) (RunConfig.Snapshotter x)
                 (fst (sanitizeConfig
                    (Config.setCloudInitPaths _
                       (constants.GetCloudInitPaths
                        ++ Config.CloudInitPaths _ (RunConfig.Config x))
                       (RunConfig.Config x)))),
               snd (sanitizeConfig
                    (Config.setCloudInitPaths _
                       (constants.GetCloudInitPaths
                        ++ Config.CloudInitPaths _ (RunConfig.Config x))
                       (RunConfig.Config x))))).
  { intros x. unfold sanitizeRun, RunConfig.Sanitize, sanitizeConfig.
    destruct (Config.Sanitize _ _ _ _ _) as [c e]. reflexivity. }
  assert (Hbuild : forall x : BuildConfig.t PlatformData,
            sanitizeBuild x
            = (BuildConfig.mk (BuildConfig.Date x) (BuildConfig.Name x)
                 (BuildConfig.OutDir x) (BuildConfig.Snapshotter x)
                 (fst (sanitizeConfig
                    (Config.setCloudInitPaths _
                       (constants.GetCloudInitPaths
                        ++ Config.CloudInitPaths _ (BuildConfig.Config x))
                       (BuildConfig.Config x)))),
               snd (sanitizeConfig
                    (Config.setCloudInitPaths _
                       (constants.GetCloudInitPaths
                        ++ Config.CloudInitPaths _ (BuildConfig.Config x))
                       (BuildConfig.Config x))))).
  { intros x. unfold sanitizeBuild, BuildConfig.Sanitize, sanitizeConfig.
    destruct (Config.Sanitize _ _ _ _ _) as [c e]. reflexivity. }
  rewrite (Hrun (fst (sanitizeRun r))), (Hbuild (fst (sanitizeBuild b))).
  rewrite (Hrun r), (Hbuild b). cbn [fst snd RunConfig.Config BuildConfig.Config].
  set (cr := Config.setCloudInitPaths _ _ (RunConfig.Config r)).
  set (cb := Config.setCloudInitPaths _ _ (BuildConfig.Config b)).
  destruct (Config_Sanitize_frame cr) as (Hp & _ & _ & Hsq & Hpl).
  destruct (Config_Sanitize_frame cb) as (Hpb & _).
  destruct (Config_Sanitize_frame
              (Config.setCloudInitPaths _
                 (constants.GetCloudInitPaths
                  ++ Config.CloudInitPaths _ (fst (sanitizeConfig cr)))
                 (fst (sanitizeConfig cr)))) as (Hp2 & _).
  destruct (Config_Sanitize_frame
              (Config.setCloudInitPaths _
                 (constants.GetCloudInitPaths
                  ++ Config.CloudInitPaths _ (fst (sanitizeConfig cb)))
                 (fst (sanitizeConfig cb)))) as (Hpb2 & _).
  rewrite Hp2, Hpb2, Hp, Hpb.
  split; [reflexivity|]. split; [reflexivity|].
  split; [reflexivity|]. split; [reflexivity|].
  split; [exact Hsq|exact Hpl].
Qed.
End ConfigSanitize.

(** ** The root device of the dracut module *)

Lemma append_cons (c : ascii) (a b : string) :
  (String c a ++ b = String c (a ++ b))%string.
Proof. reflexivity. Qed.

Lemma append_empty (b : string) : ("" ++ b = b)%string.
Proof. reflexivity. Qed.

Lemma afterPrefix_Some (p s rest : string) :
  cmdline.afterPrefix p s = Some rest -> s = (p ++ rest)%string.
Proof.
  revert s; induction p as [|a p IH]; intros [|b s]; simpl;
    rewrite ?append_empty, ?append_cons; try congruence.
  destruct (Ascii.eqb_spec a b) as [->|]; [|discriminate].
  intros H; rewrite (IH _ H); reflexivity.
Qed.

Lemma afterPrefix_append (p rest : string) :
  cmdline.afterPrefix p (p ++ rest) = Some rest.
Proof.
  induction p as [|a p IH]; rewrite ?append_empty, ?append_cons; simpl;
    [reflexivity|].
  rewrite Ascii.eqb_refl; exact IH.
Qed.

Lemma string_app_assoc (a b c : string) :
  ((a ++ b) ++ c = a ++ (b ++ c))%string.
Proof.
  induction a as [|x a IH]; rewrite ?append_empty, ?append_cons; congruence.
Qed.

Lemma escapeSlashes_append (a b : string) :
  cmdline.escapeSlashes (a ++ b)
  = (cmdline.escapeSlashes a ++ cmdline.escapeSlashes b)%string.
Proof.
  induction a as [|c a IH]; rewrite ?append_empty, ?append_cons; simpl;
    [reflexivity|].
  rewrite IH, string_app_assoc; reflexivity.
Qed.

Lemma Count_append (a b : string) (c : ascii) :
  Count (a ++ b) c = Count a c + Count b c.
Proof.
  induction a as [|x a IH]; rewrite ?append_empty, ?append_cons; simpl;
    [reflexivity|].
  rewrite IH; lia.
Qed.

Lemma Count_escapeSlashes (s : string) :
  Count (cmdline.escapeSlashes s) "/" = 0.
Proof.
  induction s as [|c s IH]; simpl; [reflexivity|].
  rewrite Count_append, IH.
  destruct (Ascii.eqb_spec c "/") as [->|Hc]; [reflexivity|].
  simpl. destruct (Ascii.eqb_spec c "/"); [contradiction|reflexivity].
Qed.

(** X22.  When the case
    sets rootok, the root it leaves is a path under /dev; a root given as
    LABEL=l becomes /dev/disk/by-label/ followed by l with every slash
    escaped, so what follows by-label/ holds no slash and names an entry
    of that directory, whatever the label; the rest of a UUID= root is
    taken as it is; and a root under /dev is left as it is. *)
Theorem resolveRoot_device (root dev : string) :
  cmdline.resolveRoot root false = (dev, true) ->
  cmdline.afterPrefix "/dev/" dev <> None
  /\ (forall l, cmdline.afterPrefix "LABEL=" root = Some l ->
        dev = ("/dev/disk/by-label/" ++ cmdline.escapeSlashes l)%string
        /\ Count (cmdline.escapeSlashes l) "/" = 0)
  /\ (forall u, cmdline.afterPrefix "UUID=" root = Some u ->
        dev = ("/dev/disk/by-uuid/" ++ u)%string)
  /\ (cmdline.afterPrefix "/dev/" root <> None -> dev = root).
Proof.
  unfold cmdline.resolveRoot.
  destruct (cmdline.afterPrefix "LABEL=" root) as [l|] eqn:El.
  - pose proof (afterPrefix_Some _ _ _ El) as ->.
    assert (Hs : cmdline.stripPrefix "LABEL=" (cmdline.escapeSlashes ("LABEL=" ++ l))
                 = cmdline.escapeSlashes l).
    { rewrite escapeSlashes_append. unfold cmdline.stripPrefix.
      change (cmdline.escapeSlashes "LABEL=") with "LABEL=".
      rewrite afterPrefix_append. reflexivity. }
    rewrite Hs. intros [= <-].
    split; [discriminate|]. split; [|split].
    + intros l' [= <-]. split; [reflexivity|apply Count_escapeSlashes].
    + intros u Hu. discriminate Hu.
    + intros Hd. exfalso. apply Hd. reflexivity.
  - destruct (cmdline.afterPrefix "UUID=" root) as [u|] eqn:Eu.
    + pose proof (afterPrefix_Some _ _ _ Eu) as ->.
      unfold cmdline.stripPrefix. rewrite afterPrefix_append.
      intros [= <-].
      split; [discriminate|]. split; [|split].
      * intros l Hl. discriminate Hl.
      * intros u' [= <-]. reflexivity.
      * intros Hd. exfalso. apply Hd. reflexivity.
    + destruct (cmdline.afterPrefix "/dev/" root) as [d|] eqn:Ed; [|discriminate].
      intros [= <-].
      split; [rewrite Ed; discriminate|]. split; [|split].
      * intros l Hl. discriminate Hl.
      * intros u Hu. discriminate Hu.
      * reflexivity.
Qed.

Lemma resolveRoot_device_witness :
  cmdline.resolveRoot "LABEL=COS/STATE" false = ("/dev/disk/by-label/COS\x2fSTATE", true)
  /\ Count "COS\x2fSTATE" "/" = 0.
Proof.
  split; [reflexivity|].
  exact (proj2 (proj1 (proj2 (resolveRoot_device "LABEL=COS/STATE"
            "/dev/disk/by-label/COS\x2fSTATE" eq_refl)) "COS/STATE" eq_refl)).
Defined.
